(** * How-To Recorder: the interaction-recording pipeline

    A shallow embedding of the recording pipeline of the browser extension:
    the background service worker (session orchestrator), the selector
    generator, the sensitive-field classifier, the input handler and the
    click handler of the content script, followed by the properties
    established about them.

    JavaScript numbers that hold tab ids, timestamps and indices are [Z];
    strings are [string]; arrays are [list]; [undefined]/[null] is [None];
    a rejected promise or a thrown exception is [Throw]. *)

From Stdlib Require Import ZArith List String Ascii Bool Lia.
From stdpp Require Import base option list strings pretty gmap.
Import ListNotations.
Local Open Scope string_scope.
Local Open Scope list_scope.
Local Open Scope Z_scope.

(** ** JavaScript helpers shared by all components *)

Module Js.

(** The outcome of a computation that may throw. *)
Inductive Exc (A : Type) : Type :=
| Ok (a : A)
| Throw (msg : string).
Arguments Ok {A} a.
Arguments Throw {A} msg.

Definition isOk {A} (r : Exc A) : bool :=
  match r with Ok _ => true | Throw _ => false end.

(** Sequencing of calls that may throw: [x ← m; k] runs [k] on the value of
    [m], or throws what [m] throws. *)
#[global] Instance Exc_bind : MBind Exc := fun A B (k : A -> Exc B) m =>
  match m with
  | Ok a => k a
  | Throw e => Throw e
  end.

(** [s || d] on an optional string: the empty string is falsy. *)
Definition str_or (s : option string) (d : string) : string :=
  match s with
  | Some v => if String.eqb v "" then d else v
  | None => d
  end.

(** Truthiness of an optional number: [undefined] and [0] are falsy. *)
Definition truthy_num (n : option Z) : option Z :=
  match n with
  | Some v => if v =? 0 then None else Some v
  | None => None
  end.

(** Truthiness of an optional string. *)
Definition truthy_str (s : option string) : option string :=
  match s with
  | Some v => if String.eqb v "" then None else Some v
  | None => None
  end.

(** [Array.prototype.includes] on an array of numbers. *)
Definition includes (l : list Z) (x : Z) : bool := existsb (Z.eqb x) l.

(** [Array.prototype.indexOf]: the first index holding [x], or [-1]. *)
Fixpoint indexOf (l : list Z) (x : Z) : Z :=
  match l with
  | [] => -1
  | y :: l' =>
      if y =? x then 0
      else let i := indexOf l' x in if i =? -1 then -1 else i + 1
  end.

(** [Array.prototype.findIndex]. *)
Fixpoint findIndex {A} (p : A -> bool) (l : list A) : Z :=
  match l with
  | [] => -1
  | y :: l' =>
      if p y then 0
      else let i := findIndex p l' in if i =? -1 then -1 else i + 1
  end.

(** [arr.splice(index, 1)] for an index in range: the element at [index]
    is removed in place; an index past the end removes nothing. *)
Fixpoint splice1 {A} (l : list A) (index : nat) : list A :=
  match l, index with
  | [], _ => []
  | _ :: l', O => l'
  | y :: l', S i => y :: splice1 l' i
  end.

End Js.
Export Js.

(** ** Data model (types/recording.ts)

    The fields the recorder itself reads or writes; the optional
    attachments that it never sets ([audioData], and [screenshotData] of
    annotations) are left out. *)

Record ElementInfo := {
  ei_tag : string;
  ei_text : string;
  ei_selector : string;
  ei_type : option string;
  ei_name : option string;
  ei_id : option string;
  ei_className : option string;
  ei_ariaLabel : option string;
}.

Inductive StepType := click | input | navigation.

Record RecordingStep := {
  step_id : string;
  timestamp : Z;
  type : StepType;
  tabId : Z;
  tabTitle : string;
  url : string;
  screenshotData : option string;
  element : option ElementInfo;
  inputValue : option string;
  isSensitive : option bool;
}.

Record Annotation := {
  ann_id : string;
  ann_timestamp : Z;
  text : string;
}.

Record RecordingSession := {
  id : string;
  title : string;
  startTime : Z;
  endTime : option Z;
  isRecording : bool;
  hasAudio : bool;
  steps : list RecordingStep;
  annotations : list Annotation;
  trackedTabIds : list Z;
}.

(** Detector-to-orchestrator payloads. *)
Record ClickEventMessage := {
  ce_element : ElementInfo;
  ce_url : string;
  ce_timestamp : Z;
}.

Record InputEventMessage := {
  ie_element : ElementInfo;
  ie_value : string;
  ie_isSensitive : bool;
  ie_url : string;
  ie_timestamp : Z;
}.

Inductive RecordingMessage :=
| START_RECORDING (title : string) (hasAudio : bool)
| STOP_RECORDING
| CLICK_EVENT (msg : ClickEventMessage)
| INPUT_EVENT (msg : InputEventMessage)
| ADD_ANNOTATION (text : string) (timestamp : Z)
| UPDATE_ANNOTATION (annotationId : string) (text : string)
| DELETE_ANNOTATION (annotationId : string)
| GET_RECORDING_STATE
| CONTENT_SCRIPT_READY (url : string)
| OTHER_MESSAGE.

(** ** Background service worker (background/index.ts)

    Each listener is taken to run to completion before the next event is
    handled: the worker's state is read and written in one step per event,
    with the browser's answers to the calls awaited on the way given by a
    [Browser] record.  [startRecording], which publishes the session
    before an await and completes it after, is given in its parts as
    well.  [enableRecordingInTab], [disableRecordingInTab],
    [highlightElement], [hideHighlightInTab] and [broadcastToSidePanel]
    only send messages and swallow their failures; they leave the worker's
    variables alone and do not appear below. *)

Module Background.

(** A [chrome.tabs.Tab] as far as the worker reads it. *)
Record Tab := {
  tab_id : option Z;
  tab_windowId : option Z;
  tab_title : option string;
  tab_url : option string;
  tab_openerTabId : option Z;
}.

(** What the browser answers while one handler runs.  [tabs_get] and
    [captureVisibleTab] answer [None] when the promise rejects;
    [storage_ok] tells whether [chrome.storage.local] calls resolve. *)
Record Browser := {
  Date_now : Z;
  unique : string;
  tabs_query_active : list Tab;
  tabs_get : Z -> option Tab;
  captureVisibleTab : Z -> option string;
  storage_ok : bool;
}.

(** The module-level variables of the worker. *)
Record State := {
  currentSession : option RecordingSession;
  readyTabs : gset Z;
}.

Definition set_session (st : State) (s : RecordingSession) : State :=
  {| currentSession := Some s; readyTabs := readyTabs st |}.

(** [`${prefix}${Date.now()}_${random}`]; the browser supplies the part
    after the prefix. *)
Definition generateUniqueId (b : Browser) (prefix : string) : string :=
  prefix +:+ unique b.

Definition captureScreenshot (b : Browser) (tabId : Z) : option string :=
  match tabs_get b tabId with
  | None => None
  | Some tab =>
      match truthy_num (tab_windowId tab) with
      | None => None
      | Some w => captureVisibleTab b w
      end
  end.

(** The highlight is shown and hidden in the tab around the capture; both
    messages are fire-and-forget for the worker's own state. *)
Definition captureScreenshotWithHighlight
    (b : Browser) (tabId : Z) (selector : option string) : option string :=
  captureScreenshot b tabId.

(** [saveSessionMetadata]: writes to storage only; it rejects when the
    storage calls do. *)
Definition saveSessionMetadata (b : Browser) (st : State) : Exc unit :=
  match currentSession st with
  | None => Ok tt
  | Some _ => if storage_ok b then Ok tt else Throw "storage"
  end.

(** [startRecording] awaits the browser between publishing the session
    and pushing its initial step, and the worker handles other events
    during an await.  The function is given in the three parts that run
    without interruption.

    The first part runs up to the await of [enableRecordingInTab]: the
    session, recording and without a step, becomes [currentSession].  Its
    value is the active tab and its id, which the function keeps in local
    variables. *)
Definition startRecordingBegin (b : Browser) (title : string)
    (hasAudio : bool) (st : State) : Exc (Tab * Z) * State :=
  match head (tabs_query_active b) with
  | None => (Throw "No active tab found", st)
  | Some activeTab =>
      match truthy_num (tab_id activeTab) with
      | None => (Throw "No active tab found", st)
      | Some activeTabId =>
          let startTime := Date_now b in
          let session :=
            {| id := generateUniqueId b "session_";
               title := title;
               startTime := startTime;
               endTime := None;
               isRecording := true;
               hasAudio := hasAudio;
               steps := [];
               annotations := [];
               trackedTabIds := [activeTabId] |} in
          (Ok (activeTab, activeTabId), set_session st session)
      end
  end.

(** The second part runs when the screenshot has been captured, up to the
    await of [saveSessionMetadata]: the initial step is pushed onto the
    steps that [currentSession] holds by then. *)
Definition startRecordingPush (b : Browser) (activeTab : Tab)
    (activeTabId : Z) (st : State) : Exc unit * State :=
  match currentSession st with
  | None => (Throw "TypeError", st)
  | Some s =>
      let initialStep :=
        {| step_id := generateUniqueId b "step_";
           timestamp := 0;
           type := navigation;
           tabId := activeTabId;
           tabTitle := str_or (tab_title activeTab) "Untitled";
           url := str_or (tab_url activeTab) "";
           screenshotData := captureScreenshot b activeTabId;
           element := None;
           inputValue := None;
           isSensitive := None |} in
      (Ok tt,
       set_session st
         {| id := id s; title := title s; startTime := startTime s;
            endTime := endTime s; isRecording := isRecording s;
            hasAudio := hasAudio s;
            steps := steps s ++ [initialStep];
            annotations := annotations s;
            trackedTabIds := trackedTabIds s |})
  end.

(** The third part runs when [saveSessionMetadata] has settled: the
    function returns what [currentSession] is by then. *)
Definition startRecordingReturn (b : Browser) (st : State)
    : Exc RecordingSession :=
  match saveSessionMetadata b st with
  | Throw e => Throw e
  | Ok _ =>
      match currentSession st with
      | None => Throw "TypeError"
      | Some session => Ok session
      end
  end.

(** [startRecording] when nothing else is handled during its awaits. *)
Definition startRecording (b : Browser) (title : string) (hasAudio : bool)
    (st : State) : Exc RecordingSession * State :=
  match startRecordingBegin b title hasAudio st with
  | (Throw e, st') => (Throw e, st')
  | (Ok (activeTab, activeTabId), published) =>
      match startRecordingPush b activeTab activeTabId published with
      | (Throw e, st') => (Throw e, st')
      | (Ok _, st') =>
          match startRecordingReturn b st' with
          | Throw e => (Throw e, st')
          | Ok session => (Ok session, st')
          end
      end
  end.

Definition stopRecording (b : Browser) (st : State)
    : Exc (option RecordingSession) * State :=
  match currentSession st with
  | None => (Ok None, st)
  | Some s =>
      let finished :=
        {| id := id s; title := title s; startTime := startTime s;
           endTime := Some (Date_now b);
           isRecording := false;
           hasAudio := hasAudio s; steps := steps s;
           annotations := annotations s;
           trackedTabIds := trackedTabIds s |} in
      let st' := set_session st finished in
      match saveSessionMetadata b st' with
      | Throw e => (Throw e, st')
      | Ok _ => (Ok (Some finished), st')
      end
  end.

(** The entry of the session index that [saveSessionMetadata] keeps in
    [chrome.storage.local]. *)
Record SessionMetadata := {
  m_id : string;
  m_title : string;
  m_startTime : Z;
  m_endTime : option Z;
  m_hasAudio : bool;
  m_stepCount : nat;
  m_annotationCount : nat;
  m_isRecording : bool;
}.

Definition metadata (s : RecordingSession) : SessionMetadata :=
  {| m_id := id s;
     m_title := title s;
     m_startTime := startTime s;
     m_endTime := endTime s;
     m_hasAudio := hasAudio s;
     m_stepCount := length (steps s);
     m_annotationCount := length (annotations s);
     m_isRecording := isRecording s |}.

(** The [sessionIndex] that [saveSessionMetadata] writes back, from the
    one it read: the entry of the session is replaced where it stands,
    or put in front. *)
Definition savedSessionIndex (s : RecordingSession)
    (sessionIndex : list SessionMetadata) : list SessionMetadata :=
  let existingIndex :=
    findIndex (fun m => String.eqb (m_id m) (m_id (metadata s)))
      sessionIndex in
  if 0 <=? existingIndex
  then <[ Z.to_nat existingIndex := metadata s ]> sessionIndex
  else metadata s :: sessionIndex.

(** The [Partial<RecordingStep>] handed to [addStep]. *)
Record StepData := {
  d_timestamp : option Z;
  d_element : option ElementInfo;
  d_inputValue : option string;
  d_isSensitive : option bool;
  d_url : option string;
}.

Definition addStep (b : Browser) (ty : StepType) (data : StepData)
    (tabId : Z) (st : State) : option RecordingStep * State :=
  match currentSession st with
  | None => (None, st)
  | Some s =>
      if negb (isRecording s) then (None, st)
      else
        let '(tabTitle, tabUrl) :=
          match tabs_get b tabId with
          | Some tab =>
              (str_or (tab_title tab) "Untitled",
               str_or (tab_url tab) (str_or (d_url data) ""))
          | None => ("Unknown", str_or (d_url data) "")
          end in
        let selector := ei_selector <$> d_element data in
        let screenshotData :=
          captureScreenshotWithHighlight b tabId (truthy_str selector) in
        let step :=
          {| step_id := generateUniqueId b "step_";
             timestamp :=
               match truthy_num (d_timestamp data) with
               | Some t => t
               | None => Date_now b - startTime s
               end;
             type := ty;
             tabId := tabId;
             tabTitle := tabTitle;
             url := tabUrl;
             screenshotData := screenshotData;
             element := d_element data;
             inputValue := d_inputValue data;
             isSensitive := d_isSensitive data |} in
        let tracked :=
          if includes (trackedTabIds s) tabId then trackedTabIds s
          else trackedTabIds s ++ [tabId] in
        let s' :=
          {| id := id s; title := title s; startTime := startTime s;
             endTime := endTime s; isRecording := isRecording s;
             hasAudio := hasAudio s;
             steps := steps s ++ [step];
             annotations := annotations s;
             trackedTabIds := tracked |} in
        (Some step, set_session st s')
  end.

Definition with_annotations (s : RecordingSession) (l : list Annotation)
    : RecordingSession :=
  {| id := id s; title := title s; startTime := startTime s;
     endTime := endTime s; isRecording := isRecording s;
     hasAudio := hasAudio s; steps := steps s;
     annotations := l;
     trackedTabIds := trackedTabIds s |}.

Definition with_trackedTabIds (s : RecordingSession) (l : list Z)
    : RecordingSession :=
  {| id := id s; title := title s; startTime := startTime s;
     endTime := endTime s; isRecording := isRecording s;
     hasAudio := hasAudio s; steps := steps s;
     annotations := annotations s;
     trackedTabIds := l |}.

Definition addAnnotation (b : Browser) (txt : string) (ts : Z) (st : State)
    : option Annotation * State :=
  match currentSession st with
  | None => (None, st)
  | Some s =>
      let annotation :=
        {| ann_id := generateUniqueId b "ann_";
           ann_timestamp := ts;
           text := txt |} in
      (Some annotation,
       set_session st (with_annotations s (annotations s ++ [annotation])))
  end.

Definition set_text (a : Annotation) (txt : string) : Annotation :=
  {| ann_id := ann_id a; ann_timestamp := ann_timestamp a; text := txt |}.

(** [annotations.find(a => a.id === annotationId)] followed by the
    assignment [annotation.text = text] on the object found: the array
    then holds the updated object at the position of the first match. *)
Fixpoint assign_text_first (annotationId txt : string) (l : list Annotation)
    : option (Annotation * list Annotation) :=
  match l with
  | [] => None
  | a :: l' =>
      if String.eqb (ann_id a) annotationId
      then Some (set_text a txt, set_text a txt :: l')
      else
        match assign_text_first annotationId txt l' with
        | Some (found, l'') => Some (found, a :: l'')
        | None => None
        end
  end.

Definition updateAnnotation (annotationId txt : string) (st : State)
    : option Annotation * State :=
  match currentSession st with
  | None => (None, st)
  | Some s =>
      match assign_text_first annotationId txt (annotations s) with
      | Some (annotation, l) =>
          (Some annotation, set_session st (with_annotations s l))
      | None => (None, st)
      end
  end.

Definition deleteAnnotation (annotationId : string) (st : State)
    : bool * State :=
  match currentSession st with
  | None => (false, st)
  | Some s =>
      let index :=
        findIndex (fun a => String.eqb (ann_id a) annotationId)
          (annotations s) in
      if negb (index =? -1)
      then (true,
            set_session st
              (with_annotations s (splice1 (annotations s) (Z.to_nat index))))
      else (false, st)
  end.

(** *** Message dispatch ([chrome.runtime.onMessage]) *)

(** What is passed to [sendResponse]; [NoResponse] when the handler never
    calls it. *)
Inductive Response :=
| StartResponse (r : Exc RecordingSession)
| StopResponse (session : option RecordingSession)
| StepResponse (step : option RecordingStep)
| AnnotationResponse (success : bool) (annotation : option Annotation)
| SuccessResponse (success : bool)
| ErrorResponse (error : string)
| StateResponse (isRecording : bool) (session : option RecordingSession)
| NoResponse.

Definition session_recording (st : State) : bool :=
  match currentSession st with
  | Some s => isRecording s
  | None => false
  end.

(** [sender_tab_id] is [sender.tab?.id]. *)
Definition onMessage (b : Browser) (message : RecordingMessage)
    (sender_tab_id : option Z) (st : State) : Response * State :=
  match message with
  | START_RECORDING ttl audio =>
      let '(r, st') := startRecording b ttl audio st in
      (StartResponse r, st')
  | STOP_RECORDING =>
      match stopRecording b st with
      | (Ok session, st') => (StopResponse session, st')
      | (Throw _, st') => (NoResponse, st')
      end
  | CLICK_EVENT msg =>
      match truthy_num sender_tab_id with
      | Some tid =>
          let '(step, st') :=
            addStep b click
              {| d_timestamp := Some (ce_timestamp msg);
                 d_element := Some (ce_element msg);
                 d_inputValue := None;
                 d_isSensitive := None;
                 d_url := Some (ce_url msg) |}
              tid st in
          (StepResponse step, st')
      | None => (NoResponse, st)
      end
  | INPUT_EVENT msg =>
      match truthy_num sender_tab_id with
      | Some tid =>
          let '(step, st') :=
            addStep b input
              {| d_timestamp := Some (ie_timestamp msg);
                 d_element := Some (ie_element msg);
                 d_inputValue := Some (ie_value msg);
                 d_isSensitive := Some (ie_isSensitive msg);
                 d_url := Some (ie_url msg) |}
              tid st in
          (StepResponse step, st')
      | None => (ErrorResponse "No tab id", st)
      end
  | ADD_ANNOTATION txt ts =>
      let '(annotation, st') := addAnnotation b txt ts st in
      (AnnotationResponse true annotation, st')
  | UPDATE_ANNOTATION annotationId txt =>
      let '(annotation, st') := updateAnnotation annotationId txt st in
      (AnnotationResponse (bool_decide (is_Some annotation)) annotation, st')
  | DELETE_ANNOTATION annotationId =>
      let '(success, st') := deleteAnnotation annotationId st in
      (SuccessResponse success, st')
  | GET_RECORDING_STATE =>
      (StateResponse (session_recording st) (currentSession st), st)
  | CONTENT_SCRIPT_READY _ =>
      match truthy_num sender_tab_id with
      | Some tid =>
          let ready := {[ tid ]} ∪ readyTabs st in
          match currentSession st with
          | Some s =>
              if isRecording s then
                let tracked :=
                  if includes (trackedTabIds s) tid then trackedTabIds s
                  else trackedTabIds s ++ [tid] in
                (SuccessResponse true,
                 {| currentSession := Some (with_trackedTabIds s tracked);
                    readyTabs := ready |})
              else
                (SuccessResponse true,
                 {| currentSession := Some s; readyTabs := ready |})
          | None =>
              (SuccessResponse true,
               {| currentSession := None; readyTabs := ready |})
          end
      | None => (SuccessResponse true, st)
      end
  | OTHER_MESSAGE => (ErrorResponse "Unknown message type", st)
  end.

(** *** Tab lifecycle listeners *)

(** [chrome.tabs.onUpdated]: [complete] is [changeInfo.status ===
    'complete']. *)
Definition onUpdated (b : Browser) (tabId : Z) (complete : bool) (tab : Tab)
    (st : State) : State :=
  match currentSession st with
  | None => st
  | Some s =>
      if negb (isRecording s) then st
      else if negb (includes (trackedTabIds s) tabId) then st
      else
        match complete, truthy_str (tab_url tab) with
        | true, Some u =>
            snd (addStep b navigation
                   {| d_timestamp := Some (Date_now b - startTime s);
                      d_element := None;
                      d_inputValue := None;
                      d_isSensitive := None;
                      d_url := Some u |}
                   tabId st)
        | _, _ => st
        end
  end.

(** [chrome.tabs.onCreated]. *)
Definition onCreated (tab : Tab) (st : State) : State :=
  match currentSession st with
  | None => st
  | Some s =>
      if negb (isRecording s) then st
      else
        match truthy_num (tab_id tab) with
        | None => st
        | Some tid =>
            match truthy_num (tab_openerTabId tab) with
            | Some opener =>
                if includes (trackedTabIds s) opener
                then set_session st
                       (with_trackedTabIds s (trackedTabIds s ++ [tid]))
                else st
            | None => st
            end
        end
  end.

(** [chrome.tabs.onRemoved].  [stopRecording()] is called without being
    awaited: its assignments run at once, and a rejection of its promise
    reaches nobody. *)
Definition onRemoved (b : Browser) (tabId : Z) (st : State) : State :=
  let st1 :=
    {| currentSession := currentSession st;
       readyTabs := readyTabs st ∖ {[ tabId ]} |} in
  match currentSession st1 with
  | None => st1
  | Some s =>
      if negb (isRecording s) then st1
      else
        let index := indexOf (trackedTabIds s) tabId in
        if negb (index =? -1) then
          let tracked := splice1 (trackedTabIds s) (Z.to_nat index) in
          let st2 := set_session st1 (with_trackedTabIds s tracked) in
          if (Z.of_nat (length tracked) =? 0)
          then snd (stopRecording b st2)
          else st2
        else st1
  end.

(** Everything the worker reacts to, and a run of the worker over a
    sequence of such events, each with the browser's answers at that
    moment. *)
Inductive Event :=
| Message (message : RecordingMessage) (sender_tab_id : option Z)
| TabUpdated (tabId : Z) (complete : bool) (tab : Tab)
| TabCreated (tab : Tab)
| TabRemoved (tabId : Z).

Definition handle (b : Browser) (ev : Event) (st : State) : State :=
  match ev with
  | Message message sender => snd (onMessage b message sender st)
  | TabUpdated tabId complete tab => onUpdated b tabId complete tab st
  | TabCreated tab => onCreated tab st
  | TabRemoved tabId => onRemoved b tabId st
  end.

Fixpoint run (evs : list (Browser * Event)) (st : State) : State :=
  match evs with
  | [] => st
  | (b, ev) :: evs' => run evs' (handle b ev st)
  end.

Definition session_steps (st : State) : list RecordingStep :=
  match currentSession st with
  | Some s => steps s
  | None => []
  end.

End Background.

(** ** The page as the content script reads it *)

Module Dom.

(** *** Characters and strings *)

Definition code (c : ascii) : N := N_of_ascii c.

Definition in_range (lo hi : N) (c : ascii) : bool :=
  ((lo <=? code c) && (code c <=? hi))%N.

Definition is_digit (c : ascii) : bool := in_range 48 57 c.
Definition is_upper (c : ascii) : bool := in_range 65 90 c.
Definition is_lower (c : ascii) : bool := in_range 97 122 c.
Definition is_alpha (c : ascii) : bool := is_upper c || is_lower c.
Definition is_alnum (c : ascii) : bool := is_alpha c || is_digit c.

Definition lower_char (c : ascii) : ascii :=
  if is_upper c then ascii_of_N (code c + 32) else c.

(** [String.prototype.toLowerCase], on ASCII letters. *)
Fixpoint toLowerCase (s : string) : string :=
  match s with
  | EmptyString => EmptyString
  | String c s' => String (lower_char c) (toLowerCase s')
  end.

Fixpoint all_chars (p : ascii -> bool) (s : string) : bool :=
  match s with
  | EmptyString => true
  | String c s' => p c && all_chars p s'
  end.

Definition nonempty (s : string) : bool :=
  match s with EmptyString => false | String _ _ => true end.

(** [hay.includes(needle)], also the test of an unanchored literal
    pattern. *)
Fixpoint contains (needle hay : string) : bool :=
  String.prefix needle hay
  || match hay with
     | EmptyString => false
     | String _ hay' => contains needle hay'
     end.

(** *** [CSS.escape] (CSSOM, "serialize an identifier") *)

Definition hex_digit (n : N) : ascii :=
  if (n <? 10)%N then ascii_of_N (48 + n) else ascii_of_N (87 + n).

(** [n.toString(16)] for a code unit below 256. *)
Definition hex (n : N) : string :=
  if (n <? 16)%N then String (hex_digit n) EmptyString
  else String (hex_digit (n / 16)) (String (hex_digit (n mod 16)) EmptyString).

Definition escape_as_code_point (c : ascii) : string :=
  String "\" (hex (code c) +:+ " ").

Definition replacement_character : string :=
  String (ascii_of_N 239) (String (ascii_of_N 191)
    (String (ascii_of_N 189) EmptyString)).

Definition escape_unit (index : nat) (firstCodeUnit : option ascii)
    (len : nat) (c : ascii) : string :=
  if (code c =? 0)%N then replacement_character
  else if in_range 1 31 c || (code c =? 127)%N then escape_as_code_point c
  else if Nat.eqb index 0 && is_digit c then escape_as_code_point c
  else if Nat.eqb index 1 && is_digit c
          && bool_decide (firstCodeUnit = Some "-"%char)
       then escape_as_code_point c
  else if Nat.eqb index 0 && Nat.eqb len 1 && Ascii.eqb c "-"
       then String "\" (String c EmptyString)
  else if (128 <=? code c)%N || Ascii.eqb c "-" || Ascii.eqb c "_"
          || is_digit c || is_alpha c
       then String c EmptyString
  else String "\" (String c EmptyString).

Fixpoint escape_from (index : nat) (firstCodeUnit : option ascii) (len : nat)
    (s : string) : string :=
  match s with
  | EmptyString => EmptyString
  | String c s' =>
      escape_unit index firstCodeUnit len c
      +:+ escape_from (S index) firstCodeUnit len s'
  end.

Definition CSS_escape (value : string) : string :=
  escape_from 0
    (match value with String c _ => Some c | EmptyString => None end)
    (String.length value) value.

(** *** Elements *)

(** A child as its parent lists it in [children]. *)
Record Child := {
  child_handle : nat;
  child_tagName : string;
}.

(** An element: [handle] is the identity of the DOM object, [id] the [id]
    property, [attributes] what [getAttribute] reads, [classList] the class
    tokens in order, [children] the element children, [parentElement] the
    parent element with its own ancestors in turn. *)
#[warnings="-register-all"]
Inductive Element : Type := mkElement {
  handle : nat;
  tagName : string;
  id : string;
  attributes : list (string * string);
  classList : list string;
  children : list Child;
  parentElement : option Element;
}.

Fixpoint assoc (name : string) (l : list (string * string)) : option string :=
  match l with
  | [] => None
  | (k, v) :: l' => if String.eqb k name then Some v else assoc name l'
  end.

Definition getAttribute (element : Element) (name : string) : option string :=
  assoc name (attributes element).

(** The document: the two distinguished elements and the selector engine.
    A query answers the handles of the matching elements in document order,
    or throws a [SyntaxError] on a selector it cannot parse.
    [scopedQuerySelectorAll h] is [querySelectorAll] called on the element
    with handle [h]. *)
Record Document := {
  body : nat;
  documentElement : nat;
  querySelectorAll : string -> Exc (list nat);
  scopedQuerySelectorAll : nat -> string -> Exc (list nat);
}.

End Dom.

(** ** Selector generator (contentScript/selectorGenerator.ts) *)

Module SelectorGenerator.
Import Dom.

Definition STABLE_ATTRIBUTES : list string :=
  ["data-testid"; "data-cy"; "data-test"; "data-qa"; "name"; "aria-label";
   "role"].

(** [/^_[a-z0-9]+$/i] *)
Definition css_module_class (s : string) : bool :=
  match s with
  | String "_" rest => nonempty rest && all_chars is_alnum rest
  | _ => false
  end.

Definition digits1 (s : string) : bool := nonempty s && all_chars is_digit s.

(** [/^[a-z]{1,2}[0-9]+$/i] *)
Definition minified_class (s : string) : bool :=
  match s with
  | String c1 r1 =>
      is_alpha c1
      && (digits1 r1
          || match r1 with
             | String c2 r2 => is_alpha c2 && digits1 r2
             | EmptyString => false
             end)
  | EmptyString => false
  end.

Definition UNSTABLE_CLASS_PATTERNS : list (string -> bool) :=
  [ String.prefix "css-";
    String.prefix "sc-";
    String.prefix "emotion-";
    css_module_class;
    minified_class;
    String.prefix "jsx-";
    contains "--" ].

(** [document.querySelectorAll] outside any [try]: a [SyntaxError]
    propagates. *)
Definition isUniqueId (doc : Document) (element : Element) (i : string)
    : Exc bool :=
  r ← querySelectorAll doc ("#" +:+ CSS_escape i);
  Ok (Nat.eqb (length r) 1).

Definition isStableClass (className : string) : bool :=
  negb (existsb (fun pattern => pattern className) UNSTABLE_CLASS_PATTERNS).

Definition getStableClasses (element : Element) : list string :=
  filter (fun c => isStableClass c = true) (classList element).

Definition isUnique (doc : Document) (selector : string) : bool :=
  match querySelectorAll doc selector with
  | Ok r => Nat.eqb (length r) 1
  | Throw _ => false
  end.

(** [siblings.indexOf(element)] on handles. *)
Fixpoint indexOfChild (l : list Child) (h : nat) : Z :=
  match l with
  | [] => -1
  | c :: l' =>
      if Nat.eqb (child_handle c) h then 0
      else let i := indexOfChild l' h in if i =? -1 then -1 else i + 1
  end.

Definition getNthChildPosition (element : Element) : Z :=
  match parentElement element with
  | None => 1
  | Some parent => indexOfChild (children parent) (handle element) + 1
  end.

Definition getNthOfTypePosition (element : Element) : Z :=
  match parentElement element with
  | None => 1
  | Some parent =>
      let siblings :=
        filter (fun el => child_tagName el = tagName element)
          (children parent) in
      indexOfChild siblings (handle element) + 1
  end.

Definition tryIdSelector (doc : Document) (element : Element)
    : Exc (option string) :=
  if nonempty (id element) then
    uniqueId ← isUniqueId doc element (id element);
    if uniqueId : bool
    then Ok (Some ("#" +:+ CSS_escape (id element)))
    else Ok None
  else Ok None.

Definition dquote : string := String (ascii_of_N 34) EmptyString.

Definition attributeSelector (attr value : string) : string :=
  "[" +:+ attr +:+ "=" +:+ dquote +:+ CSS_escape value +:+ dquote +:+ "]".

Fixpoint tryAttributes (doc : Document) (element : Element)
    (attrs : list string) : option string :=
  match attrs with
  | [] => None
  | attr :: attrs' =>
      match getAttribute element attr with
      | Some value =>
          if nonempty value && isUnique doc (attributeSelector attr value)
          then Some (attributeSelector attr value)
          else tryAttributes doc element attrs'
      | None => tryAttributes doc element attrs'
      end
  end.

Definition tryAttributeSelector (doc : Document) (element : Element)
    : option string :=
  tryAttributes doc element STABLE_ATTRIBUTES.

Fixpoint firstUnique (doc : Document) (candidates : list string)
    : option string :=
  match candidates with
  | [] => None
  | selector :: rest =>
      if isUnique doc selector then Some selector else firstUnique doc rest
  end.

Definition tryClassSelector (doc : Document) (element : Element)
    : option string :=
  let tagName := toLowerCase (tagName element) in
  let stableClasses := getStableClasses element in
  match firstUnique doc
          (map (fun className => tagName +:+ "." +:+ CSS_escape className)
             stableClasses) with
  | Some selector => Some selector
  | None =>
      if (2 <=? length stableClasses)%nat then
        let classSelector :=
          String.concat EmptyString
            (map (fun c => "." +:+ CSS_escape c) stableClasses) in
        let selector := tagName +:+ classSelector in
        if isUnique doc selector then Some selector else None
      else None
  end.

(** The loop of [findNearestIdAncestor], entered with [current]; [path]
    holds the elements pushed so far. *)
Fixpoint nearestIdAncestorFrom (doc : Document) (current : Element)
    (path : list Element) : Exc (option (Element * list Element)) :=
  if Nat.eqb (handle current) (body doc)
     || Nat.eqb (handle current) (documentElement doc)
  then Ok None
  else
    found ← (if nonempty (id current)
              then isUniqueId doc current (id current)
              else Ok false);
    if found : bool then Ok (Some (current, rev path))
    else
      match current with
      | mkElement _ _ _ _ _ _ (Some parent) =>
          nearestIdAncestorFrom doc parent (path ++ [current])
      | mkElement _ _ _ _ _ _ None => Ok None
      end.

Definition findNearestIdAncestor (doc : Document) (element : Element)
    : Exc (option (Element * list Element)) :=
  match parentElement element with
  | Some current => nearestIdAncestorFrom doc current []
  | None => Ok None
  end.

Definition nthOfTypeSelector (element : Element) : string :=
  toLowerCase (tagName element) +:+ ":nth-of-type("
  +:+ pretty (getNthOfTypePosition element) +:+ ")".

(** The sibling query runs on the parent outside any [try]. *)
Definition getSimpleSelector (doc : Document) (element : Element)
    : Exc string :=
  let tagName := toLowerCase (tagName element) in
  let stableClasses := getStableClasses element in
  match stableClasses, parentElement element with
  | first :: _, Some parent =>
      let selector := tagName +:+ "." +:+ CSS_escape first in
      (matchingSiblings ←
         scopedQuerySelectorAll doc (handle parent) (":scope > " +:+ selector);
       if Nat.eqb (length matchingSiblings) 1 then Ok selector
       else Ok (nthOfTypeSelector element))
  | _, _ => Ok (nthOfTypeSelector element)
  end.

Fixpoint simpleSelectors (doc : Document) (els : list Element)
    : Exc (list string) :=
  match els with
  | [] => Ok []
  | el :: els' =>
      (part ← getSimpleSelector doc el;
       parts ← simpleSelectors doc els';
       Ok (part :: parts))
  end.

Definition buildPathSelector (doc : Document) (ancestor : Element)
    (path : list Element) (target : Element) : Exc string :=
  let ancestorSelector := "#" +:+ CSS_escape (id ancestor) in
  parts ← simpleSelectors doc (path ++ [target]);
  Ok (String.concat " > " (ancestorSelector :: parts)).

(** The loop of [buildFullPathSelector], entered with [current]; [path]
    holds the parts put in front so far. *)
Fixpoint fullPathFrom (doc : Document) (current : Element)
    (path : list string) : Exc (list string) :=
  if Nat.eqb (handle current) (body doc)
     || Nat.eqb (handle current) (documentElement doc)
  then Ok path
  else
    part ← getSimpleSelector doc current;
    match current with
    | mkElement _ _ _ _ _ _ (Some parent) =>
        fullPathFrom doc parent (part :: path)
    | mkElement _ _ _ _ _ _ None => Ok (part :: path)
    end.

Definition buildFullPathSelector (doc : Document) (element : Element)
    : Exc string :=
  path ← fullPathFrom doc element [];
  Ok (String.concat " > " path).

Definition generateSelector (doc : Document) (element : Element)
    : Exc string :=
  (* 1. Try ID *)
  idSelector ← tryIdSelector doc element;
  match idSelector with
  | Some selector => Ok selector
  | None =>
      (* 2. Try stable attributes *)
      match tryAttributeSelector doc element with
      | Some attrSelector => Ok attrSelector
      | None =>
          (* 3. Try tag + classes *)
          match tryClassSelector doc element with
          | Some classSelector => Ok classSelector
          | None =>
              (* 4. Try path from nearest ID ancestor *)
              ancestorInfo ← findNearestIdAncestor doc element;
              match ancestorInfo with
              | Some (ancestor, path) =>
                  pathSelector ←
                    buildPathSelector doc ancestor path element;
                  if isUnique doc pathSelector then Ok pathSelector
                  else (* 5. Fall back to full path *)
                    buildFullPathSelector doc element
              | None => buildFullPathSelector doc element
              end
          end
      end
  end.

End SelectorGenerator.

(** ** Form fields *)

Module Field.

Inductive Interface :=
| HTMLInputElement
| HTMLTextAreaElement
| HTMLSelectElement
| OtherElement.

(** A form control as the content script reads it.  [handle] is the
    identity of the DOM object (the key of the handler's maps); the other
    fields are the properties and DOM lookups the classifier and the input
    handler read.  The current [value] of the control is page state, kept
    apart (see [InputHandler.State]). *)
Record Element := {
  handle : nat;
  interface : Interface;
  tagName : string;
  type : string;
  name : string;
  id : string;
  placeholder : string;
  autocomplete : string;
  ariaLabel : option string;      (* getAttribute('aria-label') *)
  labelFor : Exc (option string); (* textContent of the element that
                                     querySelector('label[for="<id>"]')
                                     finds; the call throws when the id
                                     does not fit between the quotes *)
  closestLabel : option string;   (* textContent of closest('label') *)
  webkitTextSecurity : string;    (* computed -webkit-text-security *)
  closestIgnore : bool;           (* is closest('[data-how-to-recorder-ignore]')
                                     an element *)
}.

Definition isInput (element : Element) : bool :=
  match interface element with HTMLInputElement => true | _ => false end.

Definition isTextArea (element : Element) : bool :=
  match interface element with HTMLTextAreaElement => true | _ => false end.

Definition isSelect (element : Element) : bool :=
  match interface element with HTMLSelectElement => true | _ => false end.

End Field.

(** ** Sensitive-field classifier (utils/sensitiveFields.ts) *)

Module SensitiveFields.
Import Dom Field.

Definition SENSITIVE_INPUT_TYPES : list string := ["password"].

Definition SENSITIVE_AUTOCOMPLETE_VALUES : list string :=
  ["current-password"; "new-password"; "cc-number"; "cc-csc"; "cc-exp";
   "cc-exp-month"; "cc-exp-year"; "cc-name"; "cc-type"].

(** A case-insensitive pattern made of literals and optional [[_-]?]
    separators, as the list of lower-case literals it matches; it is
    tested against lower-cased text. *)
Definition Pattern := list string.

Definition test (pattern : Pattern) (s : string) : bool :=
  existsb (fun literal => contains literal s) pattern.

(** [/a[_-]?b/i] *)
Definition sep (a b : string) : Pattern :=
  [a +:+ b; a +:+ "_" +:+ b; a +:+ "-" +:+ b].

Definition SENSITIVE_NAME_PATTERNS : list Pattern :=
  [ ["password"]; ["passwd"]; ["secret"]; ["token"]; sep "api" "key";
    ["ssn"]; sep "social" "security"; ["cvv"]; ["cvc"];
    sep "card" "number"; sep "credit" "card"; sep "cc" "num";
    sep "account" "number"; sep "routing" "number"; ["pin"];
    sep "security" "code"; ["otp"]; sep "two" "factor"; ["2fa"];
    sep "auth" "code"; sep "verification" "code" ].

Definition SENSITIVE_PLACEHOLDER_PATTERNS : list Pattern :=
  [ ["password"]; ["secret"]; ["ssn"]; ["social security"]; ["credit card"];
    ["card number"]; ["cvv"]; ["cvc"]; ["security code"];
    ["verification code"] ].

Definition includes_string (l : list string) (s : string) : bool :=
  existsb (String.eqb s) l.

Definition isPasswordType (element : Element) : bool :=
  includes_string SENSITIVE_INPUT_TYPES (toLowerCase (type element)).

Definition hasSensitiveAutocomplete (element : Element) : bool :=
  let autocomplete := toLowerCase (autocomplete element) in
  existsb (fun value => String.eqb autocomplete value
                        || contains value autocomplete)
    SENSITIVE_AUTOCOMPLETE_VALUES.

Definition hasSensitiveNameOrId (element : Element) : bool :=
  let name := toLowerCase (name element) in
  let id := toLowerCase (id element) in
  existsb (fun pattern => test pattern name || test pattern id)
    SENSITIVE_NAME_PATTERNS.

Definition hasSensitivePlaceholder (element : Element) : bool :=
  let placeholder := toLowerCase (placeholder element) in
  existsb (fun pattern => test pattern placeholder)
    SENSITIVE_PLACEHOLDER_PATTERNS.

Definition sensitiveText (s : option string) : bool :=
  let labelText := toLowerCase (str_or s EmptyString) in
  existsb (fun pattern => test pattern labelText)
    SENSITIVE_PLACEHOLDER_PATTERNS.

(** The lookup of the explicit label is made only for an element with an
    id, and throws what [document.querySelector] throws. *)
Definition hasSensitiveLabel (element : Element) : Exc bool :=
  explicit ←
    (if nonempty (id element)
     then label ← labelFor element;
          Ok (bool_decide (is_Some label) && sensitiveText label)
     else Ok false);
  if explicit : bool then Ok true
  else if bool_decide (is_Some (closestLabel element))
          && sensitiveText (closestLabel element)
  then Ok true
  else Ok (sensitiveText (ariaLabel element)).

Definition hasTextMaskingStyle (element : Element) : bool :=
  includes_string ["disc"; "circle"; "square"] (webkitTextSecurity element).

Definition isSensitiveField (element : Element) : Exc bool :=
  if negb (isInput element) && negb (isTextArea element) then Ok false
  else if isInput element && isPasswordType element then Ok true
  else if hasSensitiveAutocomplete element then Ok true
  else if hasSensitiveNameOrId element then Ok true
  else if hasSensitivePlaceholder element then Ok true
  else
    labelled ← hasSensitiveLabel element;
    if labelled : bool then Ok true
    else if isInput element && hasTextMaskingStyle element then Ok true
    else Ok false.

Definition maskValue (value : string) : string := "********".

(** [elementValue] is [element.value] at the time of the call. *)
Definition getRecordableValue (element : Element) (elementValue : string)
    : Exc (string * bool) :=
  sensitive ← isSensitiveField element;
  Ok (if sensitive : bool then maskValue elementValue else elementValue, sensitive).

(** The description of why a field counts as sensitive; [null] is
    [None]. *)
Definition getSensitiveReason (element : Element) : Exc (option string) :=
  if negb (isInput element) && negb (isTextArea element) then Ok None
  else if isInput element && isPasswordType element
  then Ok (Some "password input type")
  else if hasSensitiveAutocomplete element
  then Ok (Some ("sensitive autocomplete: " +:+ autocomplete element))
  else if hasSensitiveNameOrId element
  then Ok (Some ("sensitive name/id: "
                 +:+ str_or (Some (name element)) (id element)))
  else if hasSensitivePlaceholder element
  then Ok (Some ("sensitive placeholder: " +:+ placeholder element))
  else
    labelled ← hasSensitiveLabel element;
    if labelled : bool then Ok (Some "sensitive label")
    else if isInput element && hasTextMaskingStyle element
    then Ok (Some "text masking CSS")
    else Ok None.

End SensitiveFields.

(** ** Input handler (contentScript/inputHandler.ts) *)

Module InputHandler.
Import Field SensitiveFields.

Definition INPUT_DEBOUNCE_MS : Z := 1000.

(** A callback scheduled with [setTimeout] and not yet run or cleared: the
    debounce callback for [target], due at time [due]. *)
Record Timer := {
  timer_id : nat;
  due : Z;
  target : Element;
}.

(** The module-level variables of the handler, and the part of the page
    they interact with: the browser's timer queue, the current value of
    each control, and the messages handed to [inputCallback] so far.
    [debounceTimers] is a [Map] in insertion order. *)
Record State := {
  recordingStartTime : option Z;
  inputCallback : bool;
  debounceTimers : list (Element * nat);
  lastRecordedValues : gmap nat string;
  timers : list Timer;
  nextTimerId : nat;
  values : gmap nat string;
  sent : list InputEventMessage;
}.

Definition valueOf (st : State) (element : Element) : string :=
  default EmptyString (values st !! handle element).

(** *** [Map] and timer primitives *)

Fixpoint map_get (m : list (Element * nat)) (element : Element)
    : option nat :=
  match m with
  | [] => None
  | (k, v) :: m' =>
      if Nat.eqb (handle k) (handle element) then Some v
      else map_get m' element
  end.

Fixpoint map_set (m : list (Element * nat)) (element : Element) (v : nat)
    : list (Element * nat) :=
  match m with
  | [] => [(element, v)]
  | (k, w) :: m' =>
      if Nat.eqb (handle k) (handle element) then (k, v) :: m'
      else (k, w) :: map_set m' element v
  end.

Definition map_delete (m : list (Element * nat)) (element : Element)
    : list (Element * nat) :=
  filter (fun kv => handle (fst kv) <> handle element) m.

Definition clearTimeout (timer : nat) (queue : list Timer) : list Timer :=
  filter (fun t => timer_id t <> timer) queue.

Definition with_timers (st : State) (m : list (Element * nat))
    (queue : list Timer) (next : nat) : State :=
  {| recordingStartTime := recordingStartTime st;
     inputCallback := inputCallback st;
     debounceTimers := m;
     lastRecordedValues := lastRecordedValues st;
     timers := queue;
     nextTimerId := next;
     values := values st;
     sent := sent st |}.

(** The value and the sensitivity flag that [recordInputChange] reads off
    the element: a select is taken as it is, the rest goes through the
    classifier, whose label lookup may throw. *)
Definition currentValue (element : Element) (st : State)
    : Exc (string * bool) :=
  if isSelect element then Ok (valueOf st element, false)
  else getRecordableValue element (valueOf st element).

Definition with_lastRecordedValues (st : State) (recorded : gmap nat string)
    : State :=
  {| recordingStartTime := recordingStartTime st;
     inputCallback := inputCallback st;
     debounceTimers := debounceTimers st;
     lastRecordedValues := recorded;
     timers := timers st;
     nextTimerId := nextTimerId st;
     values := values st;
     sent := sent st |}.

(** [recordInputChange]; [now] is [Date.now()] during the call.  What the
    page supplies besides the event: the element description
    ([getElementInfo], which runs the selector generator and the label
    lookup on the element, reads neither its value nor the handler's
    variables, and throws what they throw) and [window.location.href].

    An exception leaves the function where it is raised: in the
    classifier, before anything is written, or in [getElementInfo], after
    [lastRecordedValues.set] and before the message is built and handed to
    the callback.  The first component tells whether the call returned. *)
Definition recordInputChangeThrowing
    (getElementInfo : Element -> Exc ElementInfo) (href : string)
    (now : Z) (element : Element) (st : State) : Exc unit * State :=
  match recordingStartTime st, inputCallback st with
  | Some start, true =>
      match currentValue element st with
      | Throw e => (Throw e, st)
      | Ok (value, isSensitive) =>
          let lastValue := lastRecordedValues st !! handle element in
          if bool_decide (lastValue = Some value) then (Ok tt, st)
          else
            let recorded :=
              <[ handle element := value ]> (lastRecordedValues st) in
            match getElementInfo element with
            | Throw e => (Throw e, with_lastRecordedValues st recorded)
            | Ok elementInfo =>
                let message :=
                  {| ie_element := elementInfo;
                     ie_value := value;
                     ie_isSensitive := isSensitive;
                     ie_url := href;
                     ie_timestamp := now - start |} in
                (Ok tt,
                 {| recordingStartTime := recordingStartTime st;
                    inputCallback := inputCallback st;
                    debounceTimers := debounceTimers st;
                    lastRecordedValues := recorded;
                    timers := timers st;
                    nextTimerId := nextTimerId st;
                    values := values st;
                    sent := sent st ++ [message] |})
            end
      end
  | _, _ => (Ok tt, st)
  end.

Section Handler.

Variable getElementInfo : Element -> Exc ElementInfo.
Variable href : string.

(** The handler after a call of [recordInputChange], whether the call
    returned or threw: the event listeners and timer callbacks that call it
    last run as tasks of their own, where an exception ends the task and
    nothing else. *)
Definition recordInputChange (now : Z) (element : Element) (st : State)
    : State :=
  snd (recordInputChangeThrowing getElementInfo href now element st).

Definition skippedInputType (element : Element) : bool :=
  isInput element
  && includes_string ["hidden"; "submit"; "button"; "reset"; "image"]
       (Dom.toLowerCase (type element)).

Definition recordedImmediately (element : Element) : bool :=
  isSelect element
  || (isInput element
      && includes_string ["checkbox"; "radio"]
           (Dom.toLowerCase (type element))).

(** Listener of [input] and [change] events. *)
Definition handleInputEvent (now : Z) (target : Element) (st : State)
    : State :=
  match recordingStartTime st with
  | None => st
  | Some _ =>
      if negb (isInput target) && negb (isTextArea target)
         && negb (isSelect target) then st
      else if closestIgnore target then st
      else if skippedInputType target then st
      else
        let queue :=
          match map_get (debounceTimers st) target with
          | Some existingTimer => clearTimeout existingTimer (timers st)
          | None => timers st
          end in
        let st1 := with_timers st (debounceTimers st) queue (nextTimerId st) in
        if recordedImmediately target then recordInputChange now target st1
        else
          let timer := nextTimerId st1 in
          with_timers st1
            (map_set (debounceTimers st1) target timer)
            (timers st1
             ++ [{| timer_id := timer; due := now + INPUT_DEBOUNCE_MS;
                    target := target |}])
            (S timer)
  end.

(** The callback given to [setTimeout] in [handleInputEvent]: when
    [recordInputChange] throws, the entry of [target] stays in the map. *)
Definition debounceCallback (now : Z) (target : Element) (st : State)
    : State :=
  match recordInputChangeThrowing getElementInfo href now target st with
  | (Ok _, st1) =>
      with_timers st1 (map_delete (debounceTimers st1) target) (timers st1)
        (nextTimerId st1)
  | (Throw _, st1) => st1
  end.

(** Listener of [blur] events. *)
Definition handleBlurEvent (now : Z) (target : Element) (st : State)
    : State :=
  match recordingStartTime st with
  | None => st
  | Some _ =>
      if negb (isInput target) && negb (isTextArea target) then st
      else
        let st1 :=
          match map_get (debounceTimers st) target with
          | Some existingTimer =>
              with_timers st (map_delete (debounceTimers st) target)
                (clearTimeout existingTimer (timers st)) (nextTimerId st)
          | None => st
          end in
        recordInputChange now target st1
  end.

Definition startInputTracking (startTime : Z) (st : State) : State :=
  {| recordingStartTime := Some startTime;
     inputCallback := true;
     debounceTimers := [];
     lastRecordedValues := ∅;
     timers := timers st;
     nextTimerId := nextTimerId st;
     values := values st;
     sent := sent st |}.

Definition stopInputTracking (st : State) : State :=
  {| recordingStartTime := None;
     inputCallback := false;
     debounceTimers := [];
     lastRecordedValues := ∅;
     timers :=
       fold_left (fun queue kv => clearTimeout (snd kv) queue)
         (debounceTimers st) (timers st);
     nextTimerId := nextTimerId st;
     values := values st;
     sent := sent st |}.

(** The loop of [flushPendingInputs] over the entries of the map: the
    first exception leaves the loop, with the entries after it neither
    cleared nor recorded. *)
Fixpoint flushEntries (now : Z) (entries : list (Element * nat))
    (st : State) : Exc unit * State :=
  match entries with
  | [] => (Ok tt, st)
  | (element, timer) :: entries' =>
      let st1 :=
        with_timers st (debounceTimers st) (clearTimeout timer (timers st))
          (nextTimerId st) in
      if isInput element || isTextArea element
      then
        match recordInputChangeThrowing getElementInfo href now element st1
        with
        | (Ok _, st2) => flushEntries now entries' st2
        | (Throw e, st2) => (Throw e, st2)
        end
      else flushEntries now entries' st1
  end.

(** [debounceTimers.clear()] is reached only when the loop returns. *)
Definition flushPendingInputsThrowing (now : Z) (st : State)
    : Exc unit * State :=
  match flushEntries now (debounceTimers st) st with
  | (Ok _, st1) => (Ok tt, with_timers st1 [] (timers st1) (nextTimerId st1))
  | (Throw e, st1) => (Throw e, st1)
  end.

(** The handler after a call of [flushPendingInputs], whether it returned
    or threw. *)
Definition flushPendingInputs (now : Z) (st : State) : State :=
  snd (flushPendingInputsThrowing now st).

Definition isInputTrackingActive (st : State) : bool :=
  bool_decide (is_Some (recordingStartTime st)).

(** *** The page around the handler *)

(** The timers that are due at time [t] run, oldest first, each at its due
    time; the debounce callback schedules and clears no timer. *)
Definition fireDue (t : Z) (st : State) : State :=
  let dueNow := filter (fun tm => due tm <= t) (timers st) in
  let later := filter (fun tm => ~ due tm <= t) (timers st) in
  fold_left (fun s tm => debounceCallback (due tm) (target tm) s) dueNow
    (with_timers st (debounceTimers st) later (nextTimerId st)).

Inductive PageEvent :=
| Typed (target : Element) (value : string)  (* the user edits the control:
                                                its value changes and an
                                                [input] event is dispatched *)
| Changed (target : Element)                 (* a [change] event *)
| Blurred (target : Element).                (* a [blur] event *)

Definition setValue (element : Element) (value : string) (st : State)
    : State :=
  {| recordingStartTime := recordingStartTime st;
     inputCallback := inputCallback st;
     debounceTimers := debounceTimers st;
     lastRecordedValues := lastRecordedValues st;
     timers := timers st;
     nextTimerId := nextTimerId st;
     values := <[ handle element := value ]> (values st);
     sent := sent st |}.

Definition dispatch (now : Z) (ev : PageEvent) (st : State) : State :=
  match ev with
  | Typed target value => handleInputEvent now target (setValue target value st)
  | Changed target => handleInputEvent now target st
  | Blurred target => handleBlurEvent now target st
  end.

(** A timed run of the page: before each event the timers due by then
    run. *)
Fixpoint runPage (evs : list (Z * PageEvent)) (st : State) : State :=
  match evs with
  | [] => st
  | (t, ev) :: evs' => runPage evs' (dispatch t ev (fireDue t st))
  end.

End Handler.

(** The handler when the content script is loaded. *)
Definition initial : State :=
  {| recordingStartTime := None;
     inputCallback := false;
     debounceTimers := [];
     lastRecordedValues := ∅;
     timers := [];
     nextTimerId := 1;
     values := ∅;
     sent := [] |}.

End InputHandler.

(** ** Click handler (contentScript/clickHandler.ts) *)

Module ClickHandler.
Import Dom.

Definition role (value : string) : string :=
  "[role=" +:+ SelectorGenerator.dquote +:+ value
  +:+ SelectorGenerator.dquote +:+ "]".

Definition INTERACTIVE_ELEMENTS : list string :=
  [ "a"; "button"; "input"; "select"; "textarea";
    role "button"; role "link"; role "checkbox"; role "radio"; role "tab";
    role "menuitem"; role "option"; "[onclick]"; "[tabindex]" ].

Definition CLICKABLE_INPUT_TYPES : list string :=
  ["submit"; "button"; "reset"; "checkbox"; "radio"; "file"; "image"].

(** What the browser answers about an element: [element.matches(selector)],
    [element instanceof HTMLInputElement] and, for an input, its [type]
    property. *)
Record Engine := {
  matches : Element -> string -> bool;
  isHTMLInputElement : Element -> bool;
  inputType : Element -> string;
}.

(** [element.closest(selectors)]: the element itself or the nearest of its
    ancestors that matches. *)
Fixpoint closest (engine : Engine) (selectors : string) (element : Element)
    : option Element :=
  if matches engine element selectors then Some element
  else
    match element with
    | mkElement _ _ _ _ _ _ (Some parent) => closest engine selectors parent
    | mkElement _ _ _ _ _ _ None => None
    end.

(** The loop returns at the first selector that matches, with a result
    that does not depend on which one it is. *)
Definition isInteractiveElement (engine : Engine) (element : Element)
    : bool :=
  if existsb (matches engine element) INTERACTIVE_ELEMENTS then
    if isHTMLInputElement engine element
    then SensitiveFields.includes_string CLICKABLE_INPUT_TYPES
           (toLowerCase (inputType engine element))
    else true
  else
    match closest engine ("a, button, " +:+ role "button") element with
    | Some _ => true
    | None => false
    end.

Definition findInteractiveElement (engine : Engine) (target : Element)
    : option Element :=
  if isInteractiveElement engine target then
    if isHTMLInputElement engine target then Some target
    else
      match closest engine
              ("a, button, " +:+ role "button" +:+ ", " +:+ role "link")
              target with
      | Some interactive => Some interactive
      | None => Some target
      end
  else closest engine (String.concat ", " INTERACTIVE_ELEMENTS) target.

(** The module-level variables of the handler, and the messages handed to
    [clickCallback] so far. *)
Record State := {
  recordingStartTime : option Z;
  clickCallback : bool;
  sent : list ClickEventMessage;
}.

Section Handler.

(** The browser, the element description ([getElementInfo], which runs the
    selector generator and the text lookup on the element, and throws what
    the selector generator throws) and [window.location.href]. *)
Variable engine : Engine.
Variable getElementInfo : Element -> Exc ElementInfo.
Variable href : string.

(** Listener of [click] events; [now] is [Date.now()] during the call.
    The first component tells whether the listener returned: an exception
    of [getElementInfo] leaves it before the message is built. *)
Definition handleClickThrowing (now : Z) (target : Element) (st : State)
    : Exc unit * State :=
  match recordingStartTime st, clickCallback st with
  | Some start, true =>
      match findInteractiveElement engine target with
      | None => (Ok tt, st)
      | Some interactiveElement =>
          match closest engine "[data-how-to-recorder-ignore]"
                  interactiveElement with
          | Some _ => (Ok tt, st)
          | None =>
              match getElementInfo interactiveElement with
              | Throw e => (Throw e, st)
              | Ok elementInfo =>
                  let message :=
                    {| ce_element := elementInfo;
                       ce_url := href;
                       ce_timestamp := now - start |} in
                  (Ok tt,
                   {| recordingStartTime := recordingStartTime st;
                      clickCallback := clickCallback st;
                      sent := sent st ++ [message] |})
              end
          end
      end
  | _, _ => (Ok tt, st)
  end.

(** The handler after the listener ran, whether it returned or threw. *)
Definition handleClick (now : Z) (target : Element) (st : State) : State :=
  snd (handleClickThrowing now target st).

End Handler.

Definition startClickTracking (startTime : Z) (st : State) : State :=
  {| recordingStartTime := Some startTime;
     clickCallback := true;
     sent := sent st |}.

Definition stopClickTracking (st : State) : State :=
  {| recordingStartTime := None;
     clickCallback := false;
     sent := sent st |}.

Definition isClickTrackingActive (st : State) : bool :=
  bool_decide (is_Some (recordingStartTime st)).

End ClickHandler.

(** ** Content script entry point (contentScript/index.ts) *)

Module ContentScript.

(** The script's own variables and the input handler it drives.  Click
    tracking and the highlighter keep state of their own that the input
    handler never reads. *)
Record State := {
  isRecording : bool;
  recordingStartTime : option Z;
  inputHandler : InputHandler.State;
}.

Section Script.

Variable getElementInfo : Field.Element -> Exc ElementInfo.
Variable href : string.

(** [startTime] is the optional [startTime] of [ENABLE_RECORDING]. *)
Definition startRecording (now : Z) (startTime : option Z) (st : State)
    : State :=
  if isRecording st then st
  else
    let start := match truthy_num startTime with
                 | Some t => t
                 | None => now
                 end in
    {| isRecording := true;
       recordingStartTime := Some start;
       inputHandler :=
         InputHandler.startInputTracking start (inputHandler st) |}.

Definition with_inputHandler (st : State) (h : InputHandler.State) : State :=
  {| isRecording := isRecording st;
     recordingStartTime := recordingStartTime st;
     inputHandler := h |}.

(** An exception of [flushPendingInputs] leaves [stopRecording] before
    tracking is stopped and before [isRecording] is reset. *)
Definition stopRecordingThrowing (now : Z) (st : State) : Exc unit * State :=
  if negb (isRecording st) then (Ok tt, st)
  else
    match InputHandler.flushPendingInputsThrowing getElementInfo href now
            (inputHandler st) with
    | (Throw e, h) => (Throw e, with_inputHandler st h)
    | (Ok _, flushed) =>
        (Ok tt,
         {| isRecording := false;
            recordingStartTime := None;
            inputHandler := InputHandler.stopInputTracking flushed |})
    end.

(** The script after a call of [stopRecording], whether it returned or
    threw. *)
Definition stopRecording (now : Z) (st : State) : State :=
  snd (stopRecordingThrowing now st).

(** The listeners of [beforeunload] and of [visibilitychange] (when the
    document is hidden): pending inputs are flushed while recording. *)
Definition flushIfRecording (now : Z) (st : State) : State :=
  if isRecording st
  then with_inputHandler st
         (InputHandler.flushPendingInputs getElementInfo href now
            (inputHandler st))
  else st.

(** What reaches the script and touches the input handler: the two
    messages of [handleMessage] that change the recording state, the two
    page events the script listens to itself, and the events of the
    controls.  The listeners of the input handler are attached exactly
    while its [recordingStartTime] is set, which is what the listeners
    themselves test first. *)
Inductive Event :=
| EnableRecording (startTime : option Z)
| DisableRecording
| BeforeUnload
| VisibilityChange (hidden : bool)
| Page (ev : InputHandler.PageEvent).

Definition handle (now : Z) (ev : Event) (st : State) : State :=
  match ev with
  | EnableRecording startTime => startRecording now startTime st
  | DisableRecording => stopRecording now st
  | BeforeUnload => flushIfRecording now st
  | VisibilityChange hidden =>
      if hidden then flushIfRecording now st else st
  | Page ev =>
      with_inputHandler st
        (InputHandler.dispatch getElementInfo href now ev (inputHandler st))
  end.

(** A timed run of the script: before each event the debounce timers due
    by then run. *)
Fixpoint run (evs : list (Z * Event)) (st : State) : State :=
  match evs with
  | [] => st
  | (t, ev) :: evs' =>
      run evs'
        (handle t ev
           (with_inputHandler st
              (InputHandler.fireDue getElementInfo href t (inputHandler st))))
  end.

End Script.

(** The script when the page has loaded it. *)
Definition initial : State :=
  {| isRecording := false;
     recordingStartTime := None;
     inputHandler := InputHandler.initial |}.

End ContentScript.

(** * Vocabulary of the statements *)

Section OrchestratorVocabulary.
Import Background.

(** The id of the tab that [chrome.tabs.query] reports as active, when
    there is one the worker accepts. *)
Definition active_tab_id (b : Browser) : option Z :=
  match head (tabs_query_active b) with
  | Some tab => truthy_num (tab_id tab)
  | None => None
  end.

Definition is_start (ev : Event) : bool :=
  match ev with
  | Message (START_RECORDING _ _) _ => true
  | _ => false
  end.

(** A finalized session: inactive, with an end time. *)
Definition finalized (st : State) (recorded : list RecordingStep) : Prop :=
  exists s, currentSession st = Some s
            /\ isRecording s = false
            /\ is_Some (endTime s)
            /\ steps s = recorded.

Definition interaction_record (message : RecordingMessage) : bool :=
  match message with
  | CLICK_EVENT _ | INPUT_EVENT _ => true
  | _ => false
  end.

Definition session_tracked (st : State) : list Z :=
  match currentSession st with
  | Some s => trackedTabIds s
  | None => []
  end.

End OrchestratorVocabulary.

Section InputVocabulary.
Import Field SensitiveFields InputHandler.

Variable getElementInfo : Element -> Exc ElementInfo.
Variable href : string.

Definition tracking (st : State) (start : Z) : Prop :=
  InputHandler.recordingStartTime st = Some start /\ inputCallback st = true.

(** What a commit of [element] sends at time [now] from state [st]: one
    message, when the element is classified, its value is not the one last
    recorded for it, and it is described; nothing otherwise. *)
Definition commitMessages (start now : Z) (st : State) (element : Element)
    : list InputEventMessage :=
  match currentValue element st with
  | Throw _ => []
  | Ok (value, isSensitive) =>
      if bool_decide (lastRecordedValues st !! handle element = Some value)
      then []
      else
        match getElementInfo element with
        | Throw _ => []
        | Ok info =>
            [{| ie_element := info;
                ie_value := value;
                ie_isSensitive := isSensitive;
                ie_url := href;
                ie_timestamp := now - start |}]
        end
  end.

(** The values last recorded once [element] has been committed from state
    [st]: its value is written down as soon as it is classified, whether
    or not the element is described afterwards. *)
Definition commitRecorded (st : State) (element : Element)
    : gmap nat string :=
  match currentValue element st with
  | Throw _ => lastRecordedValues st
  | Ok (value, _) => <[ handle element := value ]> (lastRecordedValues st)
  end.

(** Whether the commit returns: the exception it throws, when the value
    is new, is that of the classifier or of the description. *)
Definition commitOutcome (st : State) (element : Element) : Exc unit :=
  match currentValue element st with
  | Throw e => Throw e
  | Ok (value, _) =>
      if bool_decide (lastRecordedValues st !! handle element = Some value)
      then Ok tt
      else
        match getElementInfo element with
        | Throw e => Throw e
        | Ok _ => Ok tt
        end
  end.

(** What flushing one pending entry sends, read off the state [st] in
    which the flush starts. *)
Definition flushMessages (start now : Z) (st : State)
    (entry : Element * nat) : list InputEventMessage :=
  commitMessages start now st (fst entry).

(** The entries that the loop of [flushPendingInputs] reaches when it
    starts in state [st]: every entry up to the first one whose commit
    throws, that one included. *)
Fixpoint flushVisited (st : State) (entries : list (Element * nat))
    : list (Element * nat) :=
  match entries with
  | [] => []
  | entry :: entries' =>
      match commitOutcome st (fst entry) with
      | Ok _ => entry :: flushVisited st entries'
      | Throw _ => [entry]
      end
  end.

(** Whether the loop returns. *)
Fixpoint flushOutcome (st : State) (entries : list (Element * nat))
    : Exc unit :=
  match entries with
  | [] => Ok tt
  | entry :: entries' =>
      match commitOutcome st (fst entry) with
      | Ok _ => flushOutcome st entries'
      | Throw e => Throw e
      end
  end.

(** The [Map] holds one entry per element, and only text inputs and
    textareas, which is all [handleInputEvent] ever puts in it. *)
Definition pending_wf (m : list (Element * nat)) : Prop :=
  NoDup (map (fun kv => handle (fst kv)) m)
  /\ Forall (fun kv => isInput (fst kv) || isTextArea (fst kv) = true) m.

(** A text field: a control whose [input] events [handleInputEvent]
    debounces. *)
Definition debounced (element : Element) : bool :=
  (isInput element || isTextArea element)
  && negb (closestIgnore element)
  && negb (skippedInputType element)
  && negb (recordedImmediately element).

(** The [input] events of a burst on [element]: the successive values with
    their times. *)
Definition burstEvents (element : Element) (burst : list (Z * string))
    : list (Z * PageEvent) :=
  map (fun tv => (fst tv, Typed element (snd tv))) burst.

(** Each event follows the previous one (at [t0] for the first) by less
    than the debounce delay. *)
Fixpoint rapid (t0 : Z) (burst : list (Z * string)) : Prop :=
  match burst with
  | [] => True
  | (t, _) :: rest => t0 <= t < t0 + INPUT_DEBOUNCE_MS /\ rapid t rest
  end.

(** Time passes with no event: at each of the [times] the timers due by
    then run. *)
Definition elapse (times : list Z) (st : State) : State :=
  fold_left (fun s t => fireDue getElementInfo href t s) times st.

End InputVocabulary.

Section SelectorVocabulary.
Import Dom SelectorGenerator.

(** Tiers 4 and 5 of [generateSelector]. *)
Definition pathSelectorOrFullPath (doc : Document) (element : Element)
    : Exc string :=
  ancestorInfo ← findNearestIdAncestor doc element;
  match ancestorInfo with
  | Some (ancestor, path) =>
      (pathSelector ← buildPathSelector doc ancestor path element;
       if isUnique doc pathSelector then Ok pathSelector
       else buildFullPathSelector doc element)
  | None => buildFullPathSelector doc element
  end.

(** Tiers 2 to 5: what [generateSelector] goes on to compute once the id
    tier has yielded nothing. *)
Definition afterIdSelector (doc : Document) (element : Element)
    : Exc string :=
  match tryAttributeSelector doc element with
  | Some attrSelector => Ok attrSelector
  | None =>
      match tryClassSelector doc element with
      | Some classSelector => Ok classSelector
      | None => pathSelectorOrFullPath doc element
      end
  end.

(** Every [>] of the string comes right after a backslash;
    [after_backslash] tells whether the string itself does. *)
Fixpoint gt_escaped (after_backslash : bool) (s : string) : bool :=
  match s with
  | EmptyString => true
  | String c s' =>
      (negb (Ascii.eqb c ">") || after_backslash)
      && gt_escaped (Ascii.eqb c "\") s'
  end.

(** Induction along the chain of ancestors. *)
Fixpoint Element_ancestors_ind (P : Element -> Prop)
    (Hroot : forall h t i a c ch, P (mkElement h t i a c ch None))
    (Hchild : forall h t i a c ch parent,
        P parent -> P (mkElement h t i a c ch (Some parent)))
    (element : Element) : P element :=
  match element with
  | mkElement h t i a c ch None => Hroot h t i a c ch
  | mkElement h t i a c ch (Some parent) =>
      Hchild h t i a c ch parent
        (Element_ancestors_ind P Hroot Hchild parent)
  end.

End SelectorVocabulary.

(** ** Vocabulary of the further statements *)

Section OrchestratorInvariants.
Import Background.

(** The worker as the browser loads it: no session, no ready tab. *)
Definition startup : State :=
  {| currentSession := None; readyTabs := ∅ |}.

(** [s'] is the session [s] some events later: the same recording, with
    the steps of [s] still at the front of its list. *)
Definition extends (s s' : RecordingSession) : Prop :=
  id s' = id s
  /\ title s' = title s
  /\ startTime s' = startTime s
  /\ hasAudio s' = hasAudio s
  /\ exists new, steps s' = steps s ++ new.

(** The step that [startRecording] pushes. *)
Definition initial_navigation (step : RecordingStep) : Prop :=
  type step = navigation /\ timestamp step = 0 /\ element step = None.

(** What every session of the worker satisfies. *)
Definition well_formed (s : RecordingSession) : Prop :=
  (isRecording s = true -> endTime s = None /\ trackedTabIds s <> [])
  /\ (isRecording s = false -> is_Some (endTime s)).

Definition coherent (st : State) : Prop :=
  forall s, currentSession st = Some s -> well_formed s.

(** [tabs.onUpdated] reports a finished navigation of a tracked tab. *)
Definition navigation_recorded (s : RecordingSession) (tid : Z)
    (complete : bool) (tab : Tab) : bool :=
  isRecording s && includes (trackedTabIds s) tid && complete
  && bool_decide (is_Some (truthy_str (tab_url tab))).

End OrchestratorInvariants.

Section AncestorVocabulary.
Import Dom SelectorGenerator.

(** The element is [document.body] or [document.documentElement]: where
    the two loops over ancestors stop. *)
Definition is_root (doc : Document) (element : Element) : bool :=
  Nat.eqb (handle element) (body doc)
  || Nat.eqb (handle element) (documentElement doc).

(** [current.id && isUniqueId(current, current.id)] *)
Definition has_unique_id (doc : Document) (element : Element) : Exc bool :=
  if nonempty (id element) then isUniqueId doc element (id element)
  else Ok false.

(** [current] and its ancestors, nearest first, up to and without the
    first of them that is the body or the root element. *)
Fixpoint inner_from (doc : Document) (current : Element) : list Element :=
  if is_root doc current then []
  else
    current ::
    match current with
    | mkElement _ _ _ _ _ _ (Some parent) => inner_from doc parent
    | mkElement _ _ _ _ _ _ None => []
    end.

(** The ancestors of [element] below the body, nearest first. *)
Definition inner_ancestors (doc : Document) (element : Element)
    : list Element :=
  match parentElement element with
  | Some parent => inner_from doc parent
  | None => []
  end.

End AncestorVocabulary.

Section ScriptVocabulary.
Import Field InputHandler.

(** Every timer of the queue is the one that the debounce map holds for
    its target; timer ids are distinct and older than the next one. *)
Definition timers_registered (st : State) : Prop :=
  Forall (fun tm =>
            map_get (debounceTimers st) (target tm) = Some (timer_id tm))
    (timers st)
  /\ NoDup (timer_id <$> timers st)
  /\ Forall (fun tm => (timer_id tm < nextTimerId st)%nat) (timers st).

(** The handler holds nothing: not tracking, no pending entry, no timer,
    no recorded value. *)
Definition handler_idle (st : State) : Prop :=
  InputHandler.recordingStartTime st = None
  /\ inputCallback st = false
  /\ debounceTimers st = []
  /\ lastRecordedValues st = ∅
  /\ timers st = [].

(** The script and its input handler agree. *)
Definition in_sync (cs : ContentScript.State) : Prop :=
  if ContentScript.isRecording cs
  then exists start,
         ContentScript.recordingStartTime cs = Some start
         /\ tracking (ContentScript.inputHandler cs) start
         /\ pending_wf (debounceTimers (ContentScript.inputHandler cs))
         /\ timers_registered (ContentScript.inputHandler cs)
  else ContentScript.recordingStartTime cs = None
       /\ handler_idle (ContentScript.inputHandler cs).

End ScriptVocabulary.

Section TimerVocabulary.
Import Field InputHandler.

(** The timer ids held by the debounce map are distinct and older than
    the next id. *)
Definition ids_distinct (st : State) : Prop :=
  NoDup (snd <$> debounceTimers st)
  /\ Forall (fun kv => (snd kv < nextTimerId st)%nat) (debounceTimers st).

(** The control an event is dispatched on. *)
Definition event_target (ev : PageEvent) : Element :=
  match ev with
  | Typed element _ | Changed element | Blurred element => element
  end.

End TimerVocabulary.

Section BurstVocabulary.
Import Field InputHandler.

(** The handler once the timer that the debounce map holds for [element]
    is cleared, which is the first thing an [input] event on [element]
    does: what is pending then belongs to the other controls. *)
Definition cancelPending (element : Element) (st : State) : State :=
  with_timers st (debounceTimers st)
    (match map_get (debounceTimers st) element with
     | Some existingTimer => clearTimeout existingTimer (timers st)
     | None => timers st
     end)
    (nextTimerId st).

(** Two handlers that differ at most in what concerns [element] (its
    value and its entry in the debounce map) and in the browser's timer
    queue and counter. *)
Definition agree_off (element : Element) (sA sB : State) : Prop :=
  InputHandler.recordingStartTime sB = InputHandler.recordingStartTime sA
  /\ inputCallback sB = inputCallback sA
  /\ lastRecordedValues sB = lastRecordedValues sA
  /\ sent sB = sent sA
  /\ (forall e', handle e' <> handle element ->
        values sB !! handle e' = values sA !! handle e')
  /\ (forall e', handle e' <> handle element ->
        map_get (debounceTimers sB) e' = map_get (debounceTimers sA) e').

(** The handler [sB] in the middle of a burst on [element], next to the
    handler [sA] that no event has reached since the burst began: the last
    event came at [t] and left value [v]; since the burst began nothing
    has been sent or recorded that [sA] has not; the timer [k] is pending
    for [element], due a full delay after [t], behind the timers of the
    other controls. *)
Definition midBurst (element : Element) (start : Z) (sA sB : State)
    (t : Z) (v : string) (k : nat) : Prop :=
  agree_off element sA sB
  /\ tracking sB start
  /\ values sB !! handle element = Some v
  /\ map_get (debounceTimers sB) element = Some k
  /\ timers sB
     = timers sA
       ++ [{| timer_id := k; due := t + INPUT_DEBOUNCE_MS;
              target := element |}]
  /\ Forall (fun tm => handle (target tm) <> handle element) (timers sA)
  /\ timers_registered sB.

End BurstVocabulary.

(** ** Worked examples *)

Module Examples.

(** *** Orchestrator *)

Definition exampleTab (tid : Z) : Background.Tab :=
  {| Background.tab_id := Some tid;
     Background.tab_windowId := Some 1;
     Background.tab_title := Some "Example";
     Background.tab_url := Some "https://example.com/";
     Background.tab_openerTabId := None |}.

(** Tab 7 is active; every browser call answers. *)
Definition exampleBrowser : Background.Browser :=
  {| Background.Date_now := 5000;
     Background.unique := "5000_k3j9x0a1b";
     Background.tabs_query_active := [exampleTab 7];
     Background.tabs_get := fun tid => Some (exampleTab tid);
     Background.captureVisibleTab :=
       fun _ => Some "data:image/png;base64,iVBOR";
     Background.storage_ok := true |}.

(** No tab is active. *)
Definition noTabBrowser : Background.Browser :=
  {| Background.Date_now := 5000;
     Background.unique := "5000_k3j9x0a1b";
     Background.tabs_query_active := [];
     Background.tabs_get := fun tid => None;
     Background.captureVisibleTab := fun _ => None;
     Background.storage_ok := true |}.

(** The browser 40 ms later, when the page of tab 7 has loaded, and 90 ms
    later, when the screenshot of tab 7 has been captured. *)
Definition loadedBrowser : Background.Browser :=
  {| Background.Date_now := 5040;
     Background.unique := "5040_m2n8p4q1z";
     Background.tabs_query_active := [exampleTab 7];
     Background.tabs_get := fun tid => Some (exampleTab tid);
     Background.captureVisibleTab :=
       fun _ => Some "data:image/png;base64,iVBOR";
     Background.storage_ok := true |}.

Definition capturedBrowser : Background.Browser :=
  {| Background.Date_now := 5090;
     Background.unique := "5090_t5u1v7w3y";
     Background.tabs_query_active := [exampleTab 7];
     Background.tabs_get := fun tid => Some (exampleTab tid);
     Background.captureVisibleTab :=
       fun _ => Some "data:image/png;base64,iVBOR";
     Background.storage_ok := true |}.

Definition idle : Background.State :=
  {| Background.currentSession := None; Background.readyTabs := ∅ |}.

Definition firstStep : RecordingStep :=
  {| step_id := "step_5000_k3j9x0a1b";
     timestamp := 0;
     type := navigation;
     tabId := 7;
     tabTitle := "Example";
     url := "https://example.com/";
     screenshotData := Some "data:image/png;base64,iVBOR";
     element := None;
     inputValue := None;
     isSensitive := None |}.

(** The session that [startRecording "Login flow" false] creates on tab 7. *)
Definition loginFlow : RecordingSession :=
  {| id := "session_5000_k3j9x0a1b";
     title := "Login flow";
     startTime := 5000;
     endTime := None;
     isRecording := true;
     hasAudio := false;
     steps := [firstStep];
     annotations := [];
     trackedTabIds := [7] |}.

Definition recording : Background.State :=
  {| Background.currentSession := Some loginFlow;
     Background.readyTabs := ∅ |}.

Definition submitButton : ElementInfo :=
  {| ei_tag := "button";
     ei_text := "Submit Form";
     ei_selector := "button.submit-btn";
     ei_type := None;
     ei_name := None;
     ei_id := None;
     ei_className := Some "submit-btn";
     ei_ariaLabel := None |}.

Definition submitClick : ClickEventMessage :=
  {| ce_element := submitButton;
     ce_url := "https://example.com/";
     ce_timestamp := 5000 |}.

Definition note (i txt : string) : Annotation :=
  {| ann_id := i; ann_timestamp := 1200; text := txt |}.

(** The session with two annotations. *)
Definition annotated : Background.State :=
  {| Background.currentSession :=
       Some (Background.with_annotations loginFlow
               [note "ann_1" "first"; note "ann_2" "second"]);
     Background.readyTabs := ∅ |}.

(** *** Form fields *)

Definition emailField : Field.Element :=
  {| Field.handle := 1;
     Field.interface := Field.HTMLInputElement;
     Field.tagName := "INPUT";
     Field.type := "email";
     Field.name := "email";
     Field.id := "email";
     Field.placeholder := "you@example.com";
     Field.autocomplete := "email";
     Field.ariaLabel := None;
     Field.labelFor := Ok (Some "Email");
     Field.closestLabel := None;
     Field.webkitTextSecurity := "none";
     Field.closestIgnore := false |}.

Definition passwordField : Field.Element :=
  {| Field.handle := 2;
     Field.interface := Field.HTMLInputElement;
     Field.tagName := "INPUT";
     Field.type := "password";
     Field.name := "pw";
     Field.id := "pw";
     Field.placeholder := EmptyString;
     Field.autocomplete := "off";
     Field.ariaLabel := None;
     Field.labelFor := Ok None;
     Field.closestLabel := None;
     Field.webkitTextSecurity := "none";
     Field.closestIgnore := false |}.

Definition describe (element : Field.Element) : ElementInfo :=
  {| ei_tag := Dom.toLowerCase (Field.tagName element);
     ei_text := EmptyString;
     ei_selector := "#" +:+ Field.id element;
     ei_type := Some (Field.type element);
     ei_name := Some (Field.name element);
     ei_id := Some (Field.id element);
     ei_className := None;
     ei_ariaLabel := Field.ariaLabel element |}.

(** A page on which every control is described. *)
Definition describing (element : Field.Element) : Exc ElementInfo :=
  Ok (describe element).

(** A page on which no control is described: each sits below an element
    for which the selector generator throws, like the button of
    [widgetPage] below. *)
Definition undescribed (element : Field.Element) : Exc ElementInfo :=
  Throw "SyntaxError".

Definition pageUrl : string := "https://example.com/login".

(** Tracking has just started, at time 0. *)
Definition tracking0 : InputHandler.State :=
  InputHandler.startInputTracking 0 InputHandler.initial.

(** ["a"] was typed into the email field and its timer has fired: the
    value is recorded and nothing is pending. *)
Definition afterFirstCommit : InputHandler.State :=
  InputHandler.fireDue describing pageUrl 1000
    (InputHandler.runPage describing pageUrl
       [(0, InputHandler.Typed emailField "a")] tracking0).

(** Both fields were typed into 400 ms and 100 ms ago; the content script
    is recording. *)
Definition midTyping : ContentScript.State :=
  {| ContentScript.isRecording := true;
     ContentScript.recordingStartTime := Some 0;
     ContentScript.inputHandler :=
       InputHandler.runPage describing pageUrl
         [(100, InputHandler.Typed emailField "user@example.com");
          (400, InputHandler.Typed passwordField "hunter2")] tracking0 |}.

(** *** Pages *)

(** [<html><body><div id=dup data-testid=first></div><span id=dup></span>]:
    two elements share the id [dup]. *)
Definition htmlElement : Dom.Element :=
  Dom.mkElement 0 "HTML" EmptyString [] []
    [{| Dom.child_handle := 1; Dom.child_tagName := "BODY" |}] None.

Definition dupBody : Dom.Element :=
  Dom.mkElement 1 "BODY" EmptyString [] []
    [{| Dom.child_handle := 2; Dom.child_tagName := "DIV" |};
     {| Dom.child_handle := 3; Dom.child_tagName := "SPAN" |}]
    (Some htmlElement).

Definition dupDiv : Dom.Element :=
  Dom.mkElement 2 "DIV" "dup" [("id", "dup"); ("data-testid", "first")] [] []
    (Some dupBody).

Definition dupSpan : Dom.Element :=
  Dom.mkElement 3 "SPAN" "dup" [("id", "dup")] [] [] (Some dupBody).

(** The answers of that page to the queries the generator makes for the
    two elements; the other queries it makes there match nothing. *)
Definition dupPage : Dom.Document :=
  {| Dom.body := 1;
     Dom.documentElement := 0;
     Dom.querySelectorAll := fun selector =>
       if String.eqb selector "#dup" then Ok [2; 3]%nat
       else if String.eqb selector
                 (SelectorGenerator.attributeSelector "data-testid" "first")
       then Ok [2]%nat
       else Ok [];
     Dom.scopedQuerySelectorAll := fun _ _ => Ok [] |}.

(** [<html><body><fb:like class=fb_iframe_widget><button></button>]: the
    button sits in an element whose tag name holds a colon. *)
Definition widgetBody : Dom.Element :=
  Dom.mkElement 1 "BODY" EmptyString [] []
    [{| Dom.child_handle := 2; Dom.child_tagName := "FB:LIKE" |}]
    (Some htmlElement).

Definition likeWidget : Dom.Element :=
  Dom.mkElement 2 "FB:LIKE" EmptyString [("class", "fb_iframe_widget")]
    ["fb_iframe_widget"]
    [{| Dom.child_handle := 3; Dom.child_tagName := "BUTTON" |}]
    (Some widgetBody).

Definition likeButton : Dom.Element :=
  Dom.mkElement 3 "BUTTON" EmptyString [] [] [] (Some likeWidget).

(** The answers of that page.  In [fb:like.fb_iframe_widget] the engine
    reads a type selector [fb] followed by a pseudo-class [:like], which
    does not exist: the selector is invalid and the query throws. *)
Definition widgetPage : Dom.Document :=
  {| Dom.body := 1;
     Dom.documentElement := 0;
     Dom.querySelectorAll := fun selector =>
       if Dom.contains "fb:like" selector then Throw "SyntaxError" else Ok [];
     Dom.scopedQuerySelectorAll := fun _ selector =>
       if Dom.contains "fb:like" selector then Throw "SyntaxError"
       else Ok [] |}.

End Examples.

(** ** Further scenarios *)

Module Scenarios.
Import Examples.

(** The login-flow session once tab 9 has joined it. *)
Definition twoTabs : Background.State :=
  Background.set_session recording
    (Background.with_trackedTabIds loginFlow [7; 9]).

(** A tab opened from tab 7. *)
Definition childTab : Background.Tab :=
  {| Background.tab_id := Some 8;
     Background.tab_windowId := Some 1;
     Background.tab_title := Some "Help";
     Background.tab_url := Some "https://example.com/help";
     Background.tab_openerTabId := Some 7 |}.

(** The worker when [startRecording] has published the login flow and
    awaits the browser, and the tab update that arrives meanwhile: the
    page of tab 7 has loaded. *)
Definition publishedLogin : Background.State :=
  snd (Background.startRecordingBegin exampleBrowser "Login flow" false idle).

Definition pageLoaded : list (Background.Browser * Background.Event) :=
  [(loadedBrowser, Background.TabUpdated 7 true (exampleTab 7))].

Definition startLoginFlow : list (Background.Browser * Background.Event) :=
  [(exampleBrowser,
    Background.Message (START_RECORDING "Login flow" false) None)].

(** The index of a store that holds an older session and an earlier
    state of the login flow. *)
Definition storedIndex : list Background.SessionMetadata :=
  [ {| Background.m_id := "session_1000_aaaaaaaaa";
       Background.m_title := "Older";
       Background.m_startTime := 1000;
       Background.m_endTime := Some 2000;
       Background.m_hasAudio := false;
       Background.m_stepCount := 4;
       Background.m_annotationCount := 0;
       Background.m_isRecording := false |};
    {| Background.m_id := "session_5000_k3j9x0a1b";
       Background.m_title := "Login flow";
       Background.m_startTime := 5000;
       Background.m_endTime := None;
       Background.m_hasAudio := false;
       Background.m_stepCount := 0;
       Background.m_annotationCount := 0;
       Background.m_isRecording := true |} ].

End Scenarios.

Module SelectorScenarios.
Import Examples.

(** [<html><body><form id=login><div><input name=email><input name=pw>]:
    the two inputs sit two levels below an element with a unique id. *)
Definition formBody : Dom.Element :=
  Dom.mkElement 1 "BODY" EmptyString [] []
    [{| Dom.child_handle := 2; Dom.child_tagName := "FORM" |}]
    (Some htmlElement).

Definition loginForm : Dom.Element :=
  Dom.mkElement 2 "FORM" "login" [("id", "login")] []
    [{| Dom.child_handle := 3; Dom.child_tagName := "DIV" |}]
    (Some formBody).

Definition formRow : Dom.Element :=
  Dom.mkElement 3 "DIV" EmptyString [] []
    [{| Dom.child_handle := 4; Dom.child_tagName := "LABEL" |};
     {| Dom.child_handle := 5; Dom.child_tagName := "INPUT" |};
     {| Dom.child_handle := 6; Dom.child_tagName := "INPUT" |}]
    (Some loginForm).

Definition secondInput : Dom.Element :=
  Dom.mkElement 6 "INPUT" EmptyString [] [] [] (Some formRow).

(** The answers of that page: the id selector and the path selector of
    the second input match one element each, everything else matches
    none. *)
Definition formPage : Dom.Document :=
  {| Dom.body := 1;
     Dom.documentElement := 0;
     Dom.querySelectorAll := fun selector =>
       if String.eqb selector "#login" then Ok [2]%nat
       else if String.eqb selector
                 "#login > div:nth-of-type(1) > input:nth-of-type(2)"
       then Ok [6]%nat
       else Ok [];
     Dom.scopedQuerySelectorAll := fun _ _ => Ok [] |}.

End SelectorScenarios.

Module FieldScenarios.
Import Examples.

(** A text input that holds no secret, but whose name contains "pin". *)
Definition shippingField : Field.Element :=
  {| Field.handle := 3;
     Field.interface := Field.HTMLInputElement;
     Field.tagName := "INPUT";
     Field.type := "text";
     Field.name := "shipping_address";
     Field.id := "address";
     Field.placeholder := "Street and number";
     Field.autocomplete := "street-address";
     Field.ariaLabel := None;
     Field.labelFor := Ok (Some "Address");
     Field.closestLabel := None;
     Field.webkitTextSecurity := "none";
     Field.closestIgnore := false |}.

(** A checkbox. *)
Definition rememberMe : Field.Element :=
  {| Field.handle := 4;
     Field.interface := Field.HTMLInputElement;
     Field.tagName := "INPUT";
     Field.type := "checkbox";
     Field.name := "remember";
     Field.id := "remember";
     Field.placeholder := EmptyString;
     Field.autocomplete := EmptyString;
     Field.ariaLabel := None;
     Field.labelFor := Ok (Some "Remember me");
     Field.closestLabel := None;
     Field.webkitTextSecurity := "none";
     Field.closestIgnore := false |}.

(** A text input of the recorder's own panel. *)
Definition panelField : Field.Element :=
  {| Field.handle := 5;
     Field.interface := Field.HTMLInputElement;
     Field.tagName := "INPUT";
     Field.type := "text";
     Field.name := "note";
     Field.id := "note";
     Field.placeholder := EmptyString;
     Field.autocomplete := EmptyString;
     Field.ariaLabel := None;
     Field.labelFor := Ok None;
     Field.closestLabel := None;
     Field.webkitTextSecurity := "none";
     Field.closestIgnore := true |}.

(** A text input whose id holds a double quote, so that the selector of
    the classifier's label lookup is not valid.  It has an [aria-label],
    which is what the description takes for its text, before any
    lookup. *)
Definition quotedField : Field.Element :=
  {| Field.handle := 6;
     Field.interface := Field.HTMLInputElement;
     Field.tagName := "INPUT";
     Field.type := "text";
     Field.name := "comment";
     Field.id := "comment" +:+ SelectorGenerator.dquote;
     Field.placeholder := EmptyString;
     Field.autocomplete := EmptyString;
     Field.ariaLabel := Some "Comment";
     Field.labelFor := Throw "SyntaxError";
     Field.closestLabel := None;
     Field.webkitTextSecurity := "none";
     Field.closestIgnore := false |}.

(** Tracking is on and the page holds a value for the two fields. *)
Definition filled : InputHandler.State :=
  InputHandler.setValue rememberMe "on"
    (InputHandler.setValue panelField "my note" tracking0).

(** Recording starts at time 10; the two fields of the login form are
    typed into. *)
Definition typingSession : list (Z * ContentScript.Event) :=
  [ (10, ContentScript.EnableRecording (Some 10));
    (100, ContentScript.Page
            (InputHandler.Typed emailField "user@example.com"));
    (400, ContentScript.Page (InputHandler.Typed passwordField "hunter2")) ].

End FieldScenarios.

Module ClickScenarios.
Import Examples SelectorScenarios.

(** A browser for the login form: the inputs match [input] and every
    selector list that names it; they are text inputs. *)
Definition formEngine : ClickHandler.Engine :=
  {| ClickHandler.matches := fun element selector =>
       String.eqb (Dom.tagName element) "INPUT"
       && (String.eqb selector "input"
           || String.eqb selector
                (String.concat ", " ClickHandler.INTERACTIVE_ELEMENTS));
     ClickHandler.isHTMLInputElement := fun element =>
       String.eqb (Dom.tagName element) "INPUT";
     ClickHandler.inputType := fun _ => "text" |}.

Definition describeClick (element : Dom.Element) : ElementInfo :=
  {| ei_tag := Dom.toLowerCase (Dom.tagName element);
     ei_text := EmptyString;
     ei_selector := "#login > div:nth-of-type(1) > input:nth-of-type(2)";
     ei_type := Some "text";
     ei_name := None;
     ei_id := None;
     ei_className := None;
     ei_ariaLabel := None |}.

(** A page on which every clicked element is described. *)
Definition describingClick (element : Dom.Element) : Exc ElementInfo :=
  Ok (describeClick element).

Definition clickTracking : ClickHandler.State :=
  ClickHandler.startClickTracking 0
    {| ClickHandler.recordingStartTime := None;
       ClickHandler.clickCallback := false;
       ClickHandler.sent := [] |}.

End ClickScenarios.

(** * Properties *)

(** ** Session orchestrator *)

Section BackgroundProperties.
Import Background.

Lemma truthy_num_nonzero v : v <> 0 -> truthy_num (Some v) = Some v.
Proof. intros H. simpl. destruct (Z.eqb_spec v 0); congruence. Qed.

Lemma includes_In l x : includes l x = true <-> In x l.
Proof.
  unfold includes. rewrite existsb_exists. split.
  - intros (y & Hy & He). apply Z.eqb_eq in He. now subst.
  - intros H. exists x. split; [assumption|apply Z.eqb_refl].
Qed.

(** [startRecording] when no other event is handled during its awaits:
    without an active tab it throws and leaves the worker's state as it
    was; whenever it succeeds, the session it returns is the current one
    and holds exactly one step, a navigation step at timestamp 0 without
    element.  It does succeed when an active tab exists and storage
    answers. *)
Lemma startRecording_uninterrupted (b : Browser) (ttl : string) (audio : bool)
    (st : State) :
  (active_tab_id b = None ->
     startRecording b ttl audio st = (Throw "No active tab found", st))
  /\ (forall session st',
        startRecording b ttl audio st = (Ok session, st') ->
        currentSession st' = Some session
        /\ exists step,
             steps session = [step]
             /\ type step = navigation
             /\ timestamp step = 0
             /\ element step = None)
  /\ (forall t,
        active_tab_id b = Some t -> storage_ok b = true ->
        exists session,
          startRecording b ttl audio st = (Ok session, set_session st session)
          /\ trackedTabIds session = [t]
          /\ isRecording session = true).
Proof.
  unfold active_tab_id, startRecording, startRecordingBegin,
    startRecordingPush, startRecordingReturn, saveSessionMetadata.
  destruct (head (tabs_query_active b)) as [tab|]; simpl;
    [destruct (truthy_num (tab_id tab)) as [t|]; simpl|];
    (split; [|split]); try discriminate; try reflexivity.
  - intros session st' H.
    destruct (storage_ok b); [|discriminate].
    injection H as <- <-. split; [reflexivity|].
    eexists. repeat split.
  - intros t' [= <-] ->. eexists. repeat split.
Qed.

(** *** Annotations *)

Lemma assign_text_first_unknown annotationId txt (l : list Annotation) :
  (forall a, In a l -> ann_id a <> annotationId) ->
  assign_text_first annotationId txt l = None.
Proof.
  induction l as [|a l IH]; simpl; intros H; [reflexivity|].
  destruct (String.eqb_spec (ann_id a) annotationId) as [E|_].
  - exfalso. apply (H a); auto.
  - rewrite IH; auto.
Qed.

Lemma assign_text_first_known annotationId txt (l : list Annotation) :
  (exists a, In a l /\ ann_id a = annotationId) ->
  exists (i : nat) (a : Annotation),
    l !! i = Some a
    /\ ann_id a = annotationId
    /\ (forall (j : nat) a0, (j < i)%nat -> l !! j = Some a0 ->
          ann_id a0 <> annotationId)
    /\ assign_text_first annotationId txt l
       = Some (set_text a txt, <[ i := set_text a txt ]> l).
Proof.
  induction l as [|a l IH]; intros (x & Hin & Hx); [destruct Hin|].
  simpl. destruct (String.eqb_spec (ann_id a) annotationId) as [E|NE].
  - exists 0%nat, a. repeat split; auto. intros j a0 Hj. lia.
  - destruct Hin as [->|Hin]; [contradiction|].
    destruct IH as (i & a1 & Hi & Hid & Hfirst & Hres); [eauto|].
    exists (S i), a1. rewrite Hres. repeat split; auto.
    intros [|j] a0 Hj; simpl.
    + intros [= <-]. assumption.
    + apply Hfirst. lia.
Qed.

(** C10. [updateAnnotation] on a known id rewrites the text of the
    first annotation carrying that id and nothing else: the steps, the
    tracked tabs, the session's id, title, start and end time and flags,
    the ready-tab set, and every other annotation (and the id and
    timestamp of the one updated) are as before.  On an unknown id, or
    without a session, the state is untouched and the result is [None],
    which the dispatcher reports as [success: false]. *)
Theorem updateAnnotation_frame (annotationId txt : string) (st : State)
    (s : RecordingSession) :
  currentSession st = Some s ->
  ((exists a, In a (annotations s) /\ ann_id a = annotationId) ->
     exists (i : nat) (a : Annotation) (s' : RecordingSession),
       annotations s !! i = Some a
       /\ ann_id a = annotationId
       /\ (forall (j : nat) a0, (j < i)%nat ->
             annotations s !! j = Some a0 -> ann_id a0 <> annotationId)
       /\ updateAnnotation annotationId txt st
          = (Some (set_text a txt),
             {| currentSession := Some s'; readyTabs := readyTabs st |})
       /\ annotations s' = <[ i := set_text a txt ]> (annotations s)
       /\ (forall j : nat, j <> i ->
             annotations s' !! j = annotations s !! j)
       /\ length (annotations s') = length (annotations s)
       /\ ann_id (set_text a txt) = ann_id a
       /\ ann_timestamp (set_text a txt) = ann_timestamp a
       /\ text (set_text a txt) = txt
       /\ steps s' = steps s
       /\ trackedTabIds s' = trackedTabIds s
       /\ id s' = id s /\ title s' = title s
       /\ startTime s' = startTime s /\ endTime s' = endTime s
       /\ isRecording s' = isRecording s /\ hasAudio s' = hasAudio s)
  /\ ((forall a, In a (annotations s) -> ann_id a <> annotationId) ->
        updateAnnotation annotationId txt st = (None, st)
        /\ forall b sender,
             onMessage b (UPDATE_ANNOTATION annotationId txt) sender st
             = (AnnotationResponse false None, st)).
Proof.
  intros Hs. split.
  - intros Hknown.
    destruct (assign_text_first_known annotationId txt (annotations s) Hknown)
      as (i & a & Hi & Hid & Hfirst & Hres).
    exists i, a,
      (with_annotations s (<[ i := set_text a txt ]> (annotations s))).
    unfold updateAnnotation. rewrite Hs, Hres. simpl.
    repeat split; auto.
    + intros j Hj. apply list_lookup_insert_ne. congruence.
    + apply length_insert.
  - intros Hunknown.
    assert (E : updateAnnotation annotationId txt st = (None, st)).
    { unfold updateAnnotation. rewrite Hs.
      now rewrite (assign_text_first_unknown _ _ _ Hunknown). }
    split; [exact E|]. intros b sender. simpl. now rewrite E.
Qed.

(** *** Auto-stop *)

Lemma addStep_not_recording b ty data tid st :
  session_recording st = false -> addStep b ty data tid st = (None, st).
Proof.
  unfold session_recording, addStep.
  destruct (currentSession st) as [s|]; [|reflexivity].
  now intros ->.
Qed.

Lemma handle_finalized b ev st recorded :
  is_start ev = false ->
  finalized st recorded -> finalized (handle b ev st) recorded.
Proof.
  intros Hev (s & Hs & Hrec & Hend & Hsteps).
  assert (Hnot : session_recording st = false)
    by (unfold session_recording; now rewrite Hs).
  assert (Hsame : finalized st recorded) by (exists s; auto).
  destruct ev as [message sender|tid complete tab|tab|tid]; simpl.
  - destruct message; simpl in *; try discriminate; try assumption.
    + unfold stopRecording, saveSessionMetadata. rewrite Hs. simpl.
      destruct (storage_ok b); simpl; eexists; simpl; eauto.
    + destruct (truthy_num sender); [|assumption].
      now rewrite addStep_not_recording.
    + destruct (truthy_num sender); [|assumption].
      now rewrite addStep_not_recording.
    + unfold addAnnotation. rewrite Hs. simpl. eexists; simpl; eauto.
    + unfold updateAnnotation. rewrite Hs.
      destruct (assign_text_first _ _ _) as [[a l]|]; simpl;
        [eexists; simpl; eauto | assumption].
    + unfold deleteAnnotation. rewrite Hs.
      destruct (negb _); simpl; [eexists; simpl; eauto | assumption].
    + destruct (truthy_num sender); [|assumption].
      rewrite Hs, Hrec. simpl. eexists; simpl; eauto.
  - unfold onUpdated. rewrite Hs, Hrec. assumption.
  - unfold onCreated. rewrite Hs, Hrec. assumption.
  - unfold onRemoved. simpl. rewrite Hs, Hrec. simpl. eexists; simpl; eauto.
Qed.

Lemma run_finalized evs : forall st recorded,
  Forall (fun be => is_start (snd be) = false) evs ->
  finalized st recorded -> finalized (run evs st) recorded.
Proof.
  induction evs as [|[b ev] evs IH]; intros st recorded Hall Hfin;
    [assumption|].
  inversion Hall as [|? ? Hev Hrest]; subst. simpl.
  apply IH; [assumption|]. now apply handle_finalized.
Qed.

(** C5. While recording, removing the only tab left in the tracked list
    finalizes the session at once: it is inactive, its end time is the
    time of the removal, no stop message was needed, and whatever events
    arrive afterwards (short of a new start) are answered without a step
    being appended. *)
Theorem last_tracked_tab_removed_stops (b : Browser) (tid : Z) (st : State)
    (s : RecordingSession) :
  currentSession st = Some s ->
  isRecording s = true ->
  trackedTabIds s = [tid] ->
  (exists s',
      currentSession (onRemoved b tid st) = Some s'
      /\ isRecording s' = false
      /\ endTime s' = Some (Date_now b)
      /\ trackedTabIds s' = []
      /\ steps s' = steps s)
  /\ (forall b' ty data tid',
        addStep b' ty data tid' (onRemoved b tid st)
        = (None, onRemoved b tid st))
  /\ (forall evs,
        Forall (fun be => is_start (snd be) = false) evs ->
        finalized (run evs (onRemoved b tid st)) (steps s)).
Proof.
  intros Hs Hrec Htracked.
  assert (E : currentSession (onRemoved b tid st)
              = Some {| id := id s; title := title s;
                        startTime := startTime s;
                        endTime := Some (Date_now b);
                        isRecording := false;
                        hasAudio := hasAudio s; steps := steps s;
                        annotations := annotations s;
                        trackedTabIds := [] |}).
  { unfold onRemoved. simpl. rewrite Hs, Hrec, Htracked. simpl.
    rewrite Z.eqb_refl. simpl.
    unfold stopRecording, saveSessionMetadata. simpl.
    destruct (storage_ok b); reflexivity. }
  split; [|split].
  - eexists. split; [exact E|]. simpl. auto.
  - intros. apply addStep_not_recording.
    unfold session_recording. now rewrite E.
  - intros evs Hall. apply run_finalized; [assumption|].
    eexists. split; [exact E|]. simpl. eauto.
Qed.

(** *** Interaction records and the tracked-tab list *)

Lemma addStep_recording b ty data tid st s :
  currentSession st = Some s -> isRecording s = true ->
  exists step s',
    addStep b ty data tid st = (Some step, set_session st s')
    /\ steps s' = steps s ++ [step]
    /\ tabId step = tid
    /\ type step = ty
    /\ element step = d_element data
    /\ inputValue step = d_inputValue data
    /\ isSensitive step = d_isSensitive data
    /\ trackedTabIds s'
       = (if includes (trackedTabIds s) tid then trackedTabIds s
          else trackedTabIds s ++ [tid])
    /\ isRecording s' = true.
Proof.
  intros Hs Hrec. unfold addStep. rewrite Hs, Hrec. simpl.
  destruct (tabs_get b tid) as [tab|]; eexists; eexists;
    (split; [reflexivity|]); simpl; repeat split; assumption.
Qed.

Lemma tracked_after_push (l : list Z) (tid : Z) :
  In tid (if includes l tid then l else l ++ [tid]).
Proof.
  destruct (includes l tid) eqn:E.
  - now apply includes_In.
  - apply in_or_app. right. now left.
Qed.

Lemma addStep_new_steps_tracked b ty data tid st step :
  In step (session_steps (snd (addStep b ty data tid st))) ->
  In step (session_steps st)
  \/ In (tabId step) (session_tracked (snd (addStep b ty data tid st))).
Proof.
  destruct (currentSession st) as [s|] eqn:Hs.
  - destruct (isRecording s) eqn:Hrec.
    + destruct (addStep_recording b ty data tid st s Hs Hrec)
        as (new & s' & -> & Hsteps & Htab & _ & _ & _ & _ & Htr & _).
      unfold session_steps, session_tracked. simpl. rewrite Hs, Hsteps, Htr.
      intros Hin. apply in_app_or in Hin as [Hin|[<-|[]]]; [now left|].
      right. rewrite Htab. apply tracked_after_push.
    + rewrite addStep_not_recording
        by (unfold session_recording; now rewrite Hs).
      now left.
  - rewrite addStep_not_recording
      by (unfold session_recording; now rewrite Hs).
    now left.
Qed.

Lemma handle_new_steps_tracked b ev st step :
  In step (session_steps (handle b ev st)) ->
  In step (session_steps st)
  \/ In (tabId step) (session_tracked (handle b ev st)).
Proof.
  assert (Hadd : forall ty data tid,
             In step (session_steps (snd (addStep b ty data tid st))) ->
             In step (session_steps st)
             \/ In (tabId step)
                  (session_tracked (snd (addStep b ty data tid st))))
    by (intros; now apply addStep_new_steps_tracked).
  destruct ev as [message sender|tid complete tab|tab|tid]; simpl.
  - destruct message; simpl; try (now left).
    + unfold startRecording, startRecordingBegin, startRecordingPush,
        startRecordingReturn, saveSessionMetadata.
      destruct (head (tabs_query_active b)) as [tab|]; [|now left].
      destruct (truthy_num (tab_id tab)) as [t|]; [|now left].
      simpl. unfold session_steps, session_tracked.
      destruct (storage_ok b); simpl; intros [<-|[]]; right; now left.
    + unfold stopRecording, saveSessionMetadata, session_steps.
      destruct (currentSession st) as [s|] eqn:Hs; simpl;
        [|rewrite ?Hs; now left].
      destruct (storage_ok b); simpl; now left.
    + destruct (truthy_num sender) as [tid|]; [|now left].
      specialize (Hadd click
        {| d_timestamp := Some (ce_timestamp msg);
           d_element := Some (ce_element msg);
           d_inputValue := None; d_isSensitive := None;
           d_url := Some (ce_url msg) |} tid).
      destruct (addStep b click _ tid st) as [r st']. exact Hadd.
    + destruct (truthy_num sender) as [tid|]; [|now left].
      specialize (Hadd input
        {| d_timestamp := Some (ie_timestamp msg);
           d_element := Some (ie_element msg);
           d_inputValue := Some (ie_value msg);
           d_isSensitive := Some (ie_isSensitive msg);
           d_url := Some (ie_url msg) |} tid).
      destruct (addStep b input _ tid st) as [r st']. exact Hadd.
    + unfold addAnnotation, session_steps.
      destruct (currentSession st) as [s|] eqn:Hs; simpl;
        rewrite ?Hs; now left.
    + unfold updateAnnotation, session_steps.
      destruct (currentSession st) as [s|] eqn:Hs; simpl;
        [|rewrite ?Hs; now left].
      destruct (assign_text_first _ _ _) as [[a l]|]; simpl;
        rewrite ?Hs; now left.
    + unfold deleteAnnotation, session_steps.
      destruct (currentSession st) as [s|] eqn:Hs; simpl;
        [|rewrite ?Hs; now left].
      destruct (negb _); simpl; rewrite ?Hs; now left.
    + destruct (truthy_num sender); [|now left].
      unfold session_steps.
      destruct (currentSession st) as [s|] eqn:Hs; simpl; [|now left].
      destruct (isRecording s); simpl; now left.
  - unfold onUpdated.
    destruct (currentSession st) as [s|] eqn:Hs; [|now left].
    destruct (negb (isRecording s)); [now left|].
    destruct (negb (includes _ _)); [now left|].
    destruct complete; [|now left].
    destruct (truthy_str (tab_url tab)); [|now left].
    apply Hadd.
  - unfold onCreated, session_steps.
    destruct (currentSession st) as [s|] eqn:Hs; [|rewrite ?Hs; now left].
    destruct (negb (isRecording s)); [rewrite ?Hs; now left|].
    destruct (truthy_num (tab_id tab)); [|rewrite ?Hs; now left].
    destruct (truthy_num (tab_openerTabId tab)); [|rewrite ?Hs; now left].
    destruct (includes _ _); simpl; rewrite ?Hs; now left.
  - unfold onRemoved, session_steps. simpl.
    destruct (currentSession st) as [s|] eqn:Hs; simpl; [|now left].
    destruct (negb (isRecording s)); simpl; [rewrite ?Hs; now left|].
    destruct (negb _); simpl; [|rewrite ?Hs; now left].
    destruct (Z.of_nat _ =? 0); simpl; [|now left].
    unfold stopRecording, saveSessionMetadata. simpl.
    destruct (storage_ok b); simpl; now left.
Qed.


End BackgroundProperties.

(** ** Input handler *)

Section InputHandlerProperties.
Import Field SensitiveFields InputHandler.

Variable getElementInfo : Element -> Exc ElementInfo.
Variable href : string.

#[local] Abbreviation recordInputChange :=
  (InputHandler.recordInputChange getElementInfo href).
#[local] Abbreviation recordInputChangeThrowing :=
  (InputHandler.recordInputChangeThrowing getElementInfo href).

Lemma currentValue_values element st st' :
  values st' = values st -> currentValue element st' = currentValue element st.
Proof. unfold currentValue, valueOf. now intros ->. Qed.

Lemma recordInputChangeThrowing_idle now element st :
  InputHandler.recordingStartTime st = None \/ inputCallback st = false ->
  recordInputChangeThrowing now element st = (Ok tt, st).
Proof.
  unfold InputHandler.recordInputChangeThrowing.
  intros [->| ->]; [reflexivity|].
  now destruct (InputHandler.recordingStartTime st).
Qed.

(** A commit while tracking: whether it returns, what it records and what
    it sends. *)
Lemma recordInputChangeThrowing_commits now element st start :
  tracking st start ->
  recordInputChangeThrowing now element st
  = (commitOutcome getElementInfo st element,
     {| InputHandler.recordingStartTime := InputHandler.recordingStartTime st;
        inputCallback := inputCallback st;
        debounceTimers := debounceTimers st;
        lastRecordedValues := commitRecorded st element;
        timers := timers st;
        nextTimerId := nextTimerId st;
        values := values st;
        sent :=
          sent st ++ commitMessages getElementInfo href start now st element |}).
Proof.
  intros [Hstart Hcb].
  unfold InputHandler.recordInputChangeThrowing, commitOutcome, commitRecorded,
    commitMessages.
  rewrite Hstart, Hcb. rewrite <- Hstart, <- Hcb.
  destruct (currentValue element st) as [[value isSensitive]|e].
  - case_bool_decide as Hsame.
    + f_equal. destruct st; simpl in *.
      now rewrite insert_id, app_nil_r by assumption.
    + destruct (getElementInfo element) as [info|e]; [reflexivity|].
      unfold with_lastRecordedValues. now rewrite app_nil_r.
  - f_equal. destruct st; simpl. now rewrite app_nil_r.
Qed.

Lemma recordInputChange_commits now element st start :
  tracking st start ->
  recordInputChange now element st
  = {| InputHandler.recordingStartTime := InputHandler.recordingStartTime st;
       inputCallback := inputCallback st;
       debounceTimers := debounceTimers st;
       lastRecordedValues := commitRecorded st element;
       timers := timers st;
       nextTimerId := nextTimerId st;
       values := values st;
       sent :=
         sent st ++ commitMessages getElementInfo href start now st element |}.
Proof.
  intros Htr. unfold InputHandler.recordInputChange.
  now rewrite (recordInputChangeThrowing_commits now element st start Htr).
Qed.

Lemma recordInputChange_idle now element st :
  InputHandler.recordingStartTime st = None \/ inputCallback st = false ->
  recordInputChange now element st = st.
Proof.
  intros H. unfold InputHandler.recordInputChange.
  now rewrite recordInputChangeThrowing_idle.
Qed.

(** Tracking or not, the handler is tracking at some start time or a
    commit does nothing. *)
Lemma tracking_or_idle st :
  (exists start, tracking st start)
  \/ (InputHandler.recordingStartTime st = None \/ inputCallback st = false).
Proof.
  unfold tracking.
  destruct (InputHandler.recordingStartTime st) as [start|]; [|auto].
  destruct (inputCallback st); [left; now exists start|auto].
Qed.

Lemma recordInputChange_unchanged now element st value isSensitive :
  currentValue element st = Ok (value, isSensitive) ->
  lastRecordedValues st !! handle element = Some value ->
  recordInputChange now element st = st.
Proof.
  intros Hcur H.
  unfold InputHandler.recordInputChange, InputHandler.recordInputChangeThrowing.
  destruct (InputHandler.recordingStartTime st); [|reflexivity].
  destruct (inputCallback st); [|reflexivity].
  rewrite Hcur. now rewrite bool_decide_eq_true_2.
Qed.

Lemma recordInputChange_unclassified now element st e :
  currentValue element st = Throw e ->
  recordInputChange now element st = st.
Proof.
  intros Hcur.
  unfold InputHandler.recordInputChange, InputHandler.recordInputChangeThrowing.
  destruct (InputHandler.recordingStartTime st); [|reflexivity].
  destruct (inputCallback st); [|reflexivity].
  now rewrite Hcur.
Qed.

(** What a call of [recordInputChange] leaves alone. *)
Lemma recordInputChange_frame now element st :
  let st' := recordInputChange now element st in
  InputHandler.recordingStartTime st' = InputHandler.recordingStartTime st
  /\ inputCallback st' = inputCallback st
  /\ debounceTimers st' = debounceTimers st
  /\ timers st' = timers st
  /\ nextTimerId st' = nextTimerId st
  /\ values st' = values st.
Proof.
  destruct (tracking_or_idle st) as [[start Htr]|Hidle].
  - rewrite (recordInputChange_commits now element st start Htr). simpl.
    repeat split.
  - rewrite recordInputChange_idle by assumption. simpl. repeat split.
Qed.

(** C8. A commit whose value is the one last recorded for the element
    sends nothing and changes nothing; so committing an element twice in a
    row, its value unchanged, leaves the handler exactly as the first
    commit did: the second commit is absorbed. *)
Theorem repeated_commit_absorbed (now now' : Z) (element : Element)
    (st : State) :
  (forall value isSensitive,
     currentValue element st = Ok (value, isSensitive) ->
     lastRecordedValues st !! handle element = Some value ->
     recordInputChange now element st = st)
  /\ recordInputChange now' element (recordInputChange now element st)
     = recordInputChange now element st
  /\ sent (recordInputChange now' element (recordInputChange now element st))
     = sent (recordInputChange now element st).
Proof.
  split; [intros value isSensitive; apply recordInputChange_unchanged|].
  assert (E : recordInputChange now' element (recordInputChange now element st)
              = recordInputChange now element st).
  { destruct (tracking_or_idle st) as [[start Htr]|Hidle];
      [|rewrite (recordInputChange_idle now element st) by auto;
        apply recordInputChange_idle; auto].
    destruct (currentValue element st) as [[value isSensitive]|e] eqn:Hcur;
      [|rewrite (recordInputChange_unclassified now element st e Hcur);
        exact (recordInputChange_unclassified now' element st e Hcur)].
    rewrite (recordInputChange_commits now element st start Htr).
    apply (recordInputChange_unchanged _ _ _ value isSensitive).
    - rewrite <- Hcur. now apply currentValue_values.
    - simpl. unfold commitRecorded. rewrite Hcur. apply lookup_insert_eq. }
  split; [exact E|now rewrite E].
Qed.

Lemma sensitive_not_select element :
  isSensitiveField element = Ok true -> isSelect element = false.
Proof.
  unfold isSensitiveField, isInput, isTextArea, isSelect.
  destruct (interface element); simpl; auto; discriminate.
Qed.

Lemma currentValue_sensitive element st :
  isSensitiveField element = Ok true ->
  currentValue element st = Ok ("********", true).
Proof.
  intros H. unfold currentValue, getRecordableValue, maskValue.
  now rewrite (sensitive_not_select element H), H.
Qed.

Lemma recordInputChange_sent now element st :
  sent (recordInputChange now element st) = sent st
  \/ exists start,
       tracking st start
       /\ sent (recordInputChange now element st)
          = sent st ++ commitMessages getElementInfo href start now st element.
Proof.
  destruct (tracking_or_idle st) as [[start Htr]|Hidle].
  - right. exists start. split; [assumption|].
    now rewrite (recordInputChange_commits now element st start Htr).
  - left. now rewrite recordInputChange_idle.
Qed.

(** C6. Whatever value a field classified sensitive holds when it is
    committed, the message sent for it, if any, carries the placeholder
    [********] and [isSensitive = true], and so does the step the
    orchestrator records from that message.  Two runs that differ only in
    the raw value typed into the field send the same messages. *)
Theorem sensitive_input_masked (element : Element) (v1 v2 : string)
    (now : Z) (st : State) :
  isSensitiveField element = Ok true ->
  exists news,
    sent (recordInputChange now element (setValue element v1 st))
    = sent st ++ news
    /\ sent (recordInputChange now element (setValue element v2 st))
       = sent st ++ news
    /\ forall m, In m news ->
         ie_value m = "********"
         /\ ie_isSensitive m = true
         /\ forall b tid bst s,
              Background.currentSession bst = Some s ->
              isRecording s = true ->
              tid <> 0 ->
              exists step bst',
                Background.onMessage b (INPUT_EVENT m) (Some tid) bst
                = (Background.StepResponse (Some step), bst')
                /\ Background.session_steps bst' = steps s ++ [step]
                /\ inputValue step = Some "********"
                /\ isSensitive step = Some true.
Proof.
  intros Hsens.
  assert (Hstep : forall m,
             ie_value m = "********" -> ie_isSensitive m = true ->
             forall b tid bst s,
               Background.currentSession bst = Some s ->
               isRecording s = true -> tid <> 0 ->
               exists step bst',
                 Background.onMessage b (INPUT_EVENT m) (Some tid) bst
                 = (Background.StepResponse (Some step), bst')
                 /\ Background.session_steps bst' = steps s ++ [step]
                 /\ inputValue step = Some "********"
                 /\ isSensitive step = Some true).
  { intros m Hv Hf b tid bst s Hs Hrec Htid. unfold Background.onMessage.
    rewrite (truthy_num_nonzero _ Htid).
    match goal with
    | |- context [Background.addStep b ?ty ?data tid bst] =>
        destruct (addStep_recording b ty data tid bst s Hs Hrec)
          as (step & s' & -> & Hsteps & _ & _ & _ & Hval & Hflag & _)
    end.
    exists step, (Background.set_session bst s').
    repeat split; auto.
    - now rewrite Hval; simpl; rewrite Hv.
    - now rewrite Hflag; simpl; rewrite Hf. }
  set (st1 := setValue element v1 st). set (st2 := setValue element v2 st).
  destruct (tracking_or_idle st) as [[start Htr]|Hidle].
  - assert (Hsame : commitMessages getElementInfo href start now st2 element
                    = commitMessages getElementInfo href start now st1 element).
    { unfold commitMessages. now rewrite !currentValue_sensitive. }
    exists (commitMessages getElementInfo href start now st1 element).
    split; [|split].
    + now rewrite (recordInputChange_commits now element st1 start Htr).
    + rewrite (recordInputChange_commits now element st2 start Htr).
      simpl. now rewrite Hsame.
    + intros m Hm. unfold commitMessages in Hm.
      rewrite currentValue_sensitive in Hm by assumption.
      destruct (bool_decide _); [destruct Hm|].
      destruct (getElementInfo element) as [info|e]; [|destruct Hm].
      destruct Hm as [<-|[]].
      split; [reflexivity|]. split; [reflexivity|]. now apply Hstep.
  - exists []. rewrite app_nil_r.
    split; [|split; [|intros m []]];
      now rewrite recordInputChange_idle by exact Hidle.
Qed.

(** *** The shape of the debounce map *)

Lemma recordInputChange_debounceTimers now element st :
  debounceTimers (recordInputChange now element st) = debounceTimers st.
Proof. apply recordInputChange_frame. Qed.

Lemma recordInputChange_timers now element st :
  timers (recordInputChange now element st) = timers st.
Proof. apply recordInputChange_frame. Qed.

(** The debounce callback: the commit, after which the entry of the
    target leaves the map if the commit returned. *)
Lemma debounceCallback_frame now element st :
  let st' := InputHandler.debounceCallback getElementInfo href now element st in
  InputHandler.recordingStartTime st' = InputHandler.recordingStartTime st
  /\ inputCallback st' = inputCallback st
  /\ (debounceTimers st' = debounceTimers st
      \/ debounceTimers st' = map_delete (debounceTimers st) element)
  /\ timers st' = timers st
  /\ nextTimerId st' = nextTimerId st
  /\ values st' = values st
  /\ lastRecordedValues st' = lastRecordedValues (recordInputChange now element st)
  /\ sent st' = sent (recordInputChange now element st).
Proof.
  unfold InputHandler.debounceCallback.
  destruct (recordInputChange_frame now element st)
    as (H1 & H2 & H3 & H4 & H5 & H6).
  unfold InputHandler.recordInputChange in *.
  destruct (InputHandler.recordInputChangeThrowing getElementInfo href now
              element st) as [[u|e] st1]; simpl in *;
    rewrite ?H3; repeat split; auto.
Qed.

Lemma map_set_keys m element v :
  map (fun kv => handle (fst kv)) (map_set m element v)
  = if bool_decide (handle element ∈ map (fun kv => handle (fst kv)) m)
    then map (fun kv => handle (fst kv)) m
    else map (fun kv => handle (fst kv)) m ++ [handle element].
Proof.
  induction m as [|[k w] m IH]; simpl; [reflexivity|].
  destruct (Nat.eqb_spec (handle k) (handle element)) as [E|NE]; simpl.
  - rewrite bool_decide_eq_true_2 by (rewrite E; left). reflexivity.
  - rewrite IH. case_bool_decide as Hin.
    + rewrite bool_decide_eq_true_2 by now right. reflexivity.
    + rewrite bool_decide_eq_false_2; [reflexivity|].
      intros H. apply elem_of_cons in H as [H|H]; auto.
Qed.

Lemma map_set_wf m element v :
  isInput element || isTextArea element = true ->
  pending_wf m -> pending_wf (map_set m element v).
Proof.
  intros Hkind [Hnd Hall]. split.
  - rewrite map_set_keys. case_bool_decide as Hin; [assumption|].
    apply NoDup_app. split; [assumption|]. split.
    + intros x Hx Hx'. apply list_elem_of_singleton in Hx'. now subst.
    + apply NoDup_singleton.
  - clear Hnd. induction m as [|[k w] m IH]; simpl.
    + constructor; [assumption|constructor].
    + inversion Hall; subst. destruct (Nat.eqb (handle k) (handle element));
        constructor; auto.
Qed.

Lemma map_delete_wf m element :
  pending_wf m -> pending_wf (map_delete m element).
Proof.
  intros [Hnd Hall]. unfold map_delete. split.
  - clear Hall. induction m as [|[k w] m IH]; simpl; [constructor|].
    inversion Hnd as [|? ? Hnotin Hnd']; subst.
    rewrite filter_cons. simpl. case_decide; [|auto].
    simpl. constructor; [|auto].
    intros Hin. apply Hnotin. apply list_elem_of_fmap in Hin as (y & -> & Hy).
    apply list_elem_of_filter in Hy as [_ Hy].
    apply list_elem_of_fmap. now exists y.
  - apply Forall_forall. intros x Hx.
    apply list_elem_of_filter in Hx as [_ Hx].
    rewrite Forall_forall in Hall. now apply Hall.
Qed.

Lemma handleInputEvent_wf now target st :
  pending_wf (debounceTimers st) ->
  pending_wf
    (debounceTimers
       (InputHandler.handleInputEvent getElementInfo href now target st)).
Proof.
  intros Hwf. unfold InputHandler.handleInputEvent.
  destruct (InputHandler.recordingStartTime st); [|assumption].
  destruct (negb (isInput target) && negb (isTextArea target)
            && negb (isSelect target)) eqn:Hother; [assumption|].
  destruct (closestIgnore target); [assumption|].
  destruct (skippedInputType target); [assumption|].
  destruct (recordedImmediately target) eqn:Hnow.
  - now rewrite recordInputChange_debounceTimers.
  - simpl. apply map_set_wf; [|assumption].
    unfold recordedImmediately in Hnow.
    destruct (isInput target), (isTextArea target), (isSelect target);
      simpl in *; congruence.
Qed.

Lemma handleBlurEvent_wf now target st :
  pending_wf (debounceTimers st) ->
  pending_wf
    (debounceTimers
       (InputHandler.handleBlurEvent getElementInfo href now target st)).
Proof.
  intros Hwf. unfold InputHandler.handleBlurEvent.
  destruct (InputHandler.recordingStartTime st); [|assumption].
  destruct (negb (isInput target) && negb (isTextArea target)); [assumption|].
  rewrite recordInputChange_debounceTimers.
  destruct (map_get (debounceTimers st) target); [|assumption].
  simpl. now apply map_delete_wf.
Qed.

Lemma debounceCallback_wf now target st :
  pending_wf (debounceTimers st) ->
  pending_wf
    (debounceTimers
       (InputHandler.debounceCallback getElementInfo href now target st)).
Proof.
  intros Hwf.
  destruct (debounceCallback_frame now target st)
    as (_ & _ & [-> | ->] & _); [assumption|now apply map_delete_wf].
Qed.

Lemma fireDue_wf t st :
  pending_wf (debounceTimers st) ->
  pending_wf (debounceTimers (InputHandler.fireDue getElementInfo href t st)).
Proof.
  unfold InputHandler.fireDue.
  set (st0 := with_timers st (debounceTimers st) _ (nextTimerId st)).
  change (debounceTimers st) with (debounceTimers st0).
  generalize (filter (fun tm => due tm <= t) (timers st)) as l.
  generalize st0. clear st0.
  intros s l. revert s. induction l as [|tm l IH]; intros s Hwf; [assumption|].
  simpl. apply IH. now apply debounceCallback_wf.
Qed.

(** The shape of the [Map] assumed by the flush holds on every state the
    handler reaches from the start of tracking. *)
Lemma runPage_wf evs : forall st,
  pending_wf (debounceTimers st) ->
  pending_wf (debounceTimers (InputHandler.runPage getElementInfo href evs st)).
Proof.
  induction evs as [|[t ev] evs IH]; intros st Hwf; [assumption|].
  simpl. apply IH.
  pose proof (fireDue_wf t st Hwf) as Hwf'.
  destruct ev; simpl.
  - now apply handleInputEvent_wf.
  - now apply handleInputEvent_wf.
  - now apply handleBlurEvent_wf.
Qed.

Lemma recordInputChange_tracking now element st start :
  tracking st start ->
  tracking (recordInputChange now element st) start.
Proof.
  intros [Hstart Hcb].
  destruct (recordInputChange_frame now element st) as (H1 & H2 & _).
  split; congruence.
Qed.

Lemma debounceCallback_tracking now element st start :
  tracking st start ->
  tracking (InputHandler.debounceCallback getElementInfo href now element st)
    start.
Proof.
  intros [Hstart Hcb].
  destruct (debounceCallback_frame now element st) as (H1 & H2 & _).
  split; congruence.
Qed.

Lemma fireDue_tracking t st start :
  tracking st start ->
  tracking (InputHandler.fireDue getElementInfo href t st) start.
Proof.
  unfold InputHandler.fireDue.
  set (st0 := with_timers st (debounceTimers st) _ (nextTimerId st)).
  intros Htr. assert (Htr0 : tracking st0 start) by exact Htr.
  clearbody st0. clear Htr.
  generalize (filter (fun tm => due tm <= t) (timers st)) as l.
  intros l. revert st0 Htr0.
  induction l as [|tm l IH]; intros s Htr; [assumption|].
  simpl. apply IH. now apply debounceCallback_tracking.
Qed.

(** From the start of tracking on, whatever the page does, tracking stays
    on and the [Map] keeps the shape the flush relies on. *)
Lemma runPage_tracking evs : forall st start,
  tracking st start ->
  tracking (InputHandler.runPage getElementInfo href evs st) start.
Proof.
  induction evs as [|[t ev] evs IH]; intros st start Htr; [assumption|].
  simpl. apply IH. apply (fireDue_tracking t) in Htr.
  set (st1 := InputHandler.fireDue getElementInfo href t st) in *.
  destruct Htr as [Hstart Hcb].
  destruct ev as [target value|target|target]; simpl.
  - unfold InputHandler.handleInputEvent. simpl. rewrite Hstart.
    repeat match goal with
           | |- context [if ?c then _ else _] => destruct c
           end; try (split; simpl; auto; fail).
    apply recordInputChange_tracking. split; simpl; auto.
  - unfold InputHandler.handleInputEvent. rewrite Hstart.
    repeat match goal with
           | |- context [if ?c then _ else _] => destruct c
           end; try (split; simpl; auto; fail).
    apply recordInputChange_tracking. split; simpl; auto.
  - unfold InputHandler.handleBlurEvent. rewrite Hstart.
    destruct (negb (isInput target) && negb (isTextArea target));
      [split; assumption|].
    apply recordInputChange_tracking.
    destruct (map_get (debounceTimers st1) target); split; simpl; auto.
Qed.

Lemma started_tracking_wf evs start st :
  let st' :=
    InputHandler.runPage getElementInfo href evs
      (startInputTracking start st) in
  tracking st' start /\ pending_wf (debounceTimers st').
Proof.
  split.
  - apply runPage_tracking. split; reflexivity.
  - apply runPage_wf. split; constructor.
Qed.

(** *** Debouncing *)

#[local] Abbreviation handleInputEvent :=
  (InputHandler.handleInputEvent getElementInfo href).
#[local] Abbreviation handleBlurEvent :=
  (InputHandler.handleBlurEvent getElementInfo href).
#[local] Abbreviation fireDue := (InputHandler.fireDue getElementInfo href).
#[local] Abbreviation dispatch := (InputHandler.dispatch getElementInfo href).
#[local] Abbreviation runPage := (InputHandler.runPage getElementInfo href).

Lemma handleInputEvent_debounced now element st start :
  debounced element = true ->
  tracking st start ->
  handleInputEvent now element st
  = with_timers st
      (map_set (debounceTimers st) element (nextTimerId st))
      (match map_get (debounceTimers st) element with
       | Some existingTimer => clearTimeout existingTimer (timers st)
       | None => timers st
       end
       ++ [{| timer_id := nextTimerId st; due := now + INPUT_DEBOUNCE_MS;
              target := element |}])
      (S (nextTimerId st)).
Proof.
  unfold debounced. intros Hd [Hstart _].
  apply andb_prop in Hd as [Hd Himm]. apply andb_prop in Hd as [Hd Hskip].
  apply andb_prop in Hd as [Hkind Hign].
  apply negb_true_iff in Himm, Hskip, Hign.
  unfold InputHandler.handleInputEvent. rewrite Hstart, Hign, Hskip.
  replace (negb (isInput element) && negb (isTextArea element)
           && negb (isSelect element)) with false
    by (destruct (isInput element), (isTextArea element); simpl in *;
        congruence).
  simpl. now rewrite Himm.
Qed.

Lemma map_delete_single element k : map_delete [(element, k)] element = [].
Proof.
  unfold map_delete. rewrite filter_cons. simpl.
  now rewrite decide_False by (intros H; now apply H).
Qed.

Lemma fireDue_none t st :
  Forall (fun tm => t < due tm) (timers st) ->
  fireDue t st = st.
Proof.
  intros H. unfold InputHandler.fireDue.
  assert (E1 : filter (fun tm => due tm <= t) (timers st) = []).
  { revert H. generalize (timers st) as l.
    induction l as [|tm l IH]; intros H; [reflexivity|].
    inversion H; subst. rewrite filter_cons, decide_False by lia. auto. }
  assert (E2 : filter (fun tm => ~ due tm <= t) (timers st) = timers st).
  { revert H. generalize (timers st) as l.
    induction l as [|tm l IH]; intros H; [reflexivity|].
    inversion H; subst. rewrite filter_cons, decide_True by lia.
    f_equal. auto. }
  rewrite E1, E2. simpl. now destruct st.
Qed.

End InputHandlerProperties.

(** ** Selector generator *)

Section SelectorProperties.
Import Dom SelectorGenerator.

(** *** Shape of escaped identifiers *)

Lemma gt_escaped_weaken b s :
  gt_escaped false s = true -> gt_escaped b s = true.
Proof.
  destruct s as [|c s]; simpl; [reflexivity|].
  destruct (Ascii.eqb c ">"), b; simpl; intros H; congruence.
Qed.

Lemma gt_escaped_app s1 : forall b s2,
  gt_escaped b s1 = true -> gt_escaped false s2 = true ->
  gt_escaped b (s1 +:+ s2) = true.
Proof.
  induction s1 as [|c s1 IH]; intros b s2 H1 H2; simpl in *.
  - now apply gt_escaped_weaken.
  - apply andb_prop in H1 as [Hc H1]. rewrite Hc. simpl. now apply IH.
Qed.

Lemma escape_unit_gt index firstCodeUnit len c :
  gt_escaped false (escape_unit index firstCodeUnit len c) = true.
Proof.
  unfold escape_unit.
  destruct (Nat.eqb index 0), (Nat.eqb index 1), (Nat.eqb len 1),
    (bool_decide (firstCodeUnit = Some "-"%char));
    destruct c as [[] [] [] [] [] [] [] []]; reflexivity.
Qed.

Lemma escape_from_gt firstCodeUnit len s : forall index,
  gt_escaped false (escape_from index firstCodeUnit len s) = true.
Proof.
  induction s as [|c s IH]; intros index; simpl; [reflexivity|].
  apply gt_escaped_app; [apply escape_unit_gt|apply IH].
Qed.

Lemma gt_escaped_no_child_combinator s : forall b,
  gt_escaped b s = true -> contains " > " s = false.
Proof.
  induction s as [|c s IH]; intros b H; [reflexivity|].
  simpl in H. apply andb_prop in H as [_ H].
  cbn [contains]. rewrite (IH _ H), orb_false_r.
  cbn [String.prefix]. destruct (ascii_dec " " c) as [<-|]; [|reflexivity].
  destruct s as [|c' s]; [reflexivity|].
  cbn [String.prefix]. destruct (ascii_dec ">" c') as [<-|]; [|reflexivity].
  simpl in H. discriminate.
Qed.

Lemma id_selector_no_child_combinator i :
  contains " > " ("#" +:+ CSS_escape i) = false.
Proof.
  apply (gt_escaped_no_child_combinator _ false). simpl.
  apply gt_escaped_weaken, escape_from_gt.
Qed.

(** *** Shape of the selectors of tiers 2 to 5 *)

Lemma bind_Ok {A B} (m : Exc A) (k : A -> Exc B) (b : B) :
  m ≫= k = Ok b -> exists a, m = Ok a /\ k a = Ok b.
Proof.
  destruct m as [a|msg]; simpl; [|discriminate]. intros H. now exists a.
Qed.

Lemma prefix_app needle rest : String.prefix needle (needle +:+ rest) = true.
Proof.
  induction needle as [|c needle IH]; simpl; [now destruct rest|].
  destruct (ascii_dec c c); [assumption|contradiction].
Qed.

Lemma contains_app needle before after :
  contains needle (before +:+ needle +:+ after) = true.
Proof.
  induction before as [|c before IH].
  - change (EmptyString +:+ needle +:+ after) with (needle +:+ after).
    pose proof (prefix_app needle after) as H.
    destruct (needle +:+ after); cbn [contains]; now rewrite H.
  - change (String c before +:+ needle +:+ after)
      with (String c (before +:+ needle +:+ after)).
    cbn [contains]. rewrite IH. apply orb_true_r.
Qed.

Lemma concat_two_contains sep a b l :
  contains sep (String.concat sep (a :: b :: l)) = true.
Proof.
  change (String.concat sep (a :: b :: l))
    with (a +:+ sep +:+ String.concat sep (b :: l)).
  apply contains_app.
Qed.

Lemma lower_char_hash c : lower_char c = "#"%char -> c = "#"%char.
Proof. destruct c as [[] [] [] [] [] [] [] []]; vm_compute; congruence. Qed.

(** A selector that begins with the element's lower-cased tag name and
    goes on with [next] does not begin with [#], unless the tag name
    does. *)
Lemma tag_selector_not_hash tag next rest :
  String.prefix "#" tag = false ->
  next <> "#"%char ->
  String.prefix "#" (toLowerCase tag +:+ String next rest) = false.
Proof.
  intros Htag Hnext. destruct tag as [|c tag].
  - change (toLowerCase EmptyString +:+ String next rest)
      with (String next rest).
    cbn [String.prefix].
    destruct (ascii_dec "#" next); [congruence|reflexivity].
  - change (toLowerCase (String c tag) +:+ String next rest)
      with (String (lower_char c) (toLowerCase tag +:+ String next rest)).
    cbn [String.prefix].
    destruct (ascii_dec "#" (lower_char c)) as [E|]; [|reflexivity].
    symmetry in E. apply lower_char_hash in E. subst c.
    cbn [String.prefix] in Htag.
    destruct (ascii_dec "#" "#"); [|contradiction]. now destruct tag.
Qed.

Lemma id_selector_hash i : String.prefix "#" ("#" +:+ CSS_escape i) = true.
Proof. apply (prefix_app "#"). Qed.

Lemma tryAttributes_shape doc element attrs selector :
  tryAttributes doc element attrs = Some selector ->
  String.prefix "#" selector = false.
Proof.
  induction attrs as [|attr attrs IH]; simpl; [discriminate|].
  destruct (getAttribute element attr) as [value|]; [|exact IH].
  destruct (nonempty value && isUnique doc (attributeSelector attr value));
    [|exact IH].
  intros [= <-]. reflexivity.
Qed.

Lemma firstUnique_In doc candidates selector :
  firstUnique doc candidates = Some selector -> In selector candidates.
Proof.
  induction candidates as [|c candidates IH]; simpl; [discriminate|].
  destruct (isUnique doc c); [intros [= <-]; now left|].
  intros H. right. auto.
Qed.

Lemma tryClassSelector_shape doc element selector :
  tryClassSelector doc element = Some selector ->
  exists rest, selector = toLowerCase (tagName element) +:+ String "." rest.
Proof.
  unfold tryClassSelector.
  destruct (firstUnique doc _) as [s|] eqn:Hfirst.
  - intros [= <-]. apply firstUnique_In in Hfirst.
    apply in_map_iff in Hfirst as (className & <- & _). eauto.
  - destruct (getStableClasses element) as [|c1 [|c2 l]]; simpl;
      try discriminate.
    destruct (isUnique doc _); [|discriminate].
    intros [= <-]. eexists. reflexivity.
Qed.

Lemma getSimpleSelector_shape doc element part :
  getSimpleSelector doc element = Ok part ->
  exists next rest,
    part = toLowerCase (tagName element) +:+ String next rest
    /\ next <> "#"%char.
Proof.
  assert (Hnth : exists next rest,
             nthOfTypeSelector element
             = toLowerCase (tagName element) +:+ String next rest
             /\ next <> "#"%char).
  { eexists ":"%char, _. split; [reflexivity|discriminate]. }
  unfold getSimpleSelector.
  destruct (getStableClasses element) as [|first l];
    [intros [= <-]; exact Hnth|].
  destruct (parentElement element) as [parent|];
    [|intros [= <-]; exact Hnth].
  intros H. apply bind_Ok in H as (matching & _ & H).
  destruct (Nat.eqb (length matching) 1); injection H as <-; [|exact Hnth].
  eexists "."%char, _. split; [reflexivity|discriminate].
Qed.

Lemma simpleSelectors_length doc els : forall parts,
  simpleSelectors doc els = Ok parts -> length parts = length els.
Proof.
  induction els as [|el els IH]; intros parts; simpl.
  - now intros [= <-].
  - intros H. apply bind_Ok in H as (part & _ & H).
    apply bind_Ok in H as (rest & Hrest & H). injection H as <-.
    simpl. f_equal. auto.
Qed.

Lemma buildPathSelector_shape doc ancestor path target selector :
  buildPathSelector doc ancestor path target = Ok selector ->
  contains " > " selector = true.
Proof.
  unfold buildPathSelector. intros H.
  apply bind_Ok in H as (parts & Hparts & H). injection H as <-.
  apply simpleSelectors_length in Hparts. rewrite length_app in Hparts.
  destruct parts as [|p parts]; [simpl in Hparts; lia|].
  apply concat_two_contains.
Qed.

(** The parts that the loop of [buildFullPathSelector] puts in front of
    [path]: none, or some ending with the part of the element it was
    entered with. *)
Lemma fullPathFrom_shape doc current : forall path result,
  fullPathFrom doc current path = Ok result ->
  exists front,
    result = front ++ path
    /\ (front = []
        \/ exists front' part,
             front = front' ++ [part]
             /\ getSimpleSelector doc current = Ok part).
Proof.
  induction current as [h t i a c ch|h t i a c ch parent IH]
    using Element_ancestors_ind; intros path result;
    cbn [fullPathFrom];
    (destruct (_ || _); [intros [= <-]; exists []; auto|]);
    intros H; apply bind_Ok in H as (part & Hpart & H).
  - injection H as <-. exists [part]. split; [reflexivity|].
    right. exists [], part. auto.
  - apply IH in H as (front & -> & _).
    exists (front ++ [part]). split; [now rewrite <- app_assoc|].
    right. exists front, part. auto.
Qed.

Lemma buildFullPathSelector_shape doc element selector :
  buildFullPathSelector doc element = Ok selector ->
  selector = EmptyString
  \/ contains " > " selector = true
  \/ getSimpleSelector doc element = Ok selector.
Proof.
  unfold buildFullPathSelector. intros H.
  apply bind_Ok in H as (path & Hpath & H). injection H as <-.
  apply fullPathFrom_shape in Hpath as (front & -> & Hfront).
  rewrite app_nil_r.
  destruct Hfront as [->|(front' & part & -> & Hpart)]; [now left|].
  right. destruct front' as [|p front']; [right; exact Hpart|left].
  destruct (front' ++ [part]) as [|q l] eqn:E;
    [now destruct front'|].
  change ((p :: front') ++ [part]) with (p :: (front' ++ [part])).
  rewrite E. apply concat_two_contains.
Qed.

(** Tiers 2 to 5 never produce the [#id] selector of an element whose tag
    name does not begin with [#]. *)
Lemma afterIdSelector_not_id doc element i :
  String.prefix "#" (tagName element) = false ->
  afterIdSelector doc element <> Ok ("#" +:+ CSS_escape i).
Proof.
  intros Htag H.
  pose proof (id_selector_hash i) as Hhash.
  pose proof (id_selector_no_child_combinator i) as Hcomb.
  assert (Hsimple : forall part,
             getSimpleSelector doc element = Ok part ->
             String.prefix "#" part = false).
  { intros part Hpart.
    apply getSimpleSelector_shape in Hpart as (next & rest & -> & Hnext).
    now apply tag_selector_not_hash. }
  assert (Hfull : buildFullPathSelector doc element
                  <> Ok ("#" +:+ CSS_escape i)).
  { intros Hf. apply buildFullPathSelector_shape in Hf as [Hf|[Hf|Hf]].
    - discriminate.
    - congruence.
    - apply Hsimple in Hf. congruence. }
  unfold afterIdSelector in H.
  destruct (tryAttributeSelector doc element) as [s|] eqn:Hattr.
  - injection H as ->. apply tryAttributes_shape in Hattr. congruence.
  - destruct (tryClassSelector doc element) as [s|] eqn:Hclass.
    + injection H as ->.
      apply tryClassSelector_shape in Hclass as (rest & Hs).
      rewrite Hs, tag_selector_not_hash in Hhash by (auto; discriminate).
      discriminate.
    + unfold pathSelectorOrFullPath in H.
      apply bind_Ok in H as (info & _ & H).
      destruct info as [[ancestor path]|]; [|contradiction].
      apply bind_Ok in H as (pathSelector & Hpath & H).
      destruct (isUnique doc pathSelector); [|contradiction].
      injection H as ->. apply buildPathSelector_shape in Hpath. congruence.
Qed.

(** *** The id tier *)

Lemma generateSelector_tiers doc element :
  generateSelector doc element
  = (idSelector ← tryIdSelector doc element;
     match idSelector with
     | Some selector => Ok selector
     | None => afterIdSelector doc element
     end).
Proof.
  unfold generateSelector, afterIdSelector, pathSelectorOrFullPath.
  destruct (tryIdSelector doc element) as [[selector|]|]; simpl;
    try reflexivity.
Qed.

Lemma two_members_not_one (l : list nat) (x y : nat) :
  In x l -> In y l -> x <> y -> Nat.eqb (length l) 1 = false.
Proof.
  destruct l as [|a [|b l]]; simpl; try reflexivity.
  intros [<-|[]] [<-|[]] H. contradiction.
Qed.

Lemma tryIdSelector_not_unique doc element matches :
  querySelectorAll doc ("#" +:+ CSS_escape (id element)) = Ok matches ->
  Nat.eqb (length matches) 1 = false ->
  tryIdSelector doc element = Ok None.
Proof.
  intros Hq Hlen. unfold tryIdSelector, isUniqueId.
  destruct (nonempty (id element)); [|reflexivity].
  rewrite Hq. simpl. now rewrite Hlen.
Qed.

(** C2. Two distinct elements carry the same id, so the document's query
    for [#id] answers (at least) both.  Then for each of the two the id
    tier yields nothing, [generateSelector] is what tiers 2 to 5 compute,
    beginning with the stable-attribute tier, and its result is not the
    [#id] selector (tag names do not begin with [#]). *)
Theorem colliding_ids_skip_id_tier (doc : Document) (element other : Element)
    (matches : list nat) :
  id other = id element ->
  handle other <> handle element ->
  querySelectorAll doc ("#" +:+ CSS_escape (id element)) = Ok matches ->
  In (handle element) matches ->
  In (handle other) matches ->
  String.prefix "#" (tagName element) = false ->
  String.prefix "#" (tagName other) = false ->
  forall e, e = element \/ e = other ->
    tryIdSelector doc e = Ok None
    /\ generateSelector doc e = afterIdSelector doc e
    /\ (forall attrSelector,
          tryAttributeSelector doc e = Some attrSelector ->
          generateSelector doc e = Ok attrSelector)
    /\ generateSelector doc e <> Ok ("#" +:+ CSS_escape (id e)).
Proof.
  intros Hid Hne Hq Hin Hin' Htag Htag' e He.
  assert (Hlen : Nat.eqb (length matches) 1 = false)
    by (apply (two_members_not_one _ _ _ Hin Hin'); congruence).
  assert (Hq' : querySelectorAll doc ("#" +:+ CSS_escape (id e)) = Ok matches)
    by (destruct He as [->| ->]; [|rewrite Hid]; exact Hq).
  assert (Htag_e : String.prefix "#" (tagName e) = false)
    by (destruct He as [->| ->]; assumption).
  pose proof (tryIdSelector_not_unique doc e matches Hq' Hlen) as Hnone.
  assert (Hgen : generateSelector doc e = afterIdSelector doc e)
    by (rewrite generateSelector_tiers; now rewrite Hnone).
  split; [exact Hnone|]. split; [exact Hgen|]. split.
  - intros attrSelector Hattr. rewrite Hgen. unfold afterIdSelector.
    now rewrite Hattr.
  - rewrite Hgen. now apply afterIdSelector_not_id.
Qed.

(** *** Queries that throw *)

(** The sibling query of [getSimpleSelector] is the one query on a
    candidate that no [try] surrounds: what it throws, [getSimpleSelector]
    throws. *)
Lemma getSimpleSelector_throws doc element first rest parent msg :
  getStableClasses element = first :: rest ->
  parentElement element = Some parent ->
  scopedQuerySelectorAll doc (handle parent)
    (":scope > " +:+ toLowerCase (tagName element) +:+ "."
     +:+ CSS_escape first)
  = Throw msg ->
  getSimpleSelector doc element = Throw msg.
Proof.
  intros Hclasses Hparent Hq. unfold getSimpleSelector.
  now rewrite Hclasses, Hparent, Hq.
Qed.

(** A candidate whose document query throws is not unique; [isUnique]
    itself never throws. *)
Lemma isUnique_syntax_error doc selector msg :
  querySelectorAll doc selector = Throw msg -> isUnique doc selector = false.
Proof. unfold isUnique. now intros ->. Qed.

(** With every candidate of tiers 2 and 3 rejected, by a syntax error or
    otherwise, the result is that of tiers 4 and 5. *)
Lemma candidates_rejected_fall_through doc element :
  (forall selector, isUnique doc selector = false) ->
  afterIdSelector doc element = pathSelectorOrFullPath doc element.
Proof.
  intros Hnone. unfold afterIdSelector.
  assert (Hattr : tryAttributeSelector doc element = None).
  { unfold tryAttributeSelector.
    induction STABLE_ATTRIBUTES as [|attr attrs IH]; simpl; [reflexivity|].
    destruct (getAttribute element attr); [|exact IH].
    now rewrite Hnone, andb_false_r. }
  assert (Hclass : tryClassSelector doc element = None).
  { unfold tryClassSelector.
    assert (H : forall l, firstUnique doc l = None)
      by (induction l; simpl; [|rewrite Hnone]; auto).
    rewrite H, Hnone. now destruct (_ <=? _)%nat. }
  now rewrite Hattr, Hclass.
Qed.

Lemma simpleSelectors_returns doc els :
  (forall h selector, isOk (scopedQuerySelectorAll doc h selector) = true) ->
  exists parts, simpleSelectors doc els = Ok parts.
Proof.
  intros Hscoped.
  assert (Hsimple : forall el, exists part, getSimpleSelector doc el = Ok part).
  { intros el. unfold getSimpleSelector.
    destruct (getStableClasses el) as [|first l]; [eauto|].
    destruct (parentElement el) as [parent|]; [|eauto].
    specialize (Hscoped (handle parent)
                  (":scope > " +:+ toLowerCase (tagName el) +:+ "."
                   +:+ CSS_escape first)).
    destruct (scopedQuerySelectorAll doc _ _) as [r|]; [|discriminate].
    simpl. destruct (Nat.eqb (length r) 1); eauto. }
  induction els as [|el els [parts IH]]; simpl; [eauto|].
  destruct (Hsimple el) as [part ->]. rewrite IH. simpl. eauto.
Qed.

(** The only errors [generateSelector] can raise are those of its two
    unguarded queries: if the [#id] query and the sibling query always
    answer, it returns a string. *)
Lemma generateSelector_returns doc element :
  (forall i, isOk (querySelectorAll doc ("#" +:+ CSS_escape i)) = true) ->
  (forall h selector, isOk (scopedQuerySelectorAll doc h selector) = true) ->
  exists selector, generateSelector doc element = Ok selector.
Proof.
  intros Hid Hscoped.
  assert (HuniqueId : forall el i, exists u, isUniqueId doc el i = Ok u).
  { intros el i. unfold isUniqueId. specialize (Hid i).
    destruct (querySelectorAll doc _); [simpl; eauto|discriminate]. }
  assert (Hsimple : forall el, exists part, getSimpleSelector doc el = Ok part).
  { intros el. destruct (simpleSelectors_returns doc [el] Hscoped) as [parts H].
    simpl in H. destruct (getSimpleSelector doc el); [eauto|discriminate]. }
  assert (Hfull : forall el, exists s, buildFullPathSelector doc el = Ok s).
  { intros el. unfold buildFullPathSelector.
    assert (H : forall path, exists r, fullPathFrom doc el path = Ok r).
    { induction el as [h t i a c ch|h t i a c ch parent IH]
        using Element_ancestors_ind; intros path; cbn [fullPathFrom];
        (destruct (_ || _); [eauto|]);
        match goal with
        | |- context [getSimpleSelector doc ?e] =>
            destruct (Hsimple e) as [part ->]
        end; simpl; eauto. }
    destruct (H []) as [r ->]. simpl. eauto. }
  assert (Hnear : forall el path,
             exists r, nearestIdAncestorFrom doc el path = Ok r).
  { induction el as [h t i a c ch|h t i a c ch parent IH]
      using Element_ancestors_ind; intros path; cbn [nearestIdAncestorFrom];
      (destruct (_ || _); [eauto|]);
      match goal with
      | |- context [nonempty ?x] => destruct (nonempty x)
      end;
      try match goal with
        | |- context [isUniqueId doc ?e ?x] =>
            destruct (HuniqueId e x) as [[] ->]
        end; simpl; eauto. }
  assert (Htail : exists s, pathSelectorOrFullPath doc element = Ok s).
  { unfold pathSelectorOrFullPath, findNearestIdAncestor.
    destruct (parentElement element) as [parent|]; [|simpl; auto].
    destruct (Hnear parent []) as [[[ancestor path]|] ->]; simpl; [|auto].
    unfold buildPathSelector.
    destruct (simpleSelectors_returns doc (path ++ [element]) Hscoped)
      as [parts ->].
    simpl. destruct (isUnique doc _); eauto. }
  rewrite generateSelector_tiers. unfold tryIdSelector.
  assert (Hafter : exists s, afterIdSelector doc element = Ok s).
  { unfold afterIdSelector.
    destruct (tryAttributeSelector doc element); [eauto|].
    destruct (tryClassSelector doc element); [eauto|]. exact Htail. }
  destruct (nonempty (id element)); [|exact Hafter].
  destruct (HuniqueId element (id element)) as [[] ->]; simpl; eauto.
Qed.

End SelectorProperties.

(** ** The properties on the worked examples *)

Section Witnesses.
Import Examples.



Lemma last_tracked_tab_removed_stops_witness :
  (Background.currentSession recording = Some loginFlow
   /\ isRecording loginFlow = true
   /\ trackedTabIds loginFlow = [7])
  /\ (exists s',
         Background.currentSession
           (Background.onRemoved exampleBrowser 7 recording) = Some s'
         /\ isRecording s' = false
         /\ endTime s' = Some 5000)
  /\ finalized
       (Background.run
          [(exampleBrowser,
            Background.Message (CLICK_EVENT submitClick) (Some 7))]
          (Background.onRemoved exampleBrowser 7 recording))
       [firstStep].
Proof.
  split; [repeat split; reflexivity|].
  destruct (last_tracked_tab_removed_stops exampleBrowser 7 recording loginFlow
              eq_refl eq_refl eq_refl)
    as ((s' & Hs & Hrec & Hend & _) & _ & Hrun).
  split; [exists s'; auto|].
  apply Hrun. repeat constructor.
Defined.

Lemma updateAnnotation_frame_witness :
  Background.currentSession annotated
  = Some (Background.with_annotations loginFlow
            [note "ann_1" "first"; note "ann_2" "second"])
  /\ (exists s',
         Background.updateAnnotation "ann_2" "edited" annotated
         = (Some (note "ann_2" "edited"),
            {| Background.currentSession := Some s';
               Background.readyTabs := Background.readyTabs annotated |})
         /\ annotations s' = [note "ann_1" "first"; note "ann_2" "edited"]
         /\ steps s' = [firstStep]
         /\ trackedTabIds s' = [7])
  /\ Background.updateAnnotation "ann_9" "edited" annotated = (None, annotated).
Proof.
  split; [reflexivity|].
  destruct (updateAnnotation_frame "ann_2" "edited" annotated _ eq_refl)
    as [Hknown _].
  destruct (updateAnnotation_frame "ann_9" "edited" annotated _ eq_refl)
    as [_ Hunknown].
  split.
  - destruct Hknown
      as (i & a & s' & Hi & Hid & Hfirst & E & Hann & _ & _ & _ & _ & _
          & Hsteps & Htr & _).
    { exists (note "ann_2" "second"). split; [right; now left|reflexivity]. }
    assert (Ha : a = note "ann_2" "second").
    { destruct i as [|[|i]]; simpl in Hi.
      - injection Hi as <-. discriminate Hid.
      - now injection Hi as <-.
      - discriminate. }
    subst a. exists s'. split; [exact E|]. split; [|auto].
    rewrite Hann. destruct i as [|[|i]]; simpl in Hi; try discriminate.
    reflexivity.
  - apply Hunknown. intros a [<-|[<-|[]]]; discriminate.
Defined.

Lemma colliding_ids_skip_id_tier_witness :
  (Dom.id dupSpan = Dom.id dupDiv
   /\ Dom.handle dupSpan <> Dom.handle dupDiv
   /\ Dom.querySelectorAll dupPage ("#" +:+ Dom.CSS_escape (Dom.id dupDiv))
      = Ok [2; 3]%nat
   /\ String.prefix "#" (Dom.tagName dupDiv) = false
   /\ String.prefix "#" (Dom.tagName dupSpan) = false)
  /\ SelectorGenerator.tryIdSelector dupPage dupDiv = Ok None
  /\ SelectorGenerator.tryIdSelector dupPage dupSpan = Ok None
  /\ SelectorGenerator.generateSelector dupPage dupDiv
     = Ok (SelectorGenerator.attributeSelector "data-testid" "first")
  /\ SelectorGenerator.generateSelector dupPage dupSpan
     = afterIdSelector dupPage dupSpan.
Proof.
  assert (Hne : Dom.handle dupSpan <> Dom.handle dupDiv) by discriminate.
  split; [repeat split; try reflexivity; exact Hne|].
  pose proof (colliding_ids_skip_id_tier dupPage dupDiv dupSpan [2; 3]%nat
                eq_refl Hne eq_refl (or_introl eq_refl)
                (or_intror (or_introl eq_refl)) eq_refl eq_refl) as H.
  destruct (H dupDiv (or_introl eq_refl)) as (Hdiv & _ & Hattr & _).
  destruct (H dupSpan (or_intror eq_refl)) as (Hspan & Hgen & _).
  split; [exact Hdiv|]. split; [exact Hspan|]. split; [|exact Hgen].
  apply Hattr. reflexivity.
Defined.

Lemma sensitive_input_masked_witness :
  SensitiveFields.isSensitiveField passwordField = Ok true
  /\ InputHandler.sent
       (InputHandler.recordInputChange describing pageUrl 300 passwordField
          (InputHandler.setValue passwordField "hunter2" tracking0))
     = InputHandler.sent
         (InputHandler.recordInputChange describing pageUrl 300 passwordField
            (InputHandler.setValue passwordField "correct horse" tracking0))
  /\ forall m,
       In m (InputHandler.sent
               (InputHandler.recordInputChange describing pageUrl 300
                  passwordField
                  (InputHandler.setValue passwordField "hunter2" tracking0))) ->
       ie_value m = "********" /\ ie_isSensitive m = true.
Proof.
  assert (H : SensitiveFields.isSensitiveField passwordField = Ok true)
    by reflexivity.
  split; [exact H|].
  destruct (sensitive_input_masked describing pageUrl passwordField
              "hunter2" "correct horse" 300 tracking0 H)
    as (news & E1 & E2 & Hnews).
  split; [now rewrite E1, E2|].
  intros m Hm. rewrite E1 in Hm. simpl in Hm.
  destruct (Hnews m Hm) as (Hv & Hf & _). auto.
Defined.

(** C7, on a page the generator can meet.  The button has no id, no
    stable attribute and no class, and no ancestor with an id, so its
    selector is the full path.  For its parent [<fb:like
    class="fb_iframe_widget">] the candidate [fb:like.fb_iframe_widget] is
    not a valid selector: [isUnique] takes the error for "not unique", but
    the sibling query of [getSimpleSelector] is not guarded, and
    [generateSelector] throws instead of returning a selector. *)
Theorem generateSelector_propagates_sibling_query_error :
  SelectorGenerator.isUnique widgetPage "fb:like.fb_iframe_widget" = false
  /\ SelectorGenerator.getSimpleSelector widgetPage likeWidget
     = Throw "SyntaxError"
  /\ SelectorGenerator.generateSelector widgetPage likeButton
     = Throw "SyntaxError".
Proof. repeat split; reflexivity. Qed.

(** C4. Without an active tab [startRecording] throws and leaves the
    worker's state as it was, and a start during which nothing else is
    handled returns a session with the initial navigation step alone.  But
    the session is published, recording and without a step, before the
    function awaits the browser, and the initial step is pushed after:
    recording is started on tab 7 while its page is loading, the tab
    update that reports the page loaded is handled during the await, and
    its navigation step, at timestamp 40, is recorded first.  The session
    [startRecording] returns holds two steps, the initial one last. *)
Theorem startRecording_pushes_initial_step_after_awaits :
  Background.startRecording noTabBrowser "Login flow" false idle
  = (Throw "No active tab found", idle)
  /\ Background.startRecording exampleBrowser "Login flow" false idle
     = (Ok loginFlow, recording)
  /\ exists published loaded started session update initial,
       Background.startRecordingBegin exampleBrowser "Login flow" false idle
       = (Ok (exampleTab 7, 7), published)
       /\ Background.session_steps published = []
       /\ Background.handle loadedBrowser
            (Background.TabUpdated 7 true (exampleTab 7)) published
          = loaded
       /\ Background.startRecordingPush capturedBrowser (exampleTab 7) 7
            loaded
          = (Ok tt, started)
       /\ Background.startRecordingReturn capturedBrowser started
          = Ok session
       /\ steps session = [update; initial]
       /\ type update = navigation
       /\ timestamp update = 40
       /\ type initial = navigation
       /\ timestamp initial = 0
       /\ element initial = None.
Proof.
  split; [reflexivity|]. split; [reflexivity|].
  do 6 eexists. repeat split.
Qed.

Lemma repeated_commit_absorbed_witness :
  (InputHandler.currentValue emailField afterFirstCommit = Ok ("a", false)
   /\ InputHandler.lastRecordedValues afterFirstCommit
      !! Field.handle emailField = Some "a")
  /\ InputHandler.recordInputChange describing pageUrl 1500 emailField
       afterFirstCommit
     = afterFirstCommit
  /\ InputHandler.sent
       (InputHandler.recordInputChange describing pageUrl 1500 emailField
          (InputHandler.recordInputChange describing pageUrl 1400 emailField
             (InputHandler.setValue emailField "ab" afterFirstCommit)))
     = InputHandler.sent
         (InputHandler.recordInputChange describing pageUrl 1400 emailField
            (InputHandler.setValue emailField "ab" afterFirstCommit)).
Proof.
  assert (Hcur : InputHandler.currentValue emailField afterFirstCommit
                 = Ok ("a", false)) by reflexivity.
  assert (H : InputHandler.lastRecordedValues afterFirstCommit
              !! Field.handle emailField = Some "a") by reflexivity.
  split; [split; [exact Hcur|exact H]|].
  destruct (repeated_commit_absorbed describing pageUrl 1500 1500 emailField
              afterFirstCommit) as (Hsame & _ & _).
  destruct (repeated_commit_absorbed describing pageUrl 1400 1500 emailField
              (InputHandler.setValue emailField "ab" afterFirstCommit))
    as (_ & _ & Htwice).
  split; [exact (Hsame "a" false Hcur H)|exact Htwice].
Defined.

End Witnesses.

(** * Further properties *)

(** ** Session orchestrator *)

Section OrchestratorFurtherProperties.
Import Background.

Lemma extends_refl s : extends s s.
Proof. repeat split. exists []. now rewrite app_nil_r. Qed.

Lemma extends_trans s1 s2 s3 :
  extends s1 s2 -> extends s2 s3 -> extends s1 s3.
Proof.
  intros (H1 & H2 & H3 & H4 & n1 & H5) (G1 & G2 & G3 & G4 & n2 & G5).
  repeat split; try congruence.
  exists (n1 ++ n2). rewrite G5, H5. now rewrite app_assoc.
Qed.

Lemma with_annotations_extends s l : extends s (with_annotations s l).
Proof. repeat split. exists []. simpl. now rewrite app_nil_r. Qed.

Lemma with_trackedTabIds_extends s l : extends s (with_trackedTabIds s l).
Proof. repeat split. exists []. simpl. now rewrite app_nil_r. Qed.

Lemma addStep_extends b ty data tid st s :
  currentSession st = Some s ->
  exists s', currentSession (snd (addStep b ty data tid st)) = Some s'
             /\ extends s s'.
Proof.
  intros Hs. unfold addStep. rewrite Hs.
  destruct (isRecording s) eqn:Hrec; simpl.
  - destruct (tabs_get b tid); simpl; eexists; (split; [reflexivity|]);
      repeat split; eexists; reflexivity.
  - exists s. split; [assumption|apply extends_refl].
Qed.

Lemma stopRecording_extends b st s :
  currentSession st = Some s ->
  exists s', currentSession (snd (stopRecording b st)) = Some s'
             /\ extends s s'.
Proof.
  intros Hs. unfold stopRecording, saveSessionMetadata. rewrite Hs. simpl.
  eexists. split.
  - destruct (storage_ok b); reflexivity.
  - repeat split. exists []. simpl. now rewrite app_nil_r.
Qed.

Lemma handle_extends b ev st s :
  is_start ev = false ->
  currentSession st = Some s ->
  exists s', currentSession (handle b ev st) = Some s' /\ extends s s'.
Proof.
  intros Hev Hs.
  assert (Hsame : exists s', currentSession st = Some s' /\ extends s s')
    by (exists s; split; [assumption|apply extends_refl]).
  destruct ev as [message sender|tid complete tab|tab|tid]; simpl.
  - destruct message; simpl; try discriminate; try exact Hsame.
    + destruct (stopRecording_extends b st s Hs) as (s' & H1 & H2).
      exists s'. split; [|assumption].
      destruct (stopRecording b st) as [[r|e] st']; exact H1.
    + destruct (truthy_num sender) as [tid|]; [|exact Hsame].
      match goal with
      | |- context [addStep b ?ty ?data tid st] =>
          destruct (addStep_extends b ty data tid st s Hs) as (s' & H1 & H2);
          destruct (addStep b ty data tid st) as [r st']
      end.
      exists s'. split; assumption.
    + destruct (truthy_num sender) as [tid|]; [|exact Hsame].
      match goal with
      | |- context [addStep b ?ty ?data tid st] =>
          destruct (addStep_extends b ty data tid st s Hs) as (s' & H1 & H2);
          destruct (addStep b ty data tid st) as [r st']
      end.
      exists s'. split; assumption.
    + unfold addAnnotation. rewrite Hs. simpl.
      eexists. split; [reflexivity|apply with_annotations_extends].
    + unfold updateAnnotation. rewrite Hs.
      destruct (assign_text_first _ _ _) as [[a l]|]; simpl; [|exact Hsame].
      eexists. split; [reflexivity|apply with_annotations_extends].
    + unfold deleteAnnotation. rewrite Hs.
      destruct (negb _); simpl; [|exact Hsame].
      eexists. split; [reflexivity|apply with_annotations_extends].
    + destruct (truthy_num sender); [|exact Hsame].
      rewrite Hs. destruct (isRecording s); simpl.
      * eexists. split; [reflexivity|apply with_trackedTabIds_extends].
      * exists s. split; [reflexivity|apply extends_refl].
  - unfold onUpdated. rewrite Hs.
    destruct (negb (isRecording s)); [exact Hsame|].
    destruct (negb (includes _ _)); [exact Hsame|].
    destruct complete; [|exact Hsame].
    destruct (truthy_str (tab_url tab)); [|exact Hsame].
    apply addStep_extends. assumption.
  - unfold onCreated. rewrite Hs.
    destruct (negb (isRecording s)); [exact Hsame|].
    destruct (truthy_num (tab_id tab)); [|exact Hsame].
    destruct (truthy_num (tab_openerTabId tab)); [|exact Hsame].
    destruct (includes _ _); simpl; [|exact Hsame].
    eexists. split; [reflexivity|apply with_trackedTabIds_extends].
  - unfold onRemoved. simpl. rewrite Hs.
    destruct (negb (isRecording s)); simpl;
      [exists s; split; [reflexivity|apply extends_refl]|].
    destruct (negb _); simpl;
      [|exists s; split; [reflexivity|apply extends_refl]].
    destruct (Z.of_nat _ =? 0); simpl.
    + match goal with
      | |- context [stopRecording b ?st2] =>
          destruct (stopRecording_extends b st2 _ eq_refl) as (s' & H1 & H2)
      end.
      exists s'. split; [exact H1|].
      eapply extends_trans; [apply with_trackedTabIds_extends|exact H2].
    + eexists. split; [reflexivity|apply with_trackedTabIds_extends].
Qed.

Lemma handle_no_session b ev st :
  is_start ev = false ->
  currentSession st = None ->
  currentSession (handle b ev st) = None.
Proof.
  intros Hev Hs.
  destruct ev as [message sender|tid complete tab|tab|tid]; simpl.
  - destruct message; simpl; try discriminate; try assumption.
    + unfold stopRecording. now rewrite Hs.
    + destruct (truthy_num sender) as [tid|]; [|assumption].
      rewrite addStep_not_recording
        by (unfold session_recording; now rewrite Hs). assumption.
    + destruct (truthy_num sender) as [tid|]; [|assumption].
      rewrite addStep_not_recording
        by (unfold session_recording; now rewrite Hs). assumption.
    + unfold addAnnotation. now rewrite Hs.
    + unfold updateAnnotation. now rewrite Hs.
    + unfold deleteAnnotation. now rewrite Hs.
    + destruct (truthy_num sender); [|assumption]. now rewrite Hs.
  - unfold onUpdated. now rewrite Hs.
  - unfold onCreated. now rewrite Hs.
  - unfold onRemoved. simpl. now rewrite Hs.
Qed.

(** X1. Apart from [START_RECORDING], nothing the worker handles creates,
    drops or replaces the session, and nothing removes or reorders a
    recorded step: over any run of such events the session keeps its id,
    title, start time and audio flag, and its earlier steps remain the
    front of its step list; without a session, none appears. *)
Theorem session_persists_steps_append_only
    (evs : list (Browser * Event)) (st : State) :
  Forall (fun e => is_start (snd e) = false) evs ->
  match currentSession st with
  | Some s => exists s', currentSession (run evs st) = Some s' /\ extends s s'
  | None => currentSession (run evs st) = None
  end.
Proof.
  intros Hevs. revert st.
  induction Hevs as [|[b ev] evs Hev _ IH]; intros st; simpl.
  - destruct (currentSession st) as [s|] eqn:Hs; [|reflexivity].
    exists s. split; [reflexivity|apply extends_refl].
  - simpl in Hev. specialize (IH (handle b ev st)).
    destruct (currentSession st) as [s|] eqn:Hs.
    + destruct (handle_extends b ev st s Hev Hs) as (s1 & H1 & H2).
      rewrite H1 in IH. destruct IH as (s' & H3 & H4).
      exists s'. split; [assumption|]. eapply extends_trans; eassumption.
    + now rewrite (handle_no_session b ev st Hev Hs) in IH.
Qed.

(** X2. While a session is recording, [addStep] records a step whatever
    the browser answers: when [chrome.tabs.get] rejects, the step has the
    tab title "Unknown", the url of the message (or the empty string) and
    no screenshot; when the tab is found but the capture fails, only the
    screenshot is missing.  The timestamp is the caller's when it is a
    non-zero number, otherwise the time since the session started. *)
Theorem addStep_survives_browser_failures (b : Browser) (ty : StepType)
    (data : StepData) (tid : Z) (st : State) (s : RecordingSession) :
  currentSession st = Some s ->
  isRecording s = true ->
  exists step,
    fst (addStep b ty data tid st) = Some step
    /\ session_steps (snd (addStep b ty data tid st)) = steps s ++ [step]
    /\ (tabs_get b tid = None ->
        tabTitle step = "Unknown"
        /\ url step = str_or (d_url data) ""
        /\ screenshotData step = None)
    /\ (forall tab, tabs_get b tid = Some tab ->
        tabTitle step = str_or (tab_title tab) "Untitled"
        /\ url step = str_or (tab_url tab) (str_or (d_url data) "")
        /\ (captureScreenshot b tid = None -> screenshotData step = None))
    /\ timestamp step
       = match truthy_num (d_timestamp data) with
         | Some t => t
         | None => Date_now b - startTime s
         end.
Proof.
  intros Hs Hrec. unfold addStep, session_steps. rewrite Hs, Hrec. simpl.
  unfold captureScreenshotWithHighlight, captureScreenshot.
  destruct (tabs_get b tid) as [tab|] eqn:Htab; simpl;
    eexists; (split; [reflexivity|]); (split; [reflexivity|]); simpl;
    (split; [|split]); try discriminate; try reflexivity.
  - intros tab' [= <-]. repeat split. intros H. exact H.
  - intros _. repeat split.
Qed.

Lemma findIndex_none {A} (p : A -> bool) (l : list A) :
  Forall (fun a => p a = false) l -> findIndex p l = -1.
Proof.
  induction 1 as [|a l Ha _ IH]; simpl; [reflexivity|].
  now rewrite Ha, IH.
Qed.

Lemma findIndex_split {A} (p : A -> bool) (pre : list A) a post :
  Forall (fun a' => p a' = false) pre ->
  p a = true ->
  findIndex p (pre ++ a :: post) = Z.of_nat (length pre)
  /\ splice1 (pre ++ a :: post) (length pre) = pre ++ post.
Proof.
  intros Hpre Ha. induction Hpre as [|x pre Hx _ [IH1 IH2]]; simpl.
  - now rewrite Ha.
  - rewrite Hx, IH1, IH2. split; [|reflexivity].
    destruct (Z.eqb_spec (Z.of_nat (length pre)) (-1)); lia.
Qed.

Lemma first_match_split {A} (p : A -> bool) (l : list A) :
  (exists a, In a l /\ p a = true) ->
  exists pre a post,
    l = pre ++ a :: post
    /\ p a = true
    /\ Forall (fun a' => p a' = false) pre.
Proof.
  induction l as [|x l IH]; intros (a & Hin & Ha); [destruct Hin|].
  destruct (p x) eqn:Hx.
  - exists [], x, l. repeat split; auto.
  - destruct Hin as [->|Hin]; [congruence|].
    destruct IH as (pre & a' & post & -> & Ha' & Hpre); [eauto|].
    exists (x :: pre), a', post. repeat split; auto.
Qed.

(** X3. [deleteAnnotation] on a known id removes the first annotation
    carrying that id and nothing else: the annotations before and after
    it keep their order, and the steps, tracked tabs and session fields
    are as before.  On an unknown id the state is untouched and the
    result is [false]. *)
Theorem deleteAnnotation_frame (annotationId : string) (st : State)
    (s : RecordingSession) :
  currentSession st = Some s ->
  ((exists a, In a (annotations s) /\ ann_id a = annotationId) ->
     exists pre a post,
       annotations s = pre ++ a :: post
       /\ ann_id a = annotationId
       /\ Forall (fun a' => ann_id a' <> annotationId) pre
       /\ deleteAnnotation annotationId st
          = (true, set_session st (with_annotations s (pre ++ post))))
  /\ ((forall a, In a (annotations s) -> ann_id a <> annotationId) ->
        deleteAnnotation annotationId st = (false, st)).
Proof.
  intros Hs. unfold deleteAnnotation. rewrite Hs. split.
  - intros (a & Hin & Ha).
    destruct (first_match_split
                (fun a => String.eqb (ann_id a) annotationId)
                (annotations s)) as (pre & a' & post & E & Ha' & Hpre).
    { exists a. split; [assumption|]. now apply String.eqb_eq. }
    exists pre, a', post.
    destruct (findIndex_split _ pre a' post Hpre Ha') as [Hi Hsp].
    rewrite E, Hi, Nat2Z.id, Hsp.
    destruct (Z.eqb_spec (Z.of_nat (length pre)) (-1)); [lia|]. simpl.
    repeat split; auto.
    + now apply String.eqb_eq.
    + eapply Forall_impl; [exact Hpre|]. simpl.
      intros x Hx. now apply String.eqb_neq.
  - intros Hunknown. rewrite findIndex_none; [reflexivity|].
    apply Forall_forall. intros a Hin. apply String.eqb_neq.
    apply Hunknown. now apply list_elem_of_In.
Qed.

(** X4. Adding an annotation and then deleting it by the id that was
    returned restores the worker's state exactly, provided the generated
    id is not already the id of an annotation of the session.  (When it
    is, the delete removes the older annotation instead.) *)
Theorem addAnnotation_then_delete (b : Browser) (txt : string) (ts : Z)
    (st : State) (s : RecordingSession) :
  currentSession st = Some s ->
  (forall a, In a (annotations s) -> ann_id a <> generateUniqueId b "ann_") ->
  exists a st1,
    addAnnotation b txt ts st = (Some a, st1)
    /\ text a = txt /\ ann_timestamp a = ts
    /\ session_steps st1 = steps s
    /\ deleteAnnotation (ann_id a) st1 = (true, st).
Proof.
  intros Hs Hfresh. unfold addAnnotation. rewrite Hs.
  eexists. eexists. split; [reflexivity|]. simpl.
  split; [reflexivity|]. split; [reflexivity|]. split; [reflexivity|].
  unfold deleteAnnotation. simpl.
  match goal with
  | |- context [findIndex ?p (?pre ++ [?a])] =>
      destruct (findIndex_split p pre a []) as [Hi Hsp]
  end.
  - apply Forall_forall. intros a Hin. apply String.eqb_neq.
    apply Hfresh. now apply list_elem_of_In.
  - apply String.eqb_refl.
  - rewrite Hi, Nat2Z.id, Hsp.
    destruct (Z.eqb_spec (Z.of_nat (length (annotations s))) (-1)); [lia|].
    simpl. rewrite app_nil_r. f_equal.
    unfold set_session, with_annotations. simpl.
    destruct st as [cs rt]. simpl in *. subst cs. now destruct s.
Qed.

(** X5. [stopRecording] finalizes whatever session exists, active or
    already stopped: the session becomes inactive and its end time is
    set (again) to the current time, while steps, annotations and
    tracked tabs are kept.  This holds even when the storage write
    fails, in which case [STOP_RECORDING] gets no response.  Afterwards
    the session still takes annotations but no steps. *)
Theorem stopRecording_finalizes (b : Browser) (st : State)
    (s : RecordingSession) :
  currentSession st = Some s ->
  exists s',
    currentSession (snd (stopRecording b st)) = Some s'
    /\ isRecording s' = false
    /\ endTime s' = Some (Date_now b)
    /\ steps s' = steps s
    /\ annotations s' = annotations s
    /\ trackedTabIds s' = trackedTabIds s
    /\ (forall sender,
          fst (onMessage b STOP_RECORDING sender st)
          = if storage_ok b then StopResponse (Some s') else NoResponse)
    /\ (forall b' ty data tid,
          fst (addStep b' ty data tid (snd (stopRecording b st))) = None)
    /\ (forall b' txt ts,
          exists a st2,
            addAnnotation b' txt ts (snd (stopRecording b st)) = (Some a, st2)
            /\ (exists s2, currentSession st2 = Some s2
                           /\ annotations s2 = annotations s ++ [a]
                           /\ steps s2 = steps s)).
Proof.
  intros Hs. unfold onMessage, stopRecording, saveSessionMetadata.
  rewrite Hs. simpl.
  eexists. split; [destruct (storage_ok b); reflexivity|].
  simpl. repeat split.
  - intros sender. destruct (storage_ok b); reflexivity.
  - intros. destruct (storage_ok b); reflexivity.
  - intros. unfold addAnnotation.
    destruct (storage_ok b); simpl; eexists; eexists;
      (split; [reflexivity|]); eexists; (split; [reflexivity|]);
      split; reflexivity.
Qed.

(** [stopRecording] without a session answers [null] and changes
    nothing. *)
Lemma stopRecording_no_session b st :
  currentSession st = None -> stopRecording b st = (Ok None, st).
Proof. unfold stopRecording. now intros ->. Qed.

Lemma bool_decide_is_Some {A} (o : option A) :
  bool_decide (is_Some o) = match o with Some _ => true | None => false end.
Proof.
  destruct o; [apply bool_decide_eq_true_2; eauto|].
  apply bool_decide_eq_false_2. intros [x Hx]. discriminate.
Qed.

(** X6. [tabs.onUpdated] appends a step exactly when the session is
    recording, the tab is tracked, the status is "complete" and the tab
    has a non-empty url; the step is then a navigation step of that tab
    without element, stamped with the time since the session started,
    and the tracked list and annotations are unchanged.  In every other
    case the listener changes nothing. *)
Theorem onUpdated_records_finished_navigations (b : Browser) (tid : Z)
    (complete : bool) (tab : Tab) (st : State) (s : RecordingSession) :
  currentSession st = Some s ->
  (navigation_recorded s tid complete tab = false ->
     onUpdated b tid complete tab st = st)
  /\ (navigation_recorded s tid complete tab = true ->
        exists step s',
          onUpdated b tid complete tab st = set_session st s'
          /\ steps s' = steps s ++ [step]
          /\ type step = navigation
          /\ tabId step = tid
          /\ element step = None
          /\ inputValue step = None
          /\ timestamp step = Date_now b - startTime s
          /\ trackedTabIds s' = trackedTabIds s
          /\ annotations s' = annotations s
          /\ isRecording s' = true).
Proof.
  intros Hs. unfold navigation_recorded, onUpdated. rewrite Hs.
  rewrite bool_decide_is_Some.
  destruct (isRecording s) eqn:Hrec; simpl;
    [|split; [reflexivity|discriminate]].
  destruct (includes (trackedTabIds s) tid) eqn:Hinc; simpl;
    [|split; [reflexivity|discriminate]].
  destruct complete; simpl; [|split; [reflexivity|discriminate]].
  destruct (truthy_str (tab_url tab)) as [u|] eqn:Hu; simpl;
    [|split; [reflexivity|discriminate]].
  split; [discriminate|].
  intros _. unfold addStep. rewrite Hs, Hrec, Hinc. simpl.
  destruct (tabs_get b tid); simpl; eexists; eexists;
    (split; [reflexivity|]); simpl; repeat split; auto;
    destruct (_ =? 0); reflexivity.
Qed.

Lemma indexOf_none (l : list Z) (x : Z) :
  ~ In x l -> indexOf l x = -1.
Proof.
  induction l as [|y l IH]; simpl; intros H; [reflexivity|].
  destruct (Z.eqb_spec y x) as [->|_]; [exfalso; auto|].
  rewrite IH by auto. reflexivity.
Qed.

Lemma indexOf_split (pre : list Z) (x : Z) (post : list Z) :
  ~ In x pre ->
  indexOf (pre ++ x :: post) x = Z.of_nat (length pre)
  /\ splice1 (pre ++ x :: post) (length pre) = pre ++ post.
Proof.
  induction pre as [|y pre IH]; simpl; intros H.
  - now rewrite Z.eqb_refl.
  - destruct (Z.eqb_spec y x) as [->|_]; [exfalso; auto|].
    destruct IH as [IH1 IH2]; [auto|]. rewrite IH1, IH2.
    split; [|reflexivity].
    destruct (Z.eqb_spec (Z.of_nat (length pre)) (-1)); lia.
Qed.

(** X7. [tabs.onCreated] never touches the steps.  While recording, a
    new tab with a usable id joins the end of the tracked list when its
    opener is tracked, without a check that it is not listed already; a
    tab without usable id, without opener, or whose opener is not
    tracked, changes nothing, and neither does any tab when the session
    is not recording. *)
Theorem onCreated_tracks_tabs_opened_from_tracked (tab : Tab) (st : State)
    (s : RecordingSession) :
  currentSession st = Some s ->
  session_steps (onCreated tab st) = steps s
  /\ (isRecording s = false -> onCreated tab st = st)
  /\ (isRecording s = true ->
      (forall tid opener,
          truthy_num (tab_id tab) = Some tid ->
          truthy_num (tab_openerTabId tab) = Some opener ->
          In opener (trackedTabIds s) ->
          onCreated tab st
          = set_session st (with_trackedTabIds s (trackedTabIds s ++ [tid])))
      /\ (truthy_num (tab_id tab) = None
          \/ truthy_num (tab_openerTabId tab) = None
          \/ (exists opener, truthy_num (tab_openerTabId tab) = Some opener
                             /\ ~ In opener (trackedTabIds s)) ->
          onCreated tab st = st)).
Proof.
  intros Hs. unfold onCreated, session_steps. rewrite Hs. split; [|split].
  - destruct (negb (isRecording s)); [now rewrite Hs|].
    destruct (truthy_num (tab_id tab)); [|now rewrite Hs].
    destruct (truthy_num (tab_openerTabId tab)); [|now rewrite Hs].
    destruct (includes _ _); simpl; [reflexivity|now rewrite Hs].
  - now intros ->.
  - intros ->. simpl. split.
    + intros tid opener -> -> Hin.
      apply includes_In in Hin. now rewrite Hin.
    + intros [->|[H|(opener & H & Hnot)]]; [reflexivity| |].
      * rewrite H. now destruct (truthy_num (tab_id tab)).
      * rewrite H. destruct (truthy_num (tab_id tab)); [|reflexivity].
        destruct (includes (trackedTabIds s) opener) eqn:E; [|reflexivity].
        apply includes_In in E. contradiction.
Qed.


(** *** Invariants of the session *)

Lemma with_annotations_well_formed s l :
  well_formed s -> well_formed (with_annotations s l).
Proof. intros H. exact H. Qed.

Lemma with_trackedTabIds_well_formed s l :
  (isRecording s = true -> l <> []) ->
  well_formed s -> well_formed (with_trackedTabIds s l).
Proof.
  intros Hl (H1 & H2). split; simpl; auto.
  intros Hrec. split; [apply H1, Hrec|apply Hl, Hrec].
Qed.

Lemma push_tracked_nonempty (l : list Z) (tid : Z) :
  (if includes l tid then l else l ++ [tid]) <> [].
Proof.
  destruct (includes l tid) eqn:E.
  - apply includes_In in E. now destruct l.
  - now destruct l.
Qed.

Lemma addStep_coherent b ty data tid st :
  coherent st -> coherent (snd (addStep b ty data tid st)).
Proof.
  intros Hco. unfold addStep.
  destruct (currentSession st) as [s|] eqn:Hs; [|exact Hco].
  destruct (isRecording s) eqn:Hrec; simpl; [|exact Hco].
  destruct (Hco s Hs) as (H1 & H2).
  destruct (tabs_get b tid); simpl; intros s' [= <-];
    split; simpl;
    try (intros _; split; [apply H1, Hrec|apply push_tracked_nonempty]);
    discriminate.
Qed.

Lemma stopRecording_coherent b st : coherent (snd (stopRecording b st)).
Proof.
  unfold stopRecording, saveSessionMetadata.
  destruct (currentSession st) as [s|] eqn:Hs;
    [|simpl; intros s' H; congruence].
  simpl.
  destruct (storage_ok b); simpl; intros s' [= <-];
    split; simpl; try discriminate; eauto.
Qed.

Lemma splice1_nonempty_length {A} (l : list A) i :
  (Z.of_nat (length (splice1 l i)) =? 0) = false -> splice1 l i <> [].
Proof. destruct (splice1 l i); [discriminate|discriminate]. Qed.

Lemma handle_coherent b ev st : coherent st -> coherent (handle b ev st).
Proof.
  intros Hco.
  destruct ev as [message sender|tid complete tab|tab|tid]; simpl.
  - destruct message; simpl; try exact Hco.
    + unfold startRecording, startRecordingBegin, startRecordingPush,
        startRecordingReturn, saveSessionMetadata.
      destruct (head (tabs_query_active b)) as [tab|]; [|exact Hco].
      destruct (truthy_num (tab_id tab)) as [t|]; [|exact Hco]. simpl.
      destruct (storage_ok b); simpl; intros s' [= <-];
        split; simpl; try discriminate;
        intros _; (split; [reflexivity|discriminate]).
    + pose proof (stopRecording_coherent b st) as H.
      destruct (stopRecording b st) as [[r|e] st']; exact H.
    + destruct (truthy_num sender) as [tid|]; [|exact Hco].
      match goal with
      | |- context [addStep b ?ty ?data tid st] =>
          pose proof (addStep_coherent b ty data tid st Hco) as H;
          destruct (addStep b ty data tid st) as [r st']
      end. exact H.
    + destruct (truthy_num sender) as [tid|]; [|exact Hco].
      match goal with
      | |- context [addStep b ?ty ?data tid st] =>
          pose proof (addStep_coherent b ty data tid st Hco) as H;
          destruct (addStep b ty data tid st) as [r st']
      end. exact H.
    + unfold addAnnotation.
      destruct (currentSession st) as [s|] eqn:Hs; [|exact Hco]. simpl.
      intros s' [= <-]. apply with_annotations_well_formed, Hco, Hs.
    + unfold updateAnnotation.
      destruct (currentSession st) as [s|] eqn:Hs; [|exact Hco].
      destruct (assign_text_first _ _ _) as [[a l]|]; simpl; [|exact Hco].
      intros s' [= <-]. apply with_annotations_well_formed, Hco, Hs.
    + unfold deleteAnnotation.
      destruct (currentSession st) as [s|] eqn:Hs; [|exact Hco].
      destruct (negb _); simpl; [|exact Hco].
      intros s' [= <-]. apply with_annotations_well_formed, Hco, Hs.
    + destruct (truthy_num sender) as [tid|]; [|exact Hco].
      destruct (currentSession st) as [s|] eqn:Hs; [|discriminate].
      destruct (isRecording s) eqn:Hrec; simpl; intros s' [= <-].
      * apply with_trackedTabIds_well_formed; [|apply Hco, Hs].
        intros _. apply push_tracked_nonempty.
      * apply Hco, Hs.
  - unfold onUpdated.
    destruct (currentSession st) as [s|] eqn:Hs; [|exact Hco].
    destruct (negb (isRecording s)); [exact Hco|].
    destruct (negb (includes _ _)); [exact Hco|].
    destruct complete; [|exact Hco].
    destruct (truthy_str (tab_url tab)); [|exact Hco].
    apply addStep_coherent, Hco.
  - unfold onCreated.
    destruct (currentSession st) as [s|] eqn:Hs; [|exact Hco].
    destruct (negb (isRecording s)); [exact Hco|].
    destruct (truthy_num (tab_id tab)); [|exact Hco].
    destruct (truthy_num (tab_openerTabId tab)); [|exact Hco].
    destruct (includes _ _); simpl; [|exact Hco].
    intros s' [= <-].
    apply with_trackedTabIds_well_formed; [|apply Hco, Hs].
    intros _. now destruct (trackedTabIds s).
  - unfold onRemoved. simpl.
    destruct (currentSession st) as [s|] eqn:Hs; simpl;
      [|intros s' [=]].
    destruct (negb (isRecording s)); simpl;
      [intros s' [= <-]; apply Hco, Hs|].
    destruct (negb _); simpl; [|intros s' [= <-]; apply Hco, Hs].
    destruct (Z.of_nat _ =? 0) eqn:Hlen; simpl.
    + apply stopRecording_coherent.
    + intros s' [= <-].
      apply with_trackedTabIds_well_formed; [|apply Hco, Hs].
      intros _. now apply splice1_nonempty_length.
Qed.

Lemma run_coherent evs : forall st, coherent st -> coherent (run evs st).
Proof.
  induction evs as [|[b ev] evs IH]; intros st Hco; [exact Hco|].
  simpl. apply IH, handle_coherent, Hco.
Qed.

Lemma startup_coherent : coherent startup.
Proof. intros s. discriminate. Qed.

(** X9. Whatever messages and tab events the worker has handled since it
    was loaded, a session that is recording tracks at least one tab: the
    last tracked tab cannot disappear without the session being
    stopped. *)
Theorem recording_session_tracks_a_tab (evs : list (Browser * Event))
    (s : RecordingSession) :
  currentSession (run evs startup) = Some s ->
  isRecording s = true ->
  trackedTabIds s <> [].
Proof.
  intros Hs Hrec.
  destruct (run_coherent evs startup startup_coherent s Hs) as (H & _).
  apply H, Hrec.
Qed.

(** X10. Whatever the worker has handled since it was loaded, its
    session has an end time exactly when it is not recording. *)
Theorem endTime_set_exactly_when_stopped (evs : list (Browser * Event))
    (s : RecordingSession) :
  currentSession (run evs startup) = Some s ->
  (isRecording s = false <-> is_Some (endTime s)).
Proof.
  intros Hs.
  destruct (run_coherent evs startup startup_coherent s Hs) as (H1 & H2).
  split; [exact H2|].
  intros [t Ht]. destruct (isRecording s); [|reflexivity].
  destruct H1 as [H1 _]; [reflexivity|congruence].
Qed.

Lemma run_extends (evs : list (Browser * Event)) (st : State)
    (s : RecordingSession) :
  Forall (fun e => is_start (snd e) = false) evs ->
  currentSession st = Some s ->
  exists s', currentSession (run evs st) = Some s' /\ extends s s'.
Proof.
  intros Hevs. revert st s.
  induction Hevs as [|[b ev] evs Hev _ IH]; intros st s Hs; simpl.
  - exists s. split; [assumption|apply extends_refl].
  - simpl in Hev.
    destruct (handle_extends b ev st s Hev Hs) as (s1 & H1 & H2).
    destruct (IH _ _ H1) as (s' & H3 & H4).
    exists s'. split; [assumption|]. eapply extends_trans; eassumption.
Qed.

(** X11. [startRecording] publishes the session without a step and pushes
    the initial navigation step only when its awaits are over, onto the
    steps recorded since: whatever the worker handles in between (no other
    start of a recording), the session then holds the steps recorded
    meanwhile, in order, followed by the initial step.  The initial step
    is the first one exactly when nothing was recorded meanwhile. *)
Theorem initial_step_follows_steps_recorded_meanwhile (b b' : Browser)
    (ttl : string) (audio : bool) (st published : State) (activeTab : Tab)
    (tid : Z) (evs : list (Browser * Event)) :
  startRecordingBegin b ttl audio st = (Ok (activeTab, tid), published) ->
  Forall (fun e => is_start (snd e) = false) evs ->
  session_steps published = []
  /\ exists started initial,
       startRecordingPush b' activeTab tid (run evs published)
       = (Ok tt, started)
       /\ session_steps started
          = session_steps (run evs published) ++ [initial]
       /\ initial_navigation initial
       /\ tabId initial = tid.
Proof.
  intros Hbegin Hevs. unfold startRecordingBegin in Hbegin.
  destruct (head (tabs_query_active b)) as [tab|]; [|discriminate].
  destruct (truthy_num (tab_id tab)) as [t|]; [|discriminate].
  injection Hbegin as <- <- <-.
  split; [reflexivity|].
  match goal with
  | |- context [run evs (set_session st ?session)] =>
      destruct (run_extends evs (set_session st session) session Hevs eq_refl)
        as (s' & Hs' & _)
  end.
  unfold startRecordingPush, session_steps. rewrite Hs'.
  eexists. eexists. split; [reflexivity|]. simpl.
  split; [reflexivity|]. repeat split.
Qed.

(** *** The session index in storage *)

Lemma findIndex_nonneg_split {A} (p : A -> bool) (l : list A) :
  (findIndex p l = -1 /\ Forall (fun a => p a = false) l)
  \/ (exists pre a post,
        l = pre ++ a :: post
        /\ p a = true
        /\ Forall (fun a' => p a' = false) pre
        /\ findIndex p l = Z.of_nat (length pre)).
Proof.
  destruct (existsb p l) eqn:E.
  - right. apply existsb_exists in E.
    destruct (first_match_split p l E) as (pre & a & post & -> & Ha & Hpre).
    exists pre, a, post. repeat split; auto.
    now apply findIndex_split.
  - left. assert (H : Forall (fun a => p a = false) l).
    { apply Forall_forall. intros a Hin. apply list_elem_of_In in Hin.
      destruct (p a) eqn:Ha; [|reflexivity].
      rewrite <- E. symmetry. apply existsb_exists. eauto. }
    split; [now apply findIndex_none|exact H].
Qed.

(** X12. Saving a session keeps one entry per session in the stored
    index: if the index lists the session, its first entry for it is
    replaced in place by the current metadata and every other entry
    stays where it was; if not, the metadata is put in front.  Either
    way the list of ids has no new duplicate, and saving again changes
    nothing. *)
Theorem savedSessionIndex_one_entry_per_session (s : RecordingSession)
    (sessionIndex : list SessionMetadata) :
  (forall m, In m sessionIndex -> m_id m <> id s ->
             In m (savedSessionIndex s sessionIndex))
  /\ In (metadata s) (savedSessionIndex s sessionIndex)
  /\ m_id <$> savedSessionIndex s sessionIndex
     = (if bool_decide (id s ∈ m_id <$> sessionIndex)
        then m_id <$> sessionIndex
        else id s :: (m_id <$> sessionIndex))
  /\ (NoDup (m_id <$> sessionIndex) ->
      NoDup (m_id <$> savedSessionIndex s sessionIndex))
  /\ savedSessionIndex s (savedSessionIndex s sessionIndex)
     = savedSessionIndex s sessionIndex.
Proof.
  unfold savedSessionIndex.
  set (p := fun m => String.eqb (m_id m) (m_id (metadata s))).
  assert (Hids : m_id <$> savedSessionIndex s sessionIndex
                 = (if bool_decide (id s ∈ m_id <$> sessionIndex)
                    then m_id <$> sessionIndex
                    else id s :: (m_id <$> sessionIndex))).
  { unfold savedSessionIndex. fold p.
    destruct (findIndex_nonneg_split p sessionIndex)
      as [[Hi Hall]|(pre & a & post & -> & Ha & Hpre & Hi)]; rewrite Hi.
    - simpl. rewrite bool_decide_eq_false_2; [reflexivity|].
      intros Hin. apply list_elem_of_fmap in Hin as (m & Hm & Hin).
      rewrite Forall_forall in Hall. specialize (Hall m Hin).
      unfold p in Hall. apply String.eqb_neq in Hall. simpl in Hall.
      congruence.
    - destruct (Z.leb_spec 0 (Z.of_nat (length pre))); [|lia].
      rewrite Nat2Z.id.
      replace (length pre) with (length pre + 0)%nat by lia.
      rewrite insert_app_r. simpl.
      apply String.eqb_eq in Ha. simpl in Ha.
      rewrite bool_decide_eq_true_2.
      + rewrite !fmap_app. simpl. now rewrite Ha.
      + apply list_elem_of_fmap. exists a. split; [now rewrite Ha|].
        apply list_elem_of_In, in_or_app. right. now left. }
  fold p.
  destruct (findIndex_nonneg_split p sessionIndex)
    as [[Hi Hall]|(pre & a & post & -> & Ha & Hpre & Hi)].
  - rewrite Hi. simpl. split; [|split; [|split; [|split]]].
    + intros m Hin _. now right.
    + now left.
    + unfold savedSessionIndex in Hids. fold p in Hids.
      rewrite Hi in Hids. exact Hids.
    + intros Hnd. apply NoDup_cons. split; [|assumption].
      intros Hin. apply list_elem_of_fmap in Hin as (m & Hm & Hin).
      rewrite Forall_forall in Hall. specialize (Hall m Hin).
      unfold p in Hall. apply String.eqb_neq in Hall. simpl in Hall.
      congruence.
    + assert (Hm : p (metadata s) = true) by apply String.eqb_refl.
      simpl. rewrite Hm. reflexivity.
  - rewrite Hi.
    destruct (Z.leb_spec 0 (Z.of_nat (length pre))); [|lia].
    rewrite Nat2Z.id.
    assert (Hins : <[ length pre := metadata s ]> (pre ++ a :: post)
                   = pre ++ metadata s :: post).
    { replace (length pre) with (length pre + 0)%nat at 1 by lia.
      now rewrite insert_app_r. }
    rewrite Hins.
    split; [|split; [|split; [|split]]].
    + intros m Hin Hne. apply in_app_or in Hin as [Hin|[<-|Hin]].
      * apply in_or_app. now left.
      * apply String.eqb_eq in Ha. simpl in Ha. congruence.
      * apply in_or_app. right. now right.
    + apply in_or_app. right. now left.
    + unfold savedSessionIndex in Hids. fold p in Hids.
      rewrite Hi in Hids.
      destruct (Z.leb_spec 0 (Z.of_nat (length pre))); [|lia].
      rewrite Nat2Z.id, Hins in Hids. exact Hids.
    + apply String.eqb_eq in Ha. simpl in Ha.
      rewrite !fmap_app. simpl. now rewrite Ha.
    + assert (Hm : p (metadata s) = true) by apply String.eqb_refl.
      destruct (findIndex_split p pre (metadata s) post Hpre Hm) as [Hi' _].
      rewrite Hi'.
      destruct (Z.leb_spec 0 (Z.of_nat (length pre))); [|lia].
      rewrite Nat2Z.id.
      replace (length pre) with (length pre + 0)%nat at 1 by lia.
      now rewrite insert_app_r.
Qed.

End OrchestratorFurtherProperties.

Section OrchestratorFurtherWitnesses.
Import Examples Scenarios.

Lemma session_persists_steps_append_only_witness :
  Forall (fun e => is_start (snd e) = false)
    [(exampleBrowser, Background.Message (CLICK_EVENT submitClick) (Some 9));
     (exampleBrowser, Background.TabRemoved 7)]
  /\ exists s',
       Background.currentSession
         (Background.run
            [(exampleBrowser,
              Background.Message (CLICK_EVENT submitClick) (Some 9));
             (exampleBrowser, Background.TabRemoved 7)]
            recording) = Some s'
       /\ extends loginFlow s'.
Proof.
  assert (H : Forall (fun e => is_start (snd e) = false)
                [(exampleBrowser,
                  Background.Message (CLICK_EVENT submitClick) (Some 9));
                 (exampleBrowser, Background.TabRemoved 7)])
    by (repeat constructor).
  split; [exact H|].
  exact (session_persists_steps_append_only _ recording H).
Defined.

Lemma addStep_survives_browser_failures_witness :
  (Background.currentSession recording = Some loginFlow
   /\ isRecording loginFlow = true)
  /\ exists step,
       fst (Background.addStep noTabBrowser click
              {| Background.d_timestamp := Some 1200;
                 Background.d_element := Some submitButton;
                 Background.d_inputValue := None;
                 Background.d_isSensitive := None;
                 Background.d_url := Some "https://example.com/" |}
              7 recording) = Some step
       /\ tabTitle step = "Unknown"
       /\ url step = "https://example.com/"
       /\ screenshotData step = None
       /\ timestamp step = 1200.
Proof.
  split; [split; reflexivity|].
  destruct (addStep_survives_browser_failures noTabBrowser click
              {| Background.d_timestamp := Some 1200;
                 Background.d_element := Some submitButton;
                 Background.d_inputValue := None;
                 Background.d_isSensitive := None;
                 Background.d_url := Some "https://example.com/" |}
              7 recording loginFlow eq_refl eq_refl)
    as (step & Hstep & _ & Hfail & _ & Hts).
  destruct (Hfail eq_refl) as (H1 & H2 & H3).
  exists step. repeat split; assumption.
Defined.

Lemma deleteAnnotation_frame_witness :
  Background.currentSession annotated
  = Some (Background.with_annotations loginFlow
            [note "ann_1" "first"; note "ann_2" "second"])
  /\ (exists pre a post,
         [note "ann_1" "first"; note "ann_2" "second"] = pre ++ a :: post
         /\ ann_id a = "ann_2"
         /\ Background.deleteAnnotation "ann_2" annotated
            = (true,
               Background.set_session annotated
                 (Background.with_annotations
                    (Background.with_annotations loginFlow
                       [note "ann_1" "first"; note "ann_2" "second"])
                    (pre ++ post))))
  /\ Background.deleteAnnotation "ann_9" annotated = (false, annotated).
Proof.
  split; [reflexivity|].
  destruct (deleteAnnotation_frame "ann_2" annotated _ eq_refl) as [Hk _].
  destruct (deleteAnnotation_frame "ann_9" annotated _ eq_refl) as [_ Hu].
  split.
  - destruct Hk as (pre & a & post & E & Ha & _ & Hdel).
    + exists (note "ann_2" "second"). split; [right; now left|reflexivity].
    + exists pre, a, post. repeat split; assumption.
  - apply Hu. intros a [<-|[<-|[]]]; discriminate.
Defined.

Lemma addAnnotation_then_delete_witness :
  (Background.currentSession recording = Some loginFlow
   /\ forall a, In a (annotations loginFlow) ->
                ann_id a <> Background.generateUniqueId exampleBrowser "ann_")
  /\ exists a st1,
       Background.addAnnotation exampleBrowser "Enter the password" 1200
         recording = (Some a, st1)
       /\ Background.deleteAnnotation (ann_id a) st1 = (true, recording).
Proof.
  assert (H : forall a, In a (annotations loginFlow) ->
                ann_id a <> Background.generateUniqueId exampleBrowser "ann_")
    by (intros a []).
  split; [split; [reflexivity|exact H]|].
  destruct (addAnnotation_then_delete exampleBrowser "Enter the password"
              1200 recording loginFlow eq_refl H)
    as (a & st1 & Hadd & _ & _ & _ & Hdel).
  exists a, st1. split; assumption.
Defined.

Lemma stopRecording_finalizes_witness :
  Background.currentSession recording = Some loginFlow
  /\ exists s',
       Background.currentSession
         (snd (Background.stopRecording exampleBrowser recording)) = Some s'
       /\ isRecording s' = false
       /\ endTime s' = Some 5000
       /\ steps s' = [firstStep].
Proof.
  split; [reflexivity|].
  destruct (stopRecording_finalizes exampleBrowser recording loginFlow eq_refl)
    as (s' & H1 & H2 & H3 & H4 & _).
  exists s'. repeat split; assumption.
Defined.

Lemma onUpdated_records_finished_navigations_witness :
  Background.currentSession recording = Some loginFlow
  /\ Background.onUpdated exampleBrowser 9 true (exampleTab 9) recording
     = recording
  /\ exists step s',
       Background.onUpdated exampleBrowser 7 true (exampleTab 7) recording
       = Background.set_session recording s'
       /\ steps s' = [firstStep; step]
       /\ type step = navigation
       /\ tabId step = 7.
Proof.
  split; [reflexivity|].
  destruct (onUpdated_records_finished_navigations exampleBrowser 9 true
              (exampleTab 9) recording loginFlow eq_refl) as [Hno _].
  destruct (onUpdated_records_finished_navigations exampleBrowser 7 true
              (exampleTab 7) recording loginFlow eq_refl) as [_ Hyes].
  split; [apply Hno; reflexivity|].
  destruct (Hyes eq_refl) as (step & s' & H1 & H2 & H3 & H4 & _).
  exists step, s'. repeat split; assumption.
Defined.

Lemma onCreated_tracks_tabs_opened_from_tracked_witness :
  Background.currentSession recording = Some loginFlow
  /\ Background.onCreated childTab recording
     = Background.set_session recording
         (Background.with_trackedTabIds loginFlow [7; 8])
  /\ Background.onCreated (exampleTab 8) recording = recording.
Proof.
  split; [reflexivity|].
  destruct (onCreated_tracks_tabs_opened_from_tracked childTab recording
              loginFlow eq_refl) as (_ & _ & Hrec).
  destruct (onCreated_tracks_tabs_opened_from_tracked (exampleTab 8) recording
              loginFlow eq_refl) as (_ & _ & Hrec').
  split.
  - destruct (Hrec eq_refl) as [Hadd _].
    apply (Hadd 8 7); [reflexivity|reflexivity|now left].
  - destruct (Hrec' eq_refl) as [_ Hsame].
    apply Hsame. right. left. reflexivity.
Defined.


Lemma recording_session_tracks_a_tab_witness :
  (Background.currentSession (Background.run startLoginFlow startup)
   = Some loginFlow
   /\ isRecording loginFlow = true)
  /\ trackedTabIds loginFlow <> [].
Proof.
  split; [split; reflexivity|].
  exact (recording_session_tracks_a_tab startLoginFlow loginFlow
           eq_refl eq_refl).
Defined.

Lemma endTime_set_exactly_when_stopped_witness :
  Background.currentSession (Background.run startLoginFlow startup)
  = Some loginFlow
  /\ (isRecording loginFlow = false <-> is_Some (endTime loginFlow)).
Proof.
  split; [reflexivity|].
  exact (endTime_set_exactly_when_stopped startLoginFlow loginFlow eq_refl).
Defined.

Lemma initial_step_follows_steps_recorded_meanwhile_witness :
  (Background.startRecordingBegin exampleBrowser "Login flow" false idle
   = (Ok (exampleTab 7, 7), publishedLogin)
   /\ Forall (fun e => is_start (snd e) = false) pageLoaded)
  /\ exists started initial,
       Background.startRecordingPush capturedBrowser (exampleTab 7) 7
         (Background.run pageLoaded publishedLogin)
       = (Ok tt, started)
       /\ Background.session_steps started
          = Background.session_steps (Background.run pageLoaded publishedLogin)
            ++ [initial]
       /\ length (Background.session_steps started) = 2%nat
       /\ initial_navigation initial.
Proof.
  assert (H1 : Background.startRecordingBegin exampleBrowser "Login flow"
                 false idle
               = (Ok (exampleTab 7, 7), publishedLogin)) by reflexivity.
  assert (H2 : Forall (fun e => is_start (snd e) = false) pageLoaded)
    by (repeat constructor).
  split; [split; assumption|].
  destruct (initial_step_follows_steps_recorded_meanwhile exampleBrowser
              capturedBrowser "Login flow" false idle publishedLogin
              (exampleTab 7) 7 pageLoaded H1 H2)
    as (_ & started & initial & Hpush & Hsteps & Hinit & _).
  exists started, initial. split; [exact Hpush|]. split; [exact Hsteps|].
  split; [|exact Hinit]. rewrite Hsteps. reflexivity.
Defined.

Lemma savedSessionIndex_one_entry_per_session_witness :
  NoDup (Background.m_id <$> storedIndex)
  /\ Background.m_id <$> Background.savedSessionIndex loginFlow storedIndex
     = Background.m_id <$> storedIndex
  /\ In (Background.metadata loginFlow)
       (Background.savedSessionIndex loginFlow storedIndex)
  /\ NoDup (Background.m_id
            <$> Background.savedSessionIndex loginFlow storedIndex).
Proof.
  assert (H : NoDup (Background.m_id <$> storedIndex)).
  { apply (bool_decide_unpack _). vm_compute. exact I. }
  split; [exact H|].
  destruct (savedSessionIndex_one_entry_per_session loginFlow storedIndex)
    as (_ & Hin & Hids & Hnd & _).
  split; [|split; [exact Hin|exact (Hnd H)]].
  rewrite Hids, bool_decide_eq_true_2; [reflexivity|].
  apply (bool_decide_unpack _). vm_compute. exact I.
Defined.

End OrchestratorFurtherWitnesses.

(** ** Selector generator *)

Section SelectorFurtherProperties.
Import Dom SelectorGenerator.

Lemma tryAttributes_unique doc element attrs selector :
  tryAttributes doc element attrs = Some selector ->
  isUnique doc selector = true.
Proof.
  induction attrs as [|attr attrs IH]; simpl; [discriminate|].
  destruct (getAttribute element attr) as [value|]; [|exact IH].
  destruct (nonempty value); simpl; [|exact IH].
  destruct (isUnique doc (attributeSelector attr value)) eqn:E; [|exact IH].
  now intros [= <-].
Qed.

Lemma firstUnique_unique doc candidates selector :
  firstUnique doc candidates = Some selector -> isUnique doc selector = true.
Proof.
  induction candidates as [|c candidates IH]; simpl; [discriminate|].
  destruct (isUnique doc c) eqn:E; [now intros [= <-]|exact IH].
Qed.

Lemma tryClassSelector_unique doc element selector :
  tryClassSelector doc element = Some selector ->
  isUnique doc selector = true.
Proof.
  unfold tryClassSelector.
  destruct (firstUnique doc _) as [s|] eqn:E.
  - intros [= <-]. eapply firstUnique_unique, E.
  - destruct (_ <=? _)%nat; [|discriminate].
    match goal with
    | |- context [isUnique doc ?s] => destruct (isUnique doc s) eqn:Eu
    end; [|discriminate].
    now intros [= <-].
Qed.

Lemma tryIdSelector_unique doc element selector :
  tryIdSelector doc element = Ok (Some selector) ->
  isUnique doc selector = true.
Proof.
  unfold tryIdSelector, isUniqueId, isUnique.
  destruct (nonempty (id element)); [|discriminate].
  destruct (querySelectorAll doc ("#" +:+ CSS_escape (id element)))
    as [r|] eqn:E; simpl; [|discriminate].
  destruct (Nat.eqb (length r) 1) eqn:El; [|discriminate].
  intros [= <-]. now rewrite E.
Qed.

(** X13. Whatever [generateSelector] returns before its last resort is
    unique on the page: the selector either matches exactly one element
    of the document, or it is the full path that [buildFullPathSelector]
    builds, which is returned without a check. *)
Theorem generateSelector_unique_or_full_path (doc : Document)
    (element : Element) (selector : string) :
  generateSelector doc element = Ok selector ->
  isUnique doc selector = true
  \/ buildFullPathSelector doc element = Ok selector.
Proof.
  rewrite generateSelector_tiers. intros H.
  apply bind_Ok in H as ([s|] & Hid & H).
  - injection H as <-. left. eapply tryIdSelector_unique, Hid.
  - unfold afterIdSelector in H.
    destruct (tryAttributeSelector doc element) as [s|] eqn:Ha.
    { injection H as <-. left. eapply tryAttributes_unique, Ha. }
    destruct (tryClassSelector doc element) as [s|] eqn:Hc.
    { injection H as <-. left. eapply tryClassSelector_unique, Hc. }
    unfold pathSelectorOrFullPath in H.
    apply bind_Ok in H as ([[ancestor path]|] & Hnear & H); [|now right].
    apply bind_Ok in H as (pathSelector & Hpath & H).
    destruct (isUnique doc pathSelector) eqn:Eu; [|now right].
    injection H as <-. now left.
Qed.

Lemma fullPathFrom_root doc element path :
  is_root doc element = true -> fullPathFrom doc element path = Ok path.
Proof.
  unfold is_root. intros H. destruct element as [h t i a c ch p].
  simpl in *. now rewrite H.
Qed.

Lemma nearestIdAncestorFrom_root doc element path :
  is_root doc element = true ->
  nearestIdAncestorFrom doc element path = Ok None.
Proof.
  unfold is_root. intros H. destruct element as [h t i a c ch p].
  simpl in *. now rewrite H.
Qed.

(** X14. For [document.body] and the root element the full path is the
    empty string; so when none of the first three tiers yields a
    selector for such an element (and its parent, if any, is the root),
    [generateSelector] returns the empty string, which is no selector. *)
Theorem generateSelector_of_body_is_empty (doc : Document)
    (element : Element) :
  is_root doc element = true ->
  buildFullPathSelector doc element = Ok EmptyString
  /\ (tryIdSelector doc element = Ok None ->
      tryAttributeSelector doc element = None ->
      tryClassSelector doc element = None ->
      (forall parent, parentElement element = Some parent ->
                      is_root doc parent = true) ->
      generateSelector doc element = Ok EmptyString).
Proof.
  intros Hroot.
  assert (Hfull : buildFullPathSelector doc element = Ok EmptyString).
  { unfold buildFullPathSelector.
    now rewrite (fullPathFrom_root _ _ _ Hroot). }
  split; [exact Hfull|].
  intros Hid Ha Hc Hparent.
  rewrite generateSelector_tiers, Hid. simpl.
  unfold afterIdSelector. rewrite Ha, Hc.
  unfold pathSelectorOrFullPath, findNearestIdAncestor.
  destruct (parentElement element) as [parent|] eqn:Hp; simpl;
    [|exact Hfull].
  rewrite (nearestIdAncestorFrom_root _ _ _ (Hparent parent eq_refl)).
  exact Hfull.
Qed.

Lemma indexOfChild_none l h :
  Forall (fun c => child_handle c <> h) l -> indexOfChild l h = -1.
Proof.
  induction 1 as [|c l Hc _ IH]; simpl; [reflexivity|].
  destruct (Nat.eqb_spec (child_handle c) h); [contradiction|].
  now rewrite IH.
Qed.

Lemma indexOfChild_split pre c post h :
  Forall (fun c' => child_handle c' <> h) pre ->
  child_handle c = h ->
  indexOfChild (pre ++ c :: post) h = Z.of_nat (length pre).
Proof.
  intros Hpre Hc. induction Hpre as [|x pre Hx _ IH]; simpl.
  - now rewrite Hc, Nat.eqb_refl.
  - destruct (Nat.eqb_spec (child_handle x) h); [contradiction|].
    rewrite IH.
    destruct (Z.eqb_spec (Z.of_nat (length pre)) (-1)); lia.
Qed.

(** X15. For an element listed among the children of its parent,
    [getNthOfTypePosition] is one more than the number of children with
    the same tag name in front of it, and [getNthChildPosition] one more
    than the number of children in front of it; both are at least 1.
    For an element that its parent does not list, both are 0. *)
Theorem positions_count_siblings_in_front (element parent : Element) :
  parentElement element = Some parent ->
  (forall pre c post,
      children parent = pre ++ c :: post ->
      child_handle c = handle element ->
      child_tagName c = tagName element ->
      Forall (fun c' => child_handle c' <> handle element) pre ->
      getNthOfTypePosition element
      = Z.of_nat
          (length (filter (fun c' => child_tagName c' = tagName element)
                     pre)) + 1
      /\ getNthChildPosition element = Z.of_nat (length pre) + 1
      /\ 1 <= getNthOfTypePosition element <= getNthChildPosition element)
  /\ (Forall (fun c => child_handle c <> handle element) (children parent) ->
      getNthOfTypePosition element = 0
      /\ getNthChildPosition element = 0).
Proof.
  intros Hp. unfold getNthOfTypePosition, getNthChildPosition. rewrite Hp.
  split.
  - intros pre c post E Hc Htag Hpre.
    assert (Htype : indexOfChild
                      (filter (fun el => child_tagName el = tagName element)
                         (children parent)) (handle element)
                    = Z.of_nat
                        (length
                           (filter
                              (fun c' => child_tagName c' = tagName element)
                              pre))).
    { rewrite E, filter_app, filter_cons_True by exact Htag.
      apply indexOfChild_split; [|exact Hc].
      apply Forall_forall. intros x Hx.
      apply list_elem_of_filter in Hx as [_ Hx].
      rewrite Forall_forall in Hpre. now apply Hpre. }
    rewrite Htype, E, (indexOfChild_split pre c post _ Hpre Hc).
    split; [reflexivity|]. split; [reflexivity|].
    pose proof (length_filter
                  (fun c' => child_tagName c' = tagName element) pre). lia.
  - intros Hall. rewrite (indexOfChild_none _ _ Hall).
    rewrite indexOfChild_none; [split; reflexivity|].
    apply Forall_forall. intros x Hx.
    apply list_elem_of_filter in Hx as [_ Hx].
    rewrite Forall_forall in Hall. now apply Hall.
Qed.

Lemma nearestIdAncestorFrom_spec doc current : forall path r,
  nearestIdAncestorFrom doc current path = Ok r ->
  match r with
  | Some (ancestor, found) =>
      exists pushed rest,
        inner_from doc current = pushed ++ ancestor :: rest
        /\ found = rev (path ++ pushed)
        /\ has_unique_id doc ancestor = Ok true
        /\ Forall (fun x => has_unique_id doc x = Ok false) pushed
  | None => Forall (fun x => has_unique_id doc x = Ok false)
              (inner_from doc current)
  end.
Proof.
  induction current as [h t i a c ch|h t i a c ch parent IH]
    using Element_ancestors_ind; intros path r;
    cbn [nearestIdAncestorFrom inner_from]; unfold is_root;
    cbn [handle]; (destruct (_ || _); [intros [= <-]; constructor|]);
    intros H; apply bind_Ok in H as ([] & Hu & H).
  - injection H as <-. exists [], []. repeat split; auto.
    now rewrite app_nil_r.
  - injection H as <-. repeat constructor. exact Hu.
  - injection H as <-. exists [], (inner_from doc parent).
    repeat split; auto. now rewrite app_nil_r.
  - specialize (IH _ _ H). destruct r as [[ancestor found]|].
    + destruct IH as (pushed & rest & E & Hf & Hanc & Hpushed).
      eexists (_ :: pushed), rest. rewrite E. split; [reflexivity|].
      split; [now rewrite Hf, <- app_assoc|].
      split; [exact Hanc|]. constructor; [exact Hu|exact Hpushed].
    + constructor; [exact Hu|exact IH].
Qed.

(** X16. [findNearestIdAncestor] returns the nearest ancestor below the
    body that has a non-empty id matched by exactly one element,
    together with the ancestors between it and the element, outermost
    first, none of which has such an id; it returns nothing exactly when
    no ancestor below the body has one. *)
Theorem findNearestIdAncestor_nearest (doc : Document) (element : Element)
    (r : option (Element * list Element)) :
  findNearestIdAncestor doc element = Ok r ->
  match r with
  | Some (ancestor, path) =>
      exists rest,
        inner_ancestors doc element = rev path ++ ancestor :: rest
        /\ has_unique_id doc ancestor = Ok true
        /\ Forall (fun x => has_unique_id doc x = Ok false) path
  | None =>
      Forall (fun x => has_unique_id doc x = Ok false)
        (inner_ancestors doc element)
  end.
Proof.
  unfold findNearestIdAncestor, inner_ancestors.
  destruct (parentElement element) as [parent|];
    [|intros [= <-]; constructor].
  intros H. apply nearestIdAncestorFrom_spec in H.
  destruct r as [[ancestor found]|]; [|exact H].
  destruct H as (pushed & rest & E & Hf & Hanc & Hpushed).
  simpl in Hf. subst found. exists rest. rewrite rev_involutive.
  split; [exact E|]. split; [exact Hanc|].
  apply Forall_forall. intros x Hx. rewrite Forall_forall in Hpushed.
  apply Hpushed. apply list_elem_of_In. apply list_elem_of_In in Hx.
  now apply in_rev.
Qed.

(** X17. The attribute tier goes through the stable attributes in their
    order of priority: the selector it returns is built from the first
    of them that the element carries with a non-empty value and whose
    selector matches exactly one element; every attribute tried before
    it was absent, empty or not unique. *)
Theorem tryAttributeSelector_first_unique_attribute (doc : Document)
    (element : Element) (selector : string) :
  tryAttributeSelector doc element = Some selector ->
  exists before attr after value,
    STABLE_ATTRIBUTES = before ++ attr :: after
    /\ getAttribute element attr = Some value
    /\ nonempty value = true
    /\ selector = attributeSelector attr value
    /\ isUnique doc selector = true
    /\ Forall (fun a =>
                 forall v, getAttribute element a = Some v ->
                           nonempty v = true ->
                           isUnique doc (attributeSelector a v) = false)
         before.
Proof.
  unfold tryAttributeSelector.
  generalize STABLE_ATTRIBUTES as attrs.
  induction attrs as [|attr attrs IH]; simpl; [discriminate|].
  destruct (getAttribute element attr) as [value|] eqn:Hv.
  - destruct (nonempty value) eqn:Hn; simpl.
    + destruct (isUnique doc (attributeSelector attr value)) eqn:Hu.
      * intros [= <-]. exists [], attr, attrs, value. repeat split; auto.
      * intros H. destruct (IH H) as (before & a & after & v & -> & G).
        exists (attr :: before), a, after, v.
        destruct G as (G1 & G2 & G3 & G4 & G5).
        repeat split; auto. constructor; [|exact G5].
        intros v' Hv' _. rewrite Hv in Hv'. injection Hv' as <-. exact Hu.
    + intros H. destruct (IH H) as (before & a & after & v & -> & G).
      exists (attr :: before), a, after, v.
      destruct G as (G1 & G2 & G3 & G4 & G5).
      repeat split; auto. constructor; [|exact G5].
      intros v' Hv' Hn'. rewrite Hv in Hv'. injection Hv' as <-. congruence.
  - intros H. destruct (IH H) as (before & a & after & v & -> & G).
    exists (attr :: before), a, after, v.
    destruct G as (G1 & G2 & G3 & G4 & G5).
    repeat split; auto. constructor; [|exact G5].
    intros v' Hv'. rewrite Hv in Hv'. discriminate.
Qed.

End SelectorFurtherProperties.

Section SelectorFurtherWitnesses.
Import Dom SelectorGenerator Examples SelectorScenarios.

Lemma generateSelector_unique_or_full_path_witness :
  generateSelector formPage secondInput
  = Ok "#login > div:nth-of-type(1) > input:nth-of-type(2)"
  /\ (isUnique formPage "#login > div:nth-of-type(1) > input:nth-of-type(2)"
      = true
      \/ buildFullPathSelector formPage secondInput
         = Ok "#login > div:nth-of-type(1) > input:nth-of-type(2)").
Proof.
  assert (H : generateSelector formPage secondInput
              = Ok "#login > div:nth-of-type(1) > input:nth-of-type(2)")
    by (vm_compute; reflexivity).
  split; [exact H|].
  exact (generateSelector_unique_or_full_path formPage secondInput _ H).
Defined.

Lemma generateSelector_of_body_is_empty_witness :
  is_root dupPage dupBody = true
  /\ buildFullPathSelector dupPage dupBody = Ok EmptyString
  /\ generateSelector dupPage dupBody = Ok EmptyString.
Proof.
  assert (H : is_root dupPage dupBody = true) by reflexivity.
  split; [exact H|].
  destruct (generateSelector_of_body_is_empty dupPage dupBody H)
    as [Hfull Hgen].
  split; [exact Hfull|].
  apply Hgen; try reflexivity.
  intros parent [= <-]. reflexivity.
Defined.

Lemma positions_count_siblings_in_front_witness :
  parentElement secondInput = Some formRow
  /\ getNthOfTypePosition secondInput = 2
  /\ getNthChildPosition secondInput = 3.
Proof.
  split; [reflexivity|].
  destruct (positions_count_siblings_in_front secondInput formRow eq_refl)
    as [Hlisted _].
  destruct (Hlisted
              [{| child_handle := 4; child_tagName := "LABEL" |};
               {| child_handle := 5; child_tagName := "INPUT" |}]
              {| child_handle := 6; child_tagName := "INPUT" |} []
              eq_refl eq_refl eq_refl) as (H1 & H2 & _).
  - repeat constructor; simpl; discriminate.
  - split; [exact H1|exact H2].
Defined.

Lemma findNearestIdAncestor_nearest_witness :
  findNearestIdAncestor formPage secondInput = Ok (Some (loginForm, [formRow]))
  /\ exists rest,
       inner_ancestors formPage secondInput
       = rev [formRow] ++ loginForm :: rest
       /\ has_unique_id formPage loginForm = Ok true.
Proof.
  assert (H : findNearestIdAncestor formPage secondInput
              = Ok (Some (loginForm, [formRow]))) by reflexivity.
  split; [exact H|].
  destruct (findNearestIdAncestor_nearest formPage secondInput _ H)
    as (rest & H1 & H2 & _).
  exists rest. split; assumption.
Defined.

Lemma tryAttributeSelector_first_unique_attribute_witness :
  tryAttributeSelector dupPage dupDiv
  = Some (attributeSelector "data-testid" "first")
  /\ exists before attr after value,
       STABLE_ATTRIBUTES = before ++ attr :: after
       /\ getAttribute dupDiv attr = Some value
       /\ attributeSelector "data-testid" "first"
          = attributeSelector attr value.
Proof.
  assert (H : tryAttributeSelector dupPage dupDiv
              = Some (attributeSelector "data-testid" "first"))
    by reflexivity.
  split; [exact H|].
  destruct (tryAttributeSelector_first_unique_attribute dupPage dupDiv _ H)
    as (before & attr & after & value & H1 & H2 & _ & H4 & _).
  exists before, attr, after, value. repeat split; assumption.
Defined.

End SelectorFurtherWitnesses.

(** ** Classifier, input handler and content script *)

Section ClassifierProperties.
Import Field SensitiveFields.

(** X18. [getSensitiveReason] explains exactly the fields that
    [isSensitiveField] flags: it returns a reason if and only if the
    field is classified as sensitive, it returns none if and only if the
    field is classified as not sensitive, and it throws what the
    classifier throws, in the lookup of the explicit label. *)
Theorem getSensitiveReason_agrees (element : Element) :
  (isSensitiveField element = Ok true
   <-> exists reason, getSensitiveReason element = Ok (Some reason))
  /\ (isSensitiveField element = Ok false
      <-> getSensitiveReason element = Ok None)
  /\ (forall e,
        isSensitiveField element = Throw e
        <-> getSensitiveReason element = Throw e).
Proof.
  unfold isSensitiveField, getSensitiveReason.
  repeat match goal with
         | |- context [if ?c then _ else _] => destruct c
         end;
    try (destruct (hasSensitiveLabel element) as [[|]|e0]; simpl;
         repeat match goal with
                | |- context [if ?c then _ else _] => destruct c
                end);
    (split; [|split; [|intros e]]); split;
    try (intros [reason H]); try (intros H);
    try discriminate; try reflexivity; eauto; congruence.
Qed.

Lemma test_literal (pattern : Pattern) literal s :
  In literal pattern -> Dom.contains literal s = true ->
  test pattern s = true.
Proof.
  intros Hin Hc. unfold test. apply existsb_exists. eauto.
Qed.

(** X19. An input or textarea whose name or id contains, in any letter
    case, one of the words of the name patterns anywhere in it ("pin" as
    in "shipping", "token", "otp", ...) is classified as sensitive, so
    that its value is recorded as the mask, whatever else is known
    about the field. *)
Theorem name_containing_a_sensitive_word_is_masked (element : Element)
    (pattern : Pattern) (literal : string) :
  isInput element || isTextArea element = true ->
  In pattern SENSITIVE_NAME_PATTERNS ->
  In literal pattern ->
  Dom.contains literal (Dom.toLowerCase (name element)) = true
  \/ Dom.contains literal (Dom.toLowerCase (id element)) = true ->
  isSensitiveField element = Ok true
  /\ forall value, getRecordableValue element value = Ok ("********", true).
Proof.
  intros Hkind Hp Hl Hc.
  assert (Hname : hasSensitiveNameOrId element = true).
  { unfold hasSensitiveNameOrId. apply existsb_exists.
    exists pattern. split; [exact Hp|].
    apply orb_true_iff.
    destruct Hc as [Hc|Hc]; [left|right]; eapply test_literal; eauto. }
  assert (Hs : isSensitiveField element = Ok true).
  { unfold isSensitiveField. rewrite Hname.
    destruct (isInput element), (isTextArea element); try discriminate;
      simpl;
      repeat match goal with
             | |- context [if ?c then _ else _] => destruct c
             end; reflexivity. }
  split; [exact Hs|].
  intros value. unfold getRecordableValue. now rewrite Hs.
Qed.

End ClassifierProperties.

Section InputHandlerFurtherProperties.
Import Field SensitiveFields InputHandler.

Variable getElementInfo : Element -> Exc ElementInfo.
Variable href : string.

#[local] Abbreviation recordInputChange :=
  (InputHandler.recordInputChange getElementInfo href).
#[local] Abbreviation recordInputChangeThrowing :=
  (InputHandler.recordInputChangeThrowing getElementInfo href).
#[local] Abbreviation handleInputEvent :=
  (InputHandler.handleInputEvent getElementInfo href).
#[local] Abbreviation handleBlurEvent :=
  (InputHandler.handleBlurEvent getElementInfo href).
#[local] Abbreviation debounceCallback :=
  (InputHandler.debounceCallback getElementInfo href).
#[local] Abbreviation flushPendingInputs :=
  (InputHandler.flushPendingInputs getElementInfo href).
#[local] Abbreviation flushPendingInputsThrowing :=
  (InputHandler.flushPendingInputsThrowing getElementInfo href).
#[local] Abbreviation flushEntries :=
  (InputHandler.flushEntries getElementInfo href).
#[local] Abbreviation fireDue := (InputHandler.fireDue getElementInfo href).
#[local] Abbreviation dispatch := (InputHandler.dispatch getElementInfo href).
#[local] Abbreviation runPage := (InputHandler.runPage getElementInfo href).

(** The four ways a commit can go. *)
Lemma commitMessages_cases start now st element :
  (forall value isSensitive info,
     currentValue element st = Ok (value, isSensitive) ->
     lastRecordedValues st !! handle element <> Some value ->
     getElementInfo element = Ok info ->
     commitMessages getElementInfo href start now st element
     = [{| ie_element := info;
           ie_value := value;
           ie_isSensitive := isSensitive;
           ie_url := href;
           ie_timestamp := now - start |}])
  /\ (forall value isSensitive,
        currentValue element st = Ok (value, isSensitive) ->
        lastRecordedValues st !! handle element = Some value ->
        commitMessages getElementInfo href start now st element = [])
  /\ (forall e,
        getElementInfo element = Throw e ->
        commitMessages getElementInfo href start now st element = [])
  /\ (forall e,
        currentValue element st = Throw e ->
        commitMessages getElementInfo href start now st element = []).
Proof.
  unfold commitMessages. repeat split.
  - intros value isSensitive info -> Hnew ->.
    now rewrite bool_decide_eq_false_2.
  - intros value isSensitive -> Hsame. now rewrite bool_decide_eq_true_2.
  - intros e ->. destruct (currentValue element st) as [[value flag]|e'];
      [|reflexivity]. now destruct (bool_decide _).
  - now intros e ->.
Qed.

(** What a commit sends and records depends on the state only through the
    value of the element and the value last recorded for it. *)
Lemma commit_agrees st st' element :
  values st' = values st ->
  lastRecordedValues st' !! handle element
  = lastRecordedValues st !! handle element ->
  (forall start now,
     commitMessages getElementInfo href start now st' element
     = commitMessages getElementInfo href start now st element)
  /\ commitOutcome getElementInfo st' element
     = commitOutcome getElementInfo st element.
Proof.
  intros Hval Hlast. unfold commitMessages, commitOutcome.
  rewrite (currentValue_values element st st' Hval), Hlast. auto.
Qed.

Lemma commitRecorded_other st element element' :
  handle element' <> handle element ->
  commitRecorded st element !! handle element'
  = lastRecordedValues st !! handle element'.
Proof.
  intros Hne. unfold commitRecorded.
  destruct (currentValue element st) as [[value flag]|e]; [|reflexivity].
  apply lookup_insert_ne. congruence.
Qed.

Lemma commitRecorded_classified st element value isSensitive :
  currentValue element st = Ok (value, isSensitive) ->
  commitRecorded st element !! handle element = Some value.
Proof.
  intros Hcur. unfold commitRecorded. rewrite Hcur. apply lookup_insert_eq.
Qed.

Lemma map_get_delete m element element' :
  map_get (map_delete m element) element'
  = if Nat.eqb (handle element') (handle element) then None
    else map_get m element'.
Proof.
  unfold map_delete. induction m as [|[k v] m IH]; simpl.
  - now destruct (Nat.eqb _ _).
  - destruct (decide (handle k <> handle element)) as [Hk|Hk].
    + rewrite filter_cons_True by exact Hk. simpl.
      destruct (Nat.eqb_spec (handle k) (handle element')) as [E|NE].
      * destruct (Nat.eqb_spec (handle element') (handle element));
          [congruence|reflexivity].
      * exact IH.
    + rewrite filter_cons_False by exact Hk. rewrite IH.
      apply dec_stable in Hk.
      destruct (Nat.eqb_spec (handle element') (handle element)) as [E|NE];
        [reflexivity|].
      destruct (Nat.eqb_spec (handle k) (handle element'));
        [congruence|reflexivity].
Qed.

Lemma recordedImmediately_not_skipped element :
  recordedImmediately element = true -> skippedInputType element = false.
Proof.
  unfold recordedImmediately, skippedInputType, isInput, isSelect,
    includes_string.
  destruct (interface element); simpl; try reflexivity.
  destruct (String.eqb_spec (Dom.toLowerCase (type element)) "checkbox")
    as [->|_]; [reflexivity|].
  destruct (String.eqb_spec (Dom.toLowerCase (type element)) "radio")
    as [->|_]; [reflexivity|discriminate].
Qed.

Lemma recordedImmediately_control element :
  recordedImmediately element = true ->
  negb (isInput element) && negb (isTextArea element)
  && negb (isSelect element) = false.
Proof.
  unfold recordedImmediately, isInput, isTextArea, isSelect.
  destruct (interface element); simpl; auto.
Qed.

Lemma handleInputEvent_immediate now target st start :
  tracking st start ->
  recordedImmediately target = true ->
  closestIgnore target = false ->
  handleInputEvent now target st
  = recordInputChange now target
      (with_timers st (debounceTimers st)
         (match map_get (debounceTimers st) target with
          | Some existingTimer => clearTimeout existingTimer (timers st)
          | None => timers st
          end) (nextTimerId st)).
Proof.
  intros [Hstart _] Himm Hign. unfold InputHandler.handleInputEvent.
  rewrite Hstart, (recordedImmediately_control _ Himm), Hign,
    (recordedImmediately_not_skipped _ Himm), Himm.
  reflexivity.
Qed.

Lemma recordInputChange_values now element st :
  values (recordInputChange now element st) = values st.
Proof. apply recordInputChange_frame. Qed.

Lemma recordInputChange_nextTimerId now element st :
  nextTimerId (recordInputChange now element st) = nextTimerId st.
Proof. apply recordInputChange_frame. Qed.

(** A commit repeated on the state the first one left sends nothing. *)
Lemma recordInputChange_again now now' element st :
  recordInputChange now' element (recordInputChange now element st)
  = recordInputChange now element st.
Proof.
  destruct (tracking_or_idle st) as [[start Htr]|Hidle];
    [|rewrite (recordInputChange_idle getElementInfo href now element st)
        by auto;
      apply recordInputChange_idle; auto].
  destruct (currentValue element st) as [[value isSensitive]|e] eqn:Hcur;
    [|rewrite (recordInputChange_unclassified getElementInfo href now element
                 st e Hcur);
      exact (recordInputChange_unclassified getElementInfo href now' element
               st e Hcur)].
  rewrite (recordInputChange_commits getElementInfo href now element st start
             Htr).
  apply (recordInputChange_unchanged _ _ _ _ _ value isSensitive).
  - rewrite <- Hcur. now apply currentValue_values.
  - simpl. now apply (commitRecorded_classified st element value isSensitive).
Qed.

(** X20. While tracking, a select, a checkbox or a radio button outside
    the recorder's own UI is committed by the [input] or [change] event
    itself, with no timer scheduled and the debounce map not touched.  Its
    value is sent at once when it is not the value last recorded for it
    and the control is described; when [getElementInfo] throws, nothing is
    sent although the value is new, and the value counts as recorded from
    then on.  A further event on the control sends nothing as long as its
    value is the same, which for a checkbox is the case however often it
    is toggled. *)
Theorem immediate_controls_commit_at_once (now : Z) (target : Element)
    (st : State) (start : Z) :
  tracking st start ->
  recordedImmediately target = true ->
  closestIgnore target = false ->
  let st' := handleInputEvent now target st in
  sent st' = sent st ++ commitMessages getElementInfo href start now st target
  /\ (forall value isSensitive,
        currentValue target st = Ok (value, isSensitive) ->
        lastRecordedValues st !! handle target <> Some value ->
        lastRecordedValues st' !! handle target = Some value
        /\ match getElementInfo target with
           | Ok info =>
               sent st'
               = sent st
                 ++ [{| ie_element := info;
                        ie_value := value;
                        ie_isSensitive := isSensitive;
                        ie_url := href;
                        ie_timestamp := now - start |}]
           | Throw _ => sent st' = sent st
           end)
  /\ (forall value isSensitive,
        currentValue target st = Ok (value, isSensitive) ->
        lastRecordedValues st !! handle target = Some value ->
        sent st' = sent st)
  /\ (forall e, currentValue target st = Throw e -> sent st' = sent st)
  /\ debounceTimers st' = debounceTimers st
  /\ nextTimerId st' = nextTimerId st
  /\ (forall tm, In tm (timers st') -> In tm (timers st))
  /\ (forall now', sent (handleInputEvent now' target st') = sent st').
Proof.
  intros Htr Himm Hign st'.
  pose proof (handleInputEvent_immediate now target st start Htr Himm Hign)
    as E.
  set (st1 := with_timers st (debounceTimers st)
                (match map_get (debounceTimers st) target with
                 | Some existingTimer => clearTimeout existingTimer (timers st)
                 | None => timers st
                 end) (nextTimerId st)) in E.
  assert (Htr1 : tracking st1 start) by exact Htr.
  assert (Htr' : tracking st' start).
  { unfold st'. rewrite E. now apply recordInputChange_tracking. }
  assert (E' : st' = recordInputChange now target st1) by exact E.
  rewrite (recordInputChange_commits getElementInfo href now target st1 start
             Htr1) in E'.
  assert (Hsent : sent st'
                  = sent st
                    ++ commitMessages getElementInfo href start now st target)
    by (rewrite E'; reflexivity).
  destruct (commitMessages_cases start now st target)
    as (Hnew & Hsame & Hthrow & Hclass).
  split; [exact Hsent|].
  split; [|split; [|split; [|split; [|split; [|split]]]]].
  - intros value isSensitive Hcur Hdiff. split.
    + rewrite E'. simpl.
      now apply (commitRecorded_classified st1 target value isSensitive).
    + destruct (getElementInfo target) as [info|e] eqn:Hinfo.
      * now rewrite Hsent, (Hnew value isSensitive info).
      * now rewrite Hsent, (Hthrow e), app_nil_r.
  - intros value isSensitive Hcur Hlast.
    now rewrite Hsent, (Hsame value isSensitive), app_nil_r.
  - intros e Hcur. now rewrite Hsent, (Hclass e), app_nil_r.
  - now rewrite E'.
  - now rewrite E'.
  - rewrite E'. simpl.
    intros tm. destruct (map_get (debounceTimers st) target); [|auto].
    unfold clearTimeout. intros H. apply list_elem_of_In in H.
    apply list_elem_of_filter in H as [_ H]. now apply list_elem_of_In.
  - intros now'.
    rewrite (handleInputEvent_immediate now' target st' start Htr' Himm Hign).
    set (st2 := with_timers st' _ _ _).
    assert (Hst2 : st2 = st').
    { unfold st2. rewrite E'. simpl. unfold with_timers. simpl. f_equal.
      destruct (map_get (debounceTimers st) target) as [existing|];
        [|reflexivity].
      unfold clearTimeout. rewrite list_filter_filter.
      apply list_filter_iff. intros tm. tauto. }
    rewrite Hst2. unfold st' at 1. rewrite E.
    now rewrite recordInputChange_again, <- E.
Qed.

(** X21. While tracking, a [blur] event on any input or textarea commits
    its current value at once and leaves no debounce entry for it: the
    value is sent when it is not the one last recorded for the field and
    the field is described; when [getElementInfo] throws, nothing is sent
    although the value is new.  Unlike the listener of [input] and
    [change], which does nothing for such a field, the blur listener does
    not skip fields of the recorder's own UI nor hidden or button-like
    input types. *)
Theorem blur_commits_whatever_the_field (now : Z) (target : Element)
    (st : State) (start : Z) :
  tracking st start ->
  isInput target || isTextArea target = true ->
  let st' := handleBlurEvent now target st in
  sent st' = sent st ++ commitMessages getElementInfo href start now st target
  /\ (forall value isSensitive,
        currentValue target st = Ok (value, isSensitive) ->
        lastRecordedValues st !! handle target <> Some value ->
        lastRecordedValues st' !! handle target = Some value
        /\ match getElementInfo target with
           | Ok info =>
               sent st'
               = sent st
                 ++ [{| ie_element := info;
                        ie_value := value;
                        ie_isSensitive := isSensitive;
                        ie_url := href;
                        ie_timestamp := now - start |}]
           | Throw _ => sent st' = sent st
           end)
  /\ (forall value isSensitive,
        currentValue target st = Ok (value, isSensitive) ->
        lastRecordedValues st !! handle target = Some value ->
        sent st' = sent st)
  /\ (forall e, currentValue target st = Throw e -> sent st' = sent st)
  /\ map_get (debounceTimers st') target = None
  /\ (closestIgnore target = true \/ skippedInputType target = true ->
      handleInputEvent now target st = st).
Proof.
  intros Htr Hkind st'.
  assert (Hnot : negb (isInput target) && negb (isTextArea target) = false)
    by (destruct (isInput target), (isTextArea target);
        simpl in *; congruence).
  set (st1 := match map_get (debounceTimers st) target with
              | Some existingTimer =>
                  with_timers st (map_delete (debounceTimers st) target)
                    (clearTimeout existingTimer (timers st)) (nextTimerId st)
              | None => st
              end).
  assert (E : st' = recordInputChange now target st1).
  { unfold st', InputHandler.handleBlurEvent.
    destruct Htr as [-> _]. now rewrite Hnot. }
  assert (Htr1 : tracking st1 start)
    by (unfold st1; destruct (map_get _ _); exact Htr).
  assert (Hval : values st1 = values st)
    by (unfold st1; now destruct (map_get _ _)).
  assert (Hlast1 : lastRecordedValues st1 = lastRecordedValues st)
    by (unfold st1; now destruct (map_get _ _)).
  assert (Hs1 : sent st1 = sent st)
    by (unfold st1; now destruct (map_get _ _)).
  destruct (commit_agrees st st1 target Hval) as [Hmsgs _];
    [now rewrite Hlast1|].
  rewrite (recordInputChange_commits getElementInfo href now target st1 start
             Htr1) in E.
  assert (Hsent : sent st'
                  = sent st
                    ++ commitMessages getElementInfo href start now st target)
    by (rewrite E; simpl; now rewrite Hs1, Hmsgs).
  destruct (commitMessages_cases start now st target)
    as (Hnew & Hsame & Hthrow & Hclass).
  split; [exact Hsent|]. split; [|split; [|split; [|split]]].
  - intros value isSensitive Hcur Hdiff. split.
    + rewrite E. simpl.
      apply (commitRecorded_classified st1 target value isSensitive).
      rewrite <- Hcur. now apply currentValue_values.
    + destruct (getElementInfo target) as [info|e] eqn:Hinfo.
      * now rewrite Hsent, (Hnew value isSensitive info).
      * now rewrite Hsent, (Hthrow e), app_nil_r.
  - intros value isSensitive Hcur Hlast.
    now rewrite Hsent, (Hsame value isSensitive), app_nil_r.
  - intros e Hcur. now rewrite Hsent, (Hclass e), app_nil_r.
  - rewrite E. simpl. unfold st1.
    destruct (map_get (debounceTimers st) target) as [existing|] eqn:Hget;
      [|exact Hget].
    simpl. now rewrite map_get_delete, Nat.eqb_refl.
  - unfold InputHandler.handleInputEvent. destruct Htr as [-> _].
    destruct (negb (isInput target) && negb (isTextArea target)
              && negb (isSelect target)); [reflexivity|].
    intros [->| ->]; [reflexivity|].
    now destruct (closestIgnore target).
Qed.

Lemma recordInputChange_idle_start now element st :
  InputHandler.recordingStartTime st = None ->
  recordInputChange now element st = st.
Proof. intros H. apply recordInputChange_idle. now left. Qed.

Lemma debounceCallback_idle_start now element st :
  InputHandler.recordingStartTime st = None ->
  InputHandler.recordingStartTime (debounceCallback now element st) = None
  /\ sent (debounceCallback now element st) = sent st.
Proof.
  intros Hidle.
  destruct (debounceCallback_frame getElementInfo href now element st)
    as (H1 & _ & _ & _ & _ & _ & _ & H8).
  rewrite H1, H8, recordInputChange_idle_start by assumption. auto.
Qed.

Lemma fireDue_idle t st :
  InputHandler.recordingStartTime st = None ->
  InputHandler.recordingStartTime (fireDue t st) = None
  /\ sent (fireDue t st) = sent st.
Proof.
  intros Hidle. unfold InputHandler.fireDue.
  set (st0 := with_timers st (debounceTimers st) _ (nextTimerId st)).
  assert (H0 : InputHandler.recordingStartTime st0 = None
               /\ sent st0 = sent st) by (split; [exact Hidle|reflexivity]).
  clearbody st0. revert st0 H0.
  induction (filter (fun tm => due tm <= t) (timers st)) as [|tm l IH];
    intros st0 H0; simpl; [exact H0|].
  apply IH.
  destruct (debounceCallback_idle_start (due tm) (target tm) st0) as [H1 H2];
    [apply H0|].
  split; [exact H1|]. rewrite H2. apply H0.
Qed.

Lemma dispatch_idle now ev st :
  InputHandler.recordingStartTime st = None ->
  InputHandler.recordingStartTime (dispatch now ev st) = None
  /\ sent (dispatch now ev st) = sent st.
Proof.
  intros Hidle.
  destruct ev as [target value|target|target]; simpl;
    unfold InputHandler.handleInputEvent, InputHandler.handleBlurEvent;
    simpl; rewrite Hidle; split; auto.
Qed.

Lemma runPage_idle evs : forall st,
  InputHandler.recordingStartTime st = None ->
  InputHandler.recordingStartTime (runPage evs st) = None
  /\ sent (runPage evs st) = sent st.
Proof.
  induction evs as [|[t ev] evs IH]; intros st Hidle; simpl; [auto|].
  destruct (fireDue_idle t st Hidle) as [H1 H2].
  destruct (dispatch_idle t ev _ H1) as [H3 H4].
  destruct (IH _ H3) as [H5 H6].
  split; [exact H5|]. now rewrite H6, H4, H2.
Qed.

(** X22. Once [stopInputTracking] has run, the handler sends nothing any
    more, whatever is typed, changed or blurred on the page and whatever
    timers fire, until tracking is started again. *)
Theorem stopped_handler_sends_nothing (evs : list (Z * PageEvent))
    (st : State) :
  sent (runPage evs (stopInputTracking st)) = sent st
  /\ isInputTrackingActive (runPage evs (stopInputTracking st)) = false.
Proof.
  destruct (runPage_idle evs (stopInputTracking st) eq_refl) as [H1 H2].
  split; [exact H2|].
  unfold isInputTrackingActive. rewrite H1.
  apply bool_decide_eq_false_2. intros [x Hx]. discriminate.
Qed.

(** X26. [recordInputChange] marks the value as recorded before it asks
    for the description of the element.  When [getElementInfo] returns,
    the value is sent with the description; when it throws on a value
    that differs from the last recorded one, nothing is sent, yet the
    value is now the last recorded one, so that later commits of the
    element send nothing either as long as its value stays the same, even
    if [getElementInfo] works by then: the input is lost. *)
Theorem thrown_description_loses_the_input (now : Z) (element : Element)
    (st : State) (start : Z) (value : string) (isSensitive : bool) :
  tracking st start ->
  currentValue element st = Ok (value, isSensitive) ->
  lastRecordedValues st !! handle element <> Some value ->
  let st' := snd (recordInputChangeThrowing now element st) in
  (forall info,
     getElementInfo element = Ok info ->
     fst (recordInputChangeThrowing now element st) = Ok tt
     /\ sent st'
        = sent st
          ++ [{| ie_element := info;
                 ie_value := value;
                 ie_isSensitive := isSensitive;
                 ie_url := href;
                 ie_timestamp := now - start |}])
  /\ (forall e,
        getElementInfo element = Throw e ->
        fst (recordInputChangeThrowing now element st) = Throw e
        /\ sent st' = sent st
        /\ lastRecordedValues st' !! handle element = Some value
        /\ values st' = values st
        /\ (forall getInfo' now',
              InputHandler.recordInputChangeThrowing getInfo' href now'
                element st'
              = (Ok tt, st'))
        /\ (forall now', recordInputChange now' element st' = st')).
Proof.
  intros Htr Hcur Hnew st'.
  pose proof (recordInputChangeThrowing_commits getElementInfo href now
                element st start Htr) as E.
  destruct (commitMessages_cases start now st element)
    as (Hsends & _ & Hthrow & _).
  assert (Est' : st' = snd (recordInputChangeThrowing now element st))
    by reflexivity.
  rewrite E in Est'. simpl in Est'.
  split.
  - intros info Hinfo. rewrite E. simpl. split.
    + unfold commitOutcome.
      now rewrite Hcur, bool_decide_eq_false_2, Hinfo by assumption.
    + now rewrite Est', (Hsends value isSensitive info).
  - intros e He. rewrite E. simpl.
    assert (Hlast : lastRecordedValues st' !! handle element = Some value)
      by (rewrite Est'; simpl;
          now apply (commitRecorded_classified st element value isSensitive)).
    assert (Hcur' : currentValue element st' = Ok (value, isSensitive))
      by (rewrite <- Hcur; apply currentValue_values; now rewrite Est').
    split; [|split; [|split; [|split; [|split]]]].
    + unfold commitOutcome.
      now rewrite Hcur, bool_decide_eq_false_2, He by assumption.
    + now rewrite Est', (Hthrow e He), app_nil_r.
    + exact Hlast.
    + now rewrite Est'.
    + intros getInfo' now'. unfold InputHandler.recordInputChangeThrowing.
      destruct (InputHandler.recordingStartTime st'); [|reflexivity].
      destruct (inputCallback st'); [|reflexivity].
      now rewrite Hcur', bool_decide_eq_true_2.
    + intros now'.
      now apply (recordInputChange_unchanged _ _ _ _ _ value isSensitive).
Qed.

(** *** Timers and the debounce map *)

Lemma map_get_handle m element element' :
  handle element' = handle element ->
  map_get m element' = map_get m element.
Proof.
  intros E. induction m as [|[k v] m IH]; simpl; [reflexivity|].
  now rewrite E, IH.
Qed.

Lemma map_get_set m element v element' :
  map_get (map_set m element v) element'
  = if Nat.eqb (handle element') (handle element) then Some v
    else map_get m element'.
Proof.
  induction m as [|[k w] m IH]; simpl.
  - rewrite (Nat.eqb_sym (handle element) (handle element')).
    now destruct (Nat.eqb _ _).
  - destruct (Nat.eqb_spec (handle k) (handle element)) as [E|NE]; simpl.
    + rewrite E, (Nat.eqb_sym (handle element) (handle element')).
      now destruct (Nat.eqb _ _).
    + rewrite IH.
      destruct (Nat.eqb_spec (handle k) (handle element')) as [E'|NE'];
        [|reflexivity].
      destruct (Nat.eqb_spec (handle element') (handle element));
        [congruence|reflexivity].
Qed.

Lemma map_get_In m element v :
  map_get m element = Some v -> exists k, In (k, v) m.
Proof.
  induction m as [|[k w] m IH]; simpl; [discriminate|].
  destruct (Nat.eqb _ _).
  - intros [= <-]. eauto.
  - intros H. destruct (IH H) as [k' Hk']. eauto.
Qed.

Lemma same_id_same_timer (queue : list Timer) tm tm' :
  NoDup (timer_id <$> queue) ->
  tm ∈ queue -> tm' ∈ queue -> timer_id tm = timer_id tm' -> tm = tm'.
Proof.
  induction queue as [|x queue IH]; simpl; intros Hnd H1 H2 E.
  - inversion H1.
  - apply NoDup_cons in Hnd as [Hx Hnd].
    apply elem_of_cons in H1 as [->|H1];
      apply elem_of_cons in H2 as [->|H2]; auto.
    + exfalso. apply Hx. rewrite E. apply list_elem_of_fmap. eauto.
    + exfalso. apply Hx. rewrite <- E. apply list_elem_of_fmap. eauto.
Qed.

Lemma registered_sublist st queue m :
  timers_registered st ->
  queue `sublist_of` timers st ->
  Forall (fun tm => map_get m (target tm) = Some (timer_id tm)) queue ->
  timers_registered (with_timers st m queue (nextTimerId st)).
Proof.
  intros (_ & Hnd & Hlt) Hsub Hreg. split; [exact Hreg|]. split; simpl.
  - eapply sublist_NoDup; [exact Hnd|]. now apply fmap_sublist.
  - apply Forall_forall. intros tm Hin. rewrite Forall_forall in Hlt.
    eapply Hlt, elem_of_sublist; eassumption.
Qed.

Lemma registered_same_fields st st' :
  debounceTimers st' = debounceTimers st ->
  timers st' = timers st ->
  nextTimerId st' = nextTimerId st ->
  timers_registered st -> timers_registered st'.
Proof. unfold timers_registered. now intros -> -> ->. Qed.

Lemma recordInputChange_registered now element st :
  timers_registered st -> timers_registered (recordInputChange now element st).
Proof.
  apply registered_same_fields.
  - apply recordInputChange_debounceTimers.
  - apply recordInputChange_timers.
  - apply recordInputChange_nextTimerId.
Qed.

(** A timer that survives the clearing of the entry of [element] belongs
    to another element. *)
Lemma surviving_timer_other_element st element tm :
  timers_registered st ->
  tm ∈ match map_get (debounceTimers st) element with
       | Some existingTimer => clearTimeout existingTimer (timers st)
       | None => timers st
       end ->
  tm ∈ timers st /\ handle (target tm) <> handle element.
Proof.
  intros (Hreg & _ & _) Hin. rewrite Forall_forall in Hreg.
  destruct (map_get (debounceTimers st) element) as [existing|] eqn:E.
  - unfold clearTimeout in Hin.
    apply list_elem_of_filter in Hin as [Hid Hin]. split; [exact Hin|].
    intros Hh. specialize (Hreg tm Hin).
    rewrite (map_get_handle _ _ _ Hh), E in Hreg. congruence.
  - split; [exact Hin|]. intros Hh. specialize (Hreg tm Hin).
    rewrite (map_get_handle _ _ _ Hh), E in Hreg. discriminate.
Qed.

Lemma cleared_sublist st element :
  match map_get (debounceTimers st) element with
  | Some existingTimer => clearTimeout existingTimer (timers st)
  | None => timers st
  end `sublist_of` timers st.
Proof.
  destruct (map_get (debounceTimers st) element); [|reflexivity].
  apply sublist_filter.
Qed.

Lemma handleInputEvent_registered now element st :
  timers_registered st -> timers_registered (handleInputEvent now element st).
Proof.
  intros Hreg. unfold InputHandler.handleInputEvent.
  destruct (InputHandler.recordingStartTime st); [|exact Hreg].
  destruct (_ && _ && _); [exact Hreg|].
  destruct (closestIgnore element); [exact Hreg|].
  destruct (skippedInputType element); [exact Hreg|].
  set (queue := match map_get (debounceTimers st) element with
                | Some existingTimer => clearTimeout existingTimer (timers st)
                | None => timers st
                end).
  assert (Hq : forall tm, tm ∈ queue ->
                 tm ∈ timers st /\ handle (target tm) <> handle element)
    by (intros tm; now apply surviving_timer_other_element).
  assert (Hsub : queue `sublist_of` timers st) by apply cleared_sublist.
  assert (H1 : timers_registered
                 (with_timers st (debounceTimers st) queue (nextTimerId st))).
  { apply registered_sublist; [exact Hreg|exact Hsub|].
    apply Forall_forall. intros tm Hin.
    destruct Hreg as (Hreg & _). rewrite Forall_forall in Hreg.
    apply Hreg, Hq, Hin. }
  destruct (recordedImmediately element).
  - now apply recordInputChange_registered.
  - destruct H1 as (Ha & Hnd & Hlt). simpl in *.
    split; [|split]; simpl.
    + apply Forall_app. split.
      * apply Forall_forall. intros tm Hin.
        rewrite Forall_forall in Ha. rewrite map_get_set.
        destruct (Hq tm Hin) as [_ Hne].
        destruct (Nat.eqb_spec (handle (target tm)) (handle element));
          [contradiction|]. now apply Ha.
      * constructor; [|constructor]. simpl.
        now rewrite map_get_set, Nat.eqb_refl.
    + rewrite fmap_app. apply NoDup_app. split; [exact Hnd|]. split.
      * intros k Hk Hk'. apply list_elem_of_singleton in Hk'. subst k.
        apply list_elem_of_fmap in Hk as (tm & E & Hin).
        rewrite Forall_forall in Hlt. specialize (Hlt tm Hin). simpl in E.
        lia.
      * apply NoDup_singleton.
    + apply Forall_app. split.
      * eapply Forall_impl; [exact Hlt|]. simpl. intros; lia.
      * constructor; [simpl; lia|constructor].
Qed.

Lemma handleBlurEvent_registered now element st :
  timers_registered st -> timers_registered (handleBlurEvent now element st).
Proof.
  intros Hreg. unfold InputHandler.handleBlurEvent.
  destruct (InputHandler.recordingStartTime st); [|exact Hreg].
  destruct (_ && _); [exact Hreg|].
  apply recordInputChange_registered.
  pose proof (surviving_timer_other_element st element) as Hq.
  pose proof (cleared_sublist st element) as Hsub.
  destruct (map_get (debounceTimers st) element) as [existing|];
    [|exact Hreg].
  apply registered_sublist; [exact Hreg|exact Hsub|].
  apply Forall_forall. intros tm Hin.
  destruct (Hq tm Hreg Hin) as [Hin' Hne].
  rewrite map_get_delete.
  destruct (Nat.eqb_spec (handle (target tm)) (handle element));
    [contradiction|].
  destruct Hreg as (Hreg & _). rewrite Forall_forall in Hreg. now apply Hreg.
Qed.

Lemma debounceCallback_timers now element st :
  timers (debounceCallback now element st) = timers st.
Proof. apply (debounceCallback_frame getElementInfo href). Qed.

(** When the callback of a fired timer has run, the timers still queued,
    which belong to other elements, are those of the map, whether the
    entry of the element has left the map or stays behind. *)
Lemma debounceCallback_registered now element st :
  timers_registered st ->
  (forall tm, tm ∈ timers st -> handle (target tm) <> handle element) ->
  timers_registered (debounceCallback now element st).
Proof.
  intros (Ha & Hnd & Hlt) Hdis.
  destruct (debounceCallback_frame getElementInfo href now element st)
    as (_ & _ & Hm & Ht & Hn & _).
  unfold timers_registered. rewrite Ht, Hn. split; [|split; assumption].
  destruct Hm as [-> | ->]; [exact Ha|].
  apply Forall_forall. intros tm Hin. rewrite Forall_forall in Ha.
  rewrite map_get_delete.
  destruct (Nat.eqb_spec (handle (target tm)) (handle element)) as [E|_];
    [|now apply Ha].
  exfalso. exact (Hdis tm Hin E).
Qed.

Lemma fold_debounceCallback_registered queue : forall l st,
  timers st = queue ->
  (forall tm tm', tm ∈ l -> tm' ∈ queue ->
                  handle (target tm) <> handle (target tm')) ->
  timers_registered st ->
  timers_registered
    (fold_left (fun s tm => debounceCallback (due tm) (target tm) s) l st).
Proof.
  induction l as [|tm l IH]; intros st Hq Hdis Hreg; simpl; [exact Hreg|].
  apply IH.
  - now rewrite debounceCallback_timers.
  - intros x y Hx Hy. apply Hdis; [now right|exact Hy].
  - apply debounceCallback_registered; [exact Hreg|].
    intros tm' Hin E. rewrite Hq in Hin.
    apply (Hdis tm tm'); [now left|exact Hin|now symmetry].
Qed.

Lemma fireDue_registered t st :
  timers_registered st -> timers_registered (fireDue t st).
Proof.
  intros Hreg. unfold InputHandler.fireDue.
  apply (fold_debounceCallback_registered
           (filter (fun tm => ~ due tm <= t) (timers st))).
  - reflexivity.
  - intros tm tm' Hin Hin' E.
    apply list_elem_of_filter in Hin as [Hdue Hin].
    apply list_elem_of_filter in Hin' as [Hlater Hin'].
    destruct Hreg as (Ha & Hnd & _). rewrite Forall_forall in Ha.
    assert (tm = tm'); [|subst; contradiction].
    apply (same_id_same_timer (timers st)); auto.
    pose proof (Ha tm Hin) as H1. pose proof (Ha tm' Hin') as H2.
    rewrite (map_get_handle _ _ _ E) in H1. congruence.
  - apply registered_sublist; [exact Hreg|apply sublist_filter|].
    apply Forall_forall. intros tm Hin.
    apply list_elem_of_filter in Hin as [_ Hin].
    destruct Hreg as (Ha & _). rewrite Forall_forall in Ha. now apply Ha.
Qed.

(** *** The flush *)

Lemma flushOutcome_returns st0 l :
  flushOutcome getElementInfo st0 l = Ok tt ->
  flushVisited getElementInfo st0 l = l.
Proof.
  induction l as [|entry l IH]; simpl; [reflexivity|].
  destruct (commitOutcome getElementInfo st0 (fst entry)); [|discriminate].
  intros H. now rewrite IH.
Qed.

Lemma flushOutcome_all st0 l :
  Forall (fun entry => commitOutcome getElementInfo st0 (fst entry) = Ok tt) l ->
  flushOutcome getElementInfo st0 l = Ok tt.
Proof.
  induction 1 as [|entry l H _ IH]; simpl; [reflexivity|]. now rewrite H.
Qed.

Lemma flushVisited_throws st0 before entry after e :
  Forall (fun entry => commitOutcome getElementInfo st0 (fst entry) = Ok tt)
    before ->
  commitOutcome getElementInfo st0 (fst entry) = Throw e ->
  flushOutcome getElementInfo st0 (before ++ entry :: after) = Throw e
  /\ flushVisited getElementInfo st0 (before ++ entry :: after)
     = before ++ [entry].
Proof.
  intros Hbefore Hthrow.
  induction Hbefore as [|x before Hx _ IH]; simpl.
  - now rewrite Hthrow.
  - rewrite Hx. destruct IH as [-> ->]. auto.
Qed.

Lemma commitOutcome_throws_nothing_sent start now st element e :
  commitOutcome getElementInfo st element = Throw e ->
  commitMessages getElementInfo href start now st element = [].
Proof.
  unfold commitOutcome, commitMessages.
  destruct (currentValue element st) as [[value flag]|e']; [|reflexivity].
  destruct (bool_decide _); [reflexivity|].
  now destruct (getElementInfo element).
Qed.

Lemma fold_clearTimeout_sublist (l : list (Element * nat)) : forall queue,
  fold_left (fun queue kv => clearTimeout (snd kv) queue) l queue
  `sublist_of` queue.
Proof.
  induction l as [|kv l IH]; intros queue; simpl; [reflexivity|].
  etransitivity; [apply IH|apply sublist_filter].
Qed.

(** The loop of the flush, started in state [st0]: whether it returns,
    what it sends and which timers it clears. *)
Lemma flushEntries_spec start now st0 : forall l st,
  tracking st start ->
  values st = values st0 ->
  pending_wf l ->
  (forall kv, In kv l ->
     lastRecordedValues st !! handle (fst kv)
     = lastRecordedValues st0 !! handle (fst kv)) ->
  let r := flushEntries now l st in
  fst r = flushOutcome getElementInfo st0 l
  /\ sent (snd r)
     = sent st
       ++ flat_map (flushMessages getElementInfo href start now st0)
            (flushVisited getElementInfo st0 l)
  /\ timers (snd r)
     = fold_left (fun queue kv => clearTimeout (snd kv) queue)
         (flushVisited getElementInfo st0 l) (timers st)
  /\ tracking (snd r) start
  /\ values (snd r) = values st0
  /\ debounceTimers (snd r) = debounceTimers st
  /\ nextTimerId (snd r) = nextTimerId st.
Proof.
  induction l as [|[element timer] l IH]; intros st Htr Hval [Hnd Hall] Hlast.
  - simpl. rewrite app_nil_r. repeat split; auto; apply Htr.
  - inversion Hnd as [|? ? Hnotin Hnd']; subst.
    inversion Hall as [|? ? Hkind Hall']; subst. simpl in Hkind.
    cbn [InputHandler.flushEntries flushVisited flushOutcome flat_map fst].
    set (st1 := with_timers st (debounceTimers st)
                  (clearTimeout timer (timers st)) (nextTimerId st)).
    rewrite Hkind.
    assert (Htr1 : tracking st1 start) by exact Htr.
    rewrite (recordInputChangeThrowing_commits getElementInfo href now element
               st1 start Htr1).
    destruct (commit_agrees st0 st1 element Hval) as [Hmsgs Hout].
    { apply (Hlast (element, timer)). now left. }
    rewrite Hout.
    destruct (commitOutcome getElementInfo st0 element) as [u|e] eqn:Hc.
    + match goal with
      | |- context [InputHandler.flushEntries _ _ now l ?s] => set (st2 := s)
      end.
      destruct (IH st2) as (H1 & H2 & H3 & H4 & H5 & H6 & H7); auto.
      * split; assumption.
      * intros kv Hin. simpl.
        rewrite (commitRecorded_other st1 element (fst kv)).
        -- apply Hlast. now right.
        -- intros Heq. apply Hnotin. rewrite <- Heq. apply list_elem_of_In.
           now apply (in_map (fun kv => handle (fst kv))).
      * split; [exact H1|]. split; [|split; [exact H3|auto]].
        rewrite H2. simpl. unfold flushMessages at 2. cbn [fst].
        now rewrite Hmsgs, <- app_assoc.
    + simpl. rewrite app_nil_r. unfold flushMessages. cbn [fst].
      rewrite Hmsgs. repeat split; auto; apply Htr.
Qed.

Lemma fold_clearTimeout_elem (l : list (Element * nat)) : forall queue tm,
  tm ∈ fold_left (fun queue kv => clearTimeout (snd kv) queue) l queue ->
  tm ∈ queue /\ forall kv, In kv l -> timer_id tm <> snd kv.
Proof.
  induction l as [|kv l IH]; intros queue tm; simpl.
  - intros H. split; [exact H|]. intros kv [].
  - intros H. apply IH in H as [H Hl].
    apply list_elem_of_filter in H as [Hid H].
    split; [exact H|]. intros kv' [<-|Hin]; auto.
Qed.

Lemma registered_all_cleared st :
  timers_registered st ->
  fold_left (fun queue kv => clearTimeout (snd kv) queue)
    (debounceTimers st) (timers st) = [].
Proof.
  intros (Ha & _). rewrite Forall_forall in Ha.
  destruct (fold_left _ _ _) as [|tm rest] eqn:E; [reflexivity|].
  exfalso.
  assert (Hin : tm ∈ fold_left
                  (fun queue kv => clearTimeout (snd kv) queue)
                  (debounceTimers st) (timers st))
    by (rewrite E; now left).
  apply fold_clearTimeout_elem in Hin as [Hin Hno].
  destruct (map_get_In _ _ _ (Ha tm Hin)) as [k Hk].
  now apply (Hno _ Hk).
Qed.

(** The flush, started while tracking in a state [st] the handler can be
    in: whether it returns, what it sends, and what it leaves pending. *)
Lemma flushPendingInputsThrowing_spec now st start :
  tracking st start ->
  pending_wf (debounceTimers st) ->
  timers_registered st ->
  let r := flushPendingInputsThrowing now st in
  fst r = flushOutcome getElementInfo st (debounceTimers st)
  /\ sent (snd r)
     = sent st
       ++ flat_map (flushMessages getElementInfo href start now st)
            (flushVisited getElementInfo st (debounceTimers st))
  /\ timers (snd r)
     = fold_left (fun queue kv => clearTimeout (snd kv) queue)
         (flushVisited getElementInfo st (debounceTimers st)) (timers st)
  /\ debounceTimers (snd r)
     = match flushOutcome getElementInfo st (debounceTimers st) with
       | Ok _ => []
       | Throw _ => debounceTimers st
       end
  /\ tracking (snd r) start
  /\ values (snd r) = values st
  /\ nextTimerId (snd r) = nextTimerId st.
Proof.
  intros Htr Hwf Hreg.
  destruct (flushEntries_spec start now st (debounceTimers st) st Htr eq_refl
              Hwf (fun _ _ => eq_refl))
    as (H1 & H2 & H3 & H4 & H5 & H6 & H7).
  unfold InputHandler.flushPendingInputsThrowing.
  destruct (InputHandler.flushEntries getElementInfo href now
              (debounceTimers st) st) as [[u|e] st1]; simpl in *;
    rewrite <- H1; repeat split; auto; try apply H4.
  now destruct u.
Qed.

Lemma flushPendingInputs_in_sync now st start :
  tracking st start ->
  pending_wf (debounceTimers st) ->
  timers_registered st ->
  tracking (flushPendingInputs now st) start
  /\ pending_wf (debounceTimers (flushPendingInputs now st))
  /\ timers_registered (flushPendingInputs now st).
Proof.
  intros Htr Hwf Hreg.
  destruct (flushPendingInputsThrowing_spec now st start Htr Hwf Hreg)
    as (H1 & _ & H3 & H4 & H5 & _ & H7).
  unfold InputHandler.flushPendingInputs.
  split; [exact H5|].
  destruct Hreg as (Ha & Hnd & Hlt).
  unfold timers_registered. rewrite H3, H4, H7.
  destruct (flushOutcome getElementInfo st (debounceTimers st)) as [u|e] eqn:Ho.
  - rewrite (flushOutcome_returns st (debounceTimers st))
      by (now destruct u).
    rewrite (registered_all_cleared st) by (split; [|split]; assumption).
    split; [split; [apply NoDup_nil_2|constructor]|].
    split; [constructor|]. split; [apply NoDup_nil_2|constructor].
  - split; [exact Hwf|].
    pose proof (fold_clearTimeout_sublist
                  (flushVisited getElementInfo st (debounceTimers st))
                  (timers st)) as Hsub.
    split; [|split].
    + apply Forall_forall. intros tm Hin. rewrite Forall_forall in Ha.
      eapply Ha, elem_of_sublist; eassumption.
    + eapply sublist_NoDup; [exact Hnd|]. now apply fmap_sublist.
    + apply Forall_forall. intros tm Hin. rewrite Forall_forall in Hlt.
      eapply Hlt, elem_of_sublist; eassumption.
Qed.

(** *** The content script and its handler *)

#[local] Abbreviation handle_event :=
  (ContentScript.handle getElementInfo href).
#[local] Abbreviation run := (ContentScript.run getElementInfo href).

Lemma dispatch_tracking now ev st start :
  tracking st start -> tracking (dispatch now ev st) start.
Proof.
  intros [Hstart Hcb].
  assert (Hrec : forall now e s, tracking s start ->
                   tracking (recordInputChange now e s) start)
    by (intros; now apply recordInputChange_tracking).
  destruct ev as [element value|element|element]; simpl;
    unfold InputHandler.handleInputEvent, InputHandler.handleBlurEvent;
    simpl; rewrite Hstart;
    repeat match goal with
           | |- context [if ?c then _ else _] => destruct c
           end;
    try (split; assumption);
    try (apply Hrec; split; assumption).
  destruct (map_get _ _); apply Hrec; split; assumption.
Qed.

Lemma dispatch_wf now ev st :
  pending_wf (debounceTimers st) ->
  pending_wf (debounceTimers (dispatch now ev st)).
Proof.
  intros Hwf. destruct ev as [element value|element|element]; simpl.
  - now apply handleInputEvent_wf.
  - now apply handleInputEvent_wf.
  - now apply handleBlurEvent_wf.
Qed.

Lemma dispatch_registered now ev st :
  timers_registered st -> timers_registered (dispatch now ev st).
Proof.
  intros Hreg. destruct ev as [element value|element|element]; simpl.
  - now apply handleInputEvent_registered.
  - now apply handleInputEvent_registered.
  - now apply handleBlurEvent_registered.
Qed.

Lemma dispatch_keeps_idle now ev st :
  handler_idle st -> handler_idle (dispatch now ev st).
Proof.
  intros (H1 & H2 & H3 & H4 & H5).
  destruct ev as [element value|element|element]; simpl;
    unfold InputHandler.handleInputEvent, InputHandler.handleBlurEvent;
    simpl; rewrite H1; repeat split; assumption.
Qed.

Lemma fireDue_keeps_idle t st :
  handler_idle st -> handler_idle (fireDue t st).
Proof.
  intros (H1 & H2 & H3 & H4 & H5). unfold InputHandler.fireDue.
  rewrite H5. simpl. repeat split; assumption.
Qed.

(** A stop while recording: the flush, then, if it returned, the end of
    tracking. *)
Lemma stopRecordingThrowing_recording now cs :
  ContentScript.isRecording cs = true ->
  ContentScript.stopRecordingThrowing getElementInfo href now cs
  = match flushPendingInputsThrowing now (ContentScript.inputHandler cs) with
    | (Throw e, h) => (Throw e, ContentScript.with_inputHandler cs h)
    | (Ok _, flushed) =>
        (Ok tt,
         {| ContentScript.isRecording := false;
            ContentScript.recordingStartTime := None;
            ContentScript.inputHandler := stopInputTracking flushed |})
    end.
Proof.
  intros Hrec. unfold ContentScript.stopRecordingThrowing. now rewrite Hrec.
Qed.

Lemma handle_in_sync now ev cs :
  in_sync cs -> in_sync (handle_event now ev cs).
Proof.
  unfold in_sync. intros Hsync.
  destruct ev as [startTime| | |hidden|ev]; simpl.
  - unfold ContentScript.startRecording.
    destruct (ContentScript.isRecording cs) eqn:Hrec;
      [now rewrite Hrec|]. simpl.
    destruct Hsync as (_ & _ & _ & _ & _ & Htimers).
    eexists. split; [reflexivity|]. split; [split; reflexivity|].
    split; [split; [apply NoDup_nil_2|constructor]|].
    unfold timers_registered. simpl. rewrite Htimers.
    split; [constructor|]. split; [apply NoDup_nil_2|constructor].
  - unfold ContentScript.stopRecording.
    destruct (ContentScript.isRecording cs) eqn:Hrec;
      [|unfold ContentScript.stopRecordingThrowing; rewrite Hrec; simpl;
        now rewrite Hrec].
    rewrite (stopRecordingThrowing_recording now cs Hrec).
    destruct Hsync as (start & Hstart & Htr & Hwf & Hreg).
    destruct (flushPendingInputsThrowing_spec now _ start Htr Hwf Hreg)
      as (H1 & _ & H3 & H4 & _).
    destruct (flushPendingInputs_in_sync now _ start Htr Hwf Hreg)
      as (Htr' & Hwf' & Hreg').
    unfold InputHandler.flushPendingInputs in Htr', Hwf', Hreg'.
    destruct (flushPendingInputsThrowing now (ContentScript.inputHandler cs))
      as [[u|e] h]; simpl in *.
    + split; [reflexivity|]. unfold handler_idle, stopInputTracking. simpl.
      repeat split. rewrite H4, <- H1. simpl.
      rewrite H3, (flushOutcome_returns _ (debounceTimers _))
        by (rewrite <- H1; now destruct u).
      now apply registered_all_cleared.
    + rewrite Hrec. exists start. auto.
  - unfold ContentScript.flushIfRecording.
    destruct (ContentScript.isRecording cs) eqn:Hrec; simpl;
      [|now rewrite Hrec].
    rewrite Hrec.
    destruct Hsync as (start & Hstart & Htr & Hwf & Hreg).
    exists start. split; [exact Hstart|].
    now apply flushPendingInputs_in_sync.
  - destruct hidden; [|exact Hsync].
    unfold ContentScript.flushIfRecording.
    destruct (ContentScript.isRecording cs) eqn:Hrec; simpl;
      [|now rewrite Hrec].
    rewrite Hrec.
    destruct Hsync as (start & Hstart & Htr & Hwf & Hreg).
    exists start. split; [exact Hstart|].
    now apply flushPendingInputs_in_sync.
  - destruct (ContentScript.isRecording cs) eqn:Hrec.
    + destruct Hsync as (start & Hstart & Htr & Hwf & Hreg).
      exists start. split; [exact Hstart|].
      split; [now apply dispatch_tracking|].
      split; [now apply dispatch_wf|now apply dispatch_registered].
    + destruct Hsync as [Hstart Hidle].
      split; [exact Hstart|now apply dispatch_keeps_idle].
Qed.

Lemma fireDue_in_sync t cs :
  in_sync cs ->
  in_sync (ContentScript.with_inputHandler cs
             (fireDue t (ContentScript.inputHandler cs))).
Proof.
  unfold in_sync. simpl. destruct (ContentScript.isRecording cs).
  - intros (start & Hstart & Htr & Hwf & Hreg).
    exists start. split; [exact Hstart|].
    split; [now apply fireDue_tracking|].
    split; [now apply fireDue_wf|now apply fireDue_registered].
  - intros [Hstart Hidle]. split; [exact Hstart|].
    now apply fireDue_keeps_idle.
Qed.

Lemma run_in_sync evs : forall cs, in_sync cs -> in_sync (run evs cs).
Proof.
  induction evs as [|[t ev] evs IH]; intros cs Hsync; [exact Hsync|].
  simpl. apply IH, handle_in_sync, fireDue_in_sync, Hsync.
Qed.

Lemma initial_in_sync : in_sync ContentScript.initial.
Proof. repeat split. Qed.

(** X23. Whatever messages and page events the content script has
    handled since it was loaded, its recording flag and start time are
    those of the input handler; and while it is not recording, the
    handler holds nothing: no pending entry, no timer that could still
    fire, no recorded value. *)
Theorem content_script_and_handler_in_sync
    (evs : list (Z * ContentScript.Event)) :
  let cs := run evs ContentScript.initial in
  ContentScript.isRecording cs
  = isInputTrackingActive (ContentScript.inputHandler cs)
  /\ ContentScript.recordingStartTime cs
     = InputHandler.recordingStartTime (ContentScript.inputHandler cs)
  /\ (ContentScript.isRecording cs = false ->
      handler_idle (ContentScript.inputHandler cs)).
Proof.
  intros cs. pose proof (run_in_sync evs _ initial_in_sync) as H.
  fold cs in H. unfold in_sync in H. unfold isInputTrackingActive.
  destruct (ContentScript.isRecording cs).
  - destruct H as (start & Hstart & [Htr _] & _).
    rewrite Htr, Hstart. split; [|split; [reflexivity|discriminate]].
    symmetry. apply bool_decide_eq_true_2. eauto.
  - destruct H as (Hstart & Hidle). pose proof Hidle as (Hnone & _).
    rewrite Hnone, Hstart. split; [|split; [reflexivity|auto]].
    symmetry. apply bool_decide_eq_false_2. intros [x Hx]. discriminate.
Qed.

(** X24. Whatever the content script has handled since it was loaded,
    the browser's queue holds at most one debounce timer per form
    control, and each of them is the timer that the debounce map holds
    for its control; the map itself has one entry per control, all of
    them inputs or textareas. *)
Theorem one_pending_timer_per_control
    (evs : list (Z * ContentScript.Event)) :
  let st := ContentScript.inputHandler (run evs ContentScript.initial) in
  NoDup ((fun tm => handle (target tm)) <$> timers st)
  /\ Forall (fun tm =>
               map_get (debounceTimers st) (target tm) = Some (timer_id tm))
       (timers st)
  /\ pending_wf (debounceTimers st).
Proof.
  intros st. pose proof (run_in_sync evs _ initial_in_sync) as H.
  unfold in_sync in H. fold st in H.
  destruct (ContentScript.isRecording _).
  - destruct H as (start & _ & _ & Hwf & Ha & Hnd & _).
    split; [|split; assumption].
    apply NoDup_fmap_2_strong; [|eapply NoDup_fmap_1, Hnd].
    intros tm tm' Hin Hin' E. rewrite Forall_forall in Ha.
    apply (same_id_same_timer (timers st)); auto.
    pose proof (Ha tm Hin) as H1. pose proof (Ha tm' Hin') as H2.
    rewrite (map_get_handle _ _ _ E) in H1. congruence.
  - destruct H as (_ & _ & _ & Hm & _ & Ht). rewrite Hm, Ht.
    split; [apply NoDup_nil_2|]. split; [constructor|].
    split; [apply NoDup_nil_2|constructor].
Qed.

Lemma fold_clearTimeout_keeps (l : list (Element * nat)) : forall queue tm,
  tm ∈ queue ->
  (forall kv, In kv l -> timer_id tm <> snd kv) ->
  tm ∈ fold_left (fun queue kv => clearTimeout (snd kv) queue) l queue.
Proof.
  induction l as [|kv l IH]; intros queue tm Hin Hl; simpl; [exact Hin|].
  apply IH.
  - apply list_elem_of_filter. split; [|exact Hin]. apply Hl. now left.
  - intros kv' Hkv'. apply Hl. now right.
Qed.

(** X25. Whatever the content script has handled before, a flush on
    [beforeunload] (or when the page is hidden) while recording commits
    the pending inputs in the order of the debounce map, each at most
    once, and the script keeps recording.  When every commit returns, all
    pending inputs are committed, neither a pending entry nor a timer is
    left behind, and the stop that follows sends nothing more.  When a
    commit throws (the value is new and the classifier or
    [getElementInfo] throws), the loop ends there: the inputs before have
    been committed, nothing is sent for that one nor for those after it,
    which keep their timers, and the map is not emptied. *)
Theorem unload_flush_commits_pending_once
    (evs : list (Z * ContentScript.Event)) (now now' : Z) :
  let cs := run evs ContentScript.initial in
  ContentScript.isRecording cs = true ->
  let st := ContentScript.inputHandler cs in
  let flushed := handle_event now ContentScript.BeforeUnload cs in
  let st' := ContentScript.inputHandler flushed in
  exists start,
    ContentScript.recordingStartTime cs = Some start
    /\ ContentScript.isRecording flushed = true
    /\ handle_event now (ContentScript.VisibilityChange true) cs = flushed
    /\ (Forall (fun entry =>
                  commitOutcome getElementInfo st (fst entry) = Ok tt)
          (debounceTimers st) ->
        sent st'
        = sent st
          ++ flat_map (flushMessages getElementInfo href start now st)
               (debounceTimers st)
        /\ debounceTimers st' = []
        /\ timers st' = []
        /\ sent (ContentScript.inputHandler
                   (handle_event now' ContentScript.DisableRecording flushed))
           = sent st')
    /\ (forall before entry after e,
          debounceTimers st = before ++ entry :: after ->
          Forall (fun entry =>
                    commitOutcome getElementInfo st (fst entry) = Ok tt)
            before ->
          commitOutcome getElementInfo st (fst entry) = Throw e ->
          sent st'
          = sent st
            ++ flat_map (flushMessages getElementInfo href start now st)
                 before
          /\ debounceTimers st' = debounceTimers st
          /\ (forall tm,
                tm ∈ timers st' <->
                tm ∈ timers st
                /\ forall kv, In kv (before ++ [entry]) ->
                     timer_id tm <> snd kv)).
Proof.
  intros cs Hrec st flushed st'.
  pose proof (run_in_sync evs _ initial_in_sync) as H.
  fold cs in H. unfold in_sync in H. rewrite Hrec in H.
  destruct H as (start & Hstart & Htr & Hwf & Hreg). fold st in Htr, Hwf, Hreg.
  assert (E : st' = snd (flushPendingInputsThrowing now st)).
  { unfold st', flushed. simpl. unfold ContentScript.flushIfRecording.
    now rewrite Hrec. }
  destruct (flushPendingInputsThrowing_spec now st start Htr Hwf Hreg)
    as (H1 & H2 & H3 & H4 & _).
  rewrite <- E in H2, H3, H4.
  assert (Hflushed : ContentScript.isRecording flushed = true).
  { unfold flushed. simpl. unfold ContentScript.flushIfRecording.
    now rewrite Hrec. }
  exists start. split; [exact Hstart|]. split; [exact Hflushed|].
  split; [reflexivity|]. split.
  - intros Hall. pose proof (flushOutcome_all st _ Hall) as Ho.
    rewrite Ho in H4.
    rewrite (flushOutcome_returns st _ Ho) in H2, H3.
    rewrite (registered_all_cleared st Hreg) in H3.
    split; [exact H2|]. split; [exact H4|]. split; [exact H3|].
    simpl. unfold ContentScript.stopRecording.
    rewrite (stopRecordingThrowing_recording now' flushed Hflushed).
    fold st'. unfold InputHandler.flushPendingInputsThrowing.
    rewrite H4. reflexivity.
  - intros before entry after e Hsplit Hbefore Hthrow.
    destruct (flushVisited_throws st before entry after e Hbefore Hthrow)
      as [Ho Hv].
    rewrite Hsplit in H2, H3, H4. rewrite Ho in H4. rewrite Hv in H2, H3.
    split; [|split].
    + rewrite H2, flat_map_app. simpl. unfold flushMessages at 2.
      rewrite (commitOutcome_throws_nothing_sent start now st _ e Hthrow).
      now rewrite !app_nil_r.
    + now rewrite H4, Hsplit.
    + intros tm. rewrite H3. split.
      * apply fold_clearTimeout_elem.
      * intros [Hin Hl]. now apply fold_clearTimeout_keeps.
Qed.

End InputHandlerFurtherProperties.

Section InputHandlerFurtherWitnesses.
Import Field SensitiveFields InputHandler Examples FieldScenarios.

Lemma name_containing_a_sensitive_word_is_masked_witness :
  (isInput shippingField || isTextArea shippingField = true
   /\ In ["pin"] SENSITIVE_NAME_PATTERNS
   /\ In "pin" ["pin"]
   /\ Dom.contains "pin" (Dom.toLowerCase (name shippingField)) = true)
  /\ isSensitiveField shippingField = Ok true
  /\ getRecordableValue shippingField "12 Main Street"
     = Ok ("********", true).
Proof.
  assert (H1 : isInput shippingField || isTextArea shippingField = true)
    by reflexivity.
  assert (H2 : In ["pin"] SENSITIVE_NAME_PATTERNS)
    by (unfold SENSITIVE_NAME_PATTERNS; simpl; tauto).
  assert (H3 : In "pin" ["pin"]) by (now left).
  assert (H4 : Dom.contains "pin" (Dom.toLowerCase (name shippingField))
               = true) by reflexivity.
  split; [auto|].
  destruct (name_containing_a_sensitive_word_is_masked shippingField
              ["pin"] "pin" H1 H2 H3 (or_introl H4)) as [Hs Hv].
  split; [exact Hs|apply Hv].
Defined.

Lemma immediate_controls_commit_at_once_witness :
  (tracking filled 0
   /\ recordedImmediately rememberMe = true
   /\ closestIgnore rememberMe = false)
  /\ sent (InputHandler.handleInputEvent describing pageUrl 100 rememberMe
             filled)
     = [ {| ie_element := describe rememberMe;
            ie_value := "on";
            ie_isSensitive := false;
            ie_url := pageUrl;
            ie_timestamp := 100 |} ]
  /\ sent (InputHandler.handleInputEvent describing pageUrl 200 rememberMe
             (InputHandler.handleInputEvent describing pageUrl 100 rememberMe
                filled))
     = sent (InputHandler.handleInputEvent describing pageUrl 100 rememberMe
               filled).
Proof.
  assert (H1 : tracking filled 0) by (split; reflexivity).
  split; [repeat split; reflexivity|].
  destruct (immediate_controls_commit_at_once describing pageUrl 100
              rememberMe filled 0 H1 eq_refl eq_refl)
    as (Hsent & _ & _ & _ & _ & _ & _ & Hagain).
  split; [exact Hsent|apply Hagain].
Defined.

Lemma blur_commits_whatever_the_field_witness :
  (tracking filled 0
   /\ isInput panelField || isTextArea panelField = true)
  /\ sent (InputHandler.handleBlurEvent describing pageUrl 100 panelField
             filled)
     = [ {| ie_element := describe panelField;
            ie_value := "my note";
            ie_isSensitive := false;
            ie_url := pageUrl;
            ie_timestamp := 100 |} ]
  /\ InputHandler.handleInputEvent describing pageUrl 100 panelField filled
     = filled.
Proof.
  assert (H1 : tracking filled 0) by (split; reflexivity).
  split; [split; [exact H1|reflexivity]|].
  destruct (blur_commits_whatever_the_field describing pageUrl 100 panelField
              filled 0 H1 eq_refl) as (Hsent & _ & _ & _ & _ & Hignored).
  split; [exact Hsent|]. apply Hignored. now left.
Defined.

Lemma thrown_description_loses_the_input_witness :
  (tracking filled 0
   /\ currentValue panelField filled = Ok ("my note", false)
   /\ lastRecordedValues filled !! handle panelField <> Some "my note")
  /\ fst (recordInputChangeThrowing undescribed pageUrl 100 panelField filled)
     = Throw "SyntaxError"
  /\ sent (snd (recordInputChangeThrowing undescribed pageUrl 100 panelField
                  filled))
     = []
  /\ InputHandler.recordInputChange describing pageUrl 200 panelField
       (snd (recordInputChangeThrowing undescribed pageUrl 100 panelField
               filled))
     = snd (recordInputChangeThrowing undescribed pageUrl 100 panelField
              filled).
Proof.
  assert (H1 : tracking filled 0) by (split; reflexivity).
  assert (H2 : currentValue panelField filled = Ok ("my note", false))
    by reflexivity.
  assert (H3 : lastRecordedValues filled !! handle panelField
               <> Some "my note")
    by (vm_compute; discriminate).
  split; [repeat split; assumption|].
  destruct (thrown_description_loses_the_input undescribed pageUrl 100
              panelField filled 0 "my note" false H1 H2 H3)
    as [_ Hthrow].
  destruct (Hthrow "SyntaxError" eq_refl)
    as (Hfst & Hsent & _ & _ & Hlater & _).
  split; [exact Hfst|]. split; [exact Hsent|].
  unfold InputHandler.recordInputChange. now rewrite Hlater.
Defined.

Lemma unload_flush_commits_pending_once_witness :
  (ContentScript.isRecording
     (ContentScript.run describing pageUrl typingSession ContentScript.initial)
   = true
   /\ Forall (fun entry =>
                commitOutcome describing
                  (ContentScript.inputHandler
                     (ContentScript.run describing pageUrl typingSession
                        ContentScript.initial))
                  (fst entry) = Ok tt)
        (debounceTimers
           (ContentScript.inputHandler
              (ContentScript.run describing pageUrl typingSession
                 ContentScript.initial))))
  /\ sent (ContentScript.inputHandler
             (ContentScript.handle describing pageUrl 500
                ContentScript.BeforeUnload
                (ContentScript.run describing pageUrl typingSession
                   ContentScript.initial)))
     = [ {| ie_element := describe emailField;
            ie_value := "user@example.com";
            ie_isSensitive := false;
            ie_url := pageUrl;
            ie_timestamp := 490 |};
         {| ie_element := describe passwordField;
            ie_value := "********";
            ie_isSensitive := true;
            ie_url := pageUrl;
            ie_timestamp := 490 |} ]
  /\ timers (ContentScript.inputHandler
               (ContentScript.handle describing pageUrl 500
                  ContentScript.BeforeUnload
                  (ContentScript.run describing pageUrl typingSession
                     ContentScript.initial)))
     = [].
Proof.
  assert (H : ContentScript.isRecording
                (ContentScript.run describing pageUrl typingSession
                   ContentScript.initial) = true) by reflexivity.
  assert (Hall : Forall (fun entry =>
                           commitOutcome describing
                             (ContentScript.inputHandler
                                (ContentScript.run describing pageUrl
                                   typingSession ContentScript.initial))
                             (fst entry) = Ok tt)
                   (debounceTimers
                      (ContentScript.inputHandler
                         (ContentScript.run describing pageUrl typingSession
                            ContentScript.initial))))
    by (repeat constructor).
  split; [split; assumption|].
  destruct (unload_flush_commits_pending_once describing pageUrl
              typingSession 500 600 H)
    as (start & Hstart & _ & _ & Hreturns & _).
  destruct (Hreturns Hall) as (Hsent & _ & Ht & _).
  injection Hstart as <-.
  split; [exact Hsent|exact Ht].
Defined.

End InputHandlerFurtherWitnesses.

(** ** Click handler *)

Section ClickHandlerProperties.
Import Dom ClickHandler.

Variable engine : Engine.
Variable getElementInfo : Element -> Exc ElementInfo.
Variable href : string.

Lemma closest_self selectors element :
  matches engine element selectors = true ->
  closest engine selectors element = Some element.
Proof. intros H. destruct element. simpl in *. now rewrite H. Qed.

(** X27. A click on an input whose type is not one of the clickable
    ones (a text, email or password input, say) is not taken as a click
    on an interactive element by [isInteractiveElement]; yet
    [findInteractiveElement] then looks for the closest element matching
    the list of interactive selectors, which the input itself does, so
    that, while tracking and outside the recorder's own UI, [handleClick]
    sends a click message for the input all the same, provided the input
    is described: when [getElementInfo] throws, the listener is left
    there and no message is sent. *)
Theorem click_on_text_input_is_recorded (now : Z) (target : Element)
    (st : State) (start : Z) :
  recordingStartTime st = Some start ->
  clickCallback st = true ->
  isHTMLInputElement engine target = true ->
  SensitiveFields.includes_string CLICKABLE_INPUT_TYPES
    (toLowerCase (inputType engine target)) = false ->
  matches engine target "input" = true ->
  matches engine target (String.concat ", " INTERACTIVE_ELEMENTS) = true ->
  closest engine "[data-how-to-recorder-ignore]" target = None ->
  isInteractiveElement engine target = false
  /\ findInteractiveElement engine target = Some target
  /\ match getElementInfo target with
     | Ok info =>
         fst (handleClickThrowing engine getElementInfo href now target st)
         = Ok tt
         /\ sent (handleClick engine getElementInfo href now target st)
            = sent st
              ++ [ {| ce_element := info;
                      ce_url := href;
                      ce_timestamp := now - start |} ]
     | Throw e =>
         handleClickThrowing engine getElementInfo href now target st
         = (Throw e, st)
         /\ handleClick engine getElementInfo href now target st = st
     end.
Proof.
  intros Hstart Hcb Hinput Htype Hm Hlist Hignore.
  assert (Hany : existsb (matches engine target) INTERACTIVE_ELEMENTS = true).
  { apply existsb_exists. exists "input". split; [|exact Hm].
    unfold INTERACTIVE_ELEMENTS. simpl. tauto. }
  assert (Hnot : isInteractiveElement engine target = false).
  { unfold isInteractiveElement. now rewrite Hany, Hinput. }
  assert (Hfind : findInteractiveElement engine target = Some target).
  { unfold findInteractiveElement. rewrite Hnot.
    now apply closest_self. }
  split; [exact Hnot|]. split; [exact Hfind|].
  unfold handleClick, handleClickThrowing.
  rewrite Hstart, Hcb, Hfind, Hignore.
  now destruct (getElementInfo target).
Qed.

End ClickHandlerProperties.

Section ClickHandlerWitnesses.
Import Dom ClickHandler Examples SelectorScenarios ClickScenarios.

Lemma click_on_text_input_is_recorded_witness :
  (recordingStartTime clickTracking = Some 0
   /\ clickCallback clickTracking = true
   /\ isHTMLInputElement formEngine secondInput = true
   /\ matches formEngine secondInput "input" = true
   /\ closest formEngine "[data-how-to-recorder-ignore]" secondInput = None)
  /\ isInteractiveElement formEngine secondInput = false
  /\ sent (handleClick formEngine describingClick pageUrl 1500 secondInput
             clickTracking)
     = [ {| ce_element := describeClick secondInput;
            ce_url := pageUrl;
            ce_timestamp := 1500 |} ]
  /\ handleClickThrowing formEngine (fun _ => Throw "SyntaxError") pageUrl
       1500 secondInput clickTracking
     = (Throw "SyntaxError", clickTracking).
Proof.
  split; [repeat split; reflexivity|].
  destruct (click_on_text_input_is_recorded formEngine describingClick pageUrl
              1500 secondInput clickTracking 0
              eq_refl eq_refl eq_refl eq_refl eq_refl eq_refl eq_refl)
    as (Hnot & _ & _ & Hsent).
  destruct (click_on_text_input_is_recorded formEngine
              (fun _ => Throw "SyntaxError") pageUrl
              1500 secondInput clickTracking 0
              eq_refl eq_refl eq_refl eq_refl eq_refl eq_refl eq_refl)
    as (_ & _ & Hthrow & _).
  split; [exact Hnot|]. split; [exact Hsent|exact Hthrow].
Defined.

End ClickHandlerWitnesses.

(** ** Debouncing per control *)

Section PerControlDebouncing.
Import Field SensitiveFields InputHandler.

Variable getElementInfo : Element -> Exc ElementInfo.
Variable href : string.

#[local] Abbreviation recordInputChange :=
  (InputHandler.recordInputChange getElementInfo href).
#[local] Abbreviation handleInputEvent :=
  (InputHandler.handleInputEvent getElementInfo href).
#[local] Abbreviation handleBlurEvent :=
  (InputHandler.handleBlurEvent getElementInfo href).
#[local] Abbreviation debounceCallback :=
  (InputHandler.debounceCallback getElementInfo href).
#[local] Abbreviation flushPendingInputs :=
  (InputHandler.flushPendingInputs getElementInfo href).
#[local] Abbreviation fireDue := (InputHandler.fireDue getElementInfo href).
#[local] Abbreviation dispatch := (InputHandler.dispatch getElementInfo href).
#[local] Abbreviation handle_event :=
  (ContentScript.handle getElementInfo href).
#[local] Abbreviation run := (ContentScript.run getElementInfo href).

Lemma map_set_elem m element k kv :
  kv ∈ map_set m element k -> snd kv = k \/ kv ∈ m.
Proof.
  induction m as [|[e v] m IH]; simpl.
  - intros H. apply list_elem_of_singleton in H. subst kv. now left.
  - destruct (Nat.eqb (handle e) (handle element)).
    + intros H. apply elem_of_cons in H as [->|H]; [now left|].
      right. now right.
    + intros H. apply elem_of_cons in H as [->|H]; [right; now left|].
      destruct (IH H) as [Hk|Hin]; [now left|right; now right].
Qed.

Lemma map_set_values m element k :
  Forall (fun kv : Element * nat => (snd kv < k)%nat) m ->
  NoDup (snd <$> m) ->
  NoDup (snd <$> map_set m element k)
  /\ Forall (fun kv : Element * nat => (snd kv < S k)%nat)
       (map_set m element k).
Proof.
  intros Hlt Hnd. split.
  - induction m as [|[e v] m IH]; simpl; [apply NoDup_singleton|].
    apply Forall_cons in Hlt as [Hv Hlt].
    apply NoDup_cons in Hnd as [Hnot Hnd]. simpl in Hv.
    destruct (Nat.eqb (handle e) (handle element)); simpl.
    + apply NoDup_cons. split; [|exact Hnd].
      intros Hin. apply list_elem_of_fmap in Hin as ([e' v'] & -> & Hin).
      rewrite Forall_forall in Hlt. specialize (Hlt _ Hin). simpl in Hlt.
      lia.
    + apply NoDup_cons. split; [|now apply IH].
      intros Hin. apply list_elem_of_fmap in Hin as (kv & E & Hin).
      apply map_set_elem in Hin as [Hk|Hin]; [lia|].
      apply Hnot. apply list_elem_of_fmap. eauto.
  - apply Forall_forall. intros kv Hin.
    apply map_set_elem in Hin as [->|Hin]; [lia|].
    rewrite Forall_forall in Hlt. specialize (Hlt _ Hin). lia.
Qed.

Lemma ids_distinct_sublist st m queue :
  ids_distinct st ->
  m `sublist_of` debounceTimers st ->
  ids_distinct (with_timers st m queue (nextTimerId st)).
Proof.
  intros [Hnd Hlt] Hsub. split; simpl.
  - eapply sublist_NoDup; [exact Hnd|]. now apply fmap_sublist.
  - apply Forall_forall. intros kv Hin. rewrite Forall_forall in Hlt.
    eapply Hlt, elem_of_sublist; eassumption.
Qed.

Lemma ids_distinct_same_fields st st' :
  debounceTimers st' = debounceTimers st ->
  nextTimerId st' = nextTimerId st ->
  ids_distinct st -> ids_distinct st'.
Proof. unfold ids_distinct. now intros -> ->. Qed.

Lemma recordInputChange_ids now element st :
  ids_distinct st -> ids_distinct (recordInputChange now element st).
Proof.
  apply ids_distinct_same_fields.
  - apply recordInputChange_debounceTimers.
  - apply recordInputChange_nextTimerId.
Qed.

Lemma handleInputEvent_ids now element st :
  ids_distinct st -> ids_distinct (handleInputEvent now element st).
Proof.
  intros Hids. unfold InputHandler.handleInputEvent.
  destruct (InputHandler.recordingStartTime st); [|exact Hids].
  destruct (_ && _ && _); [exact Hids|].
  destruct (closestIgnore element); [exact Hids|].
  destruct (skippedInputType element); [exact Hids|].
  destruct (recordedImmediately element).
  - apply recordInputChange_ids. exact Hids.
  - destruct Hids as [Hnd Hlt]. simpl.
    destruct (map_set_values (debounceTimers st) element (nextTimerId st)
                Hlt Hnd) as [H1 H2].
    split; assumption.
Qed.

Lemma handleBlurEvent_ids now element st :
  ids_distinct st -> ids_distinct (handleBlurEvent now element st).
Proof.
  intros Hids. unfold InputHandler.handleBlurEvent.
  destruct (InputHandler.recordingStartTime st); [|exact Hids].
  destruct (_ && _); [exact Hids|].
  apply recordInputChange_ids.
  destruct (map_get (debounceTimers st) element); [|exact Hids].
  apply ids_distinct_sublist; [exact Hids|apply sublist_filter].
Qed.

Lemma dispatch_ids now ev st :
  ids_distinct st -> ids_distinct (dispatch now ev st).
Proof.
  intros Hids. destruct ev as [element value|element|element]; simpl.
  - now apply handleInputEvent_ids.
  - now apply handleInputEvent_ids.
  - now apply handleBlurEvent_ids.
Qed.

Lemma fireDue_ids t st : ids_distinct st -> ids_distinct (fireDue t st).
Proof.
  intros Hids. unfold InputHandler.fireDue.
  set (st0 := with_timers st (debounceTimers st) _ (nextTimerId st)).
  assert (H0 : ids_distinct st0) by exact Hids.
  clearbody st0. revert st0 H0.
  induction (filter (fun tm => due tm <= t) (timers st)) as [|tm l IH];
    intros st0 H0; simpl; [exact H0|].
  apply IH.
  destruct (debounceCallback_frame getElementInfo href (due tm) (target tm)
              st0) as (_ & _ & Hm & _ & Hn & _).
  destruct H0 as [Hnd Hlt]. unfold ids_distinct. rewrite Hn.
  destruct Hm as [-> | ->]; [split; assumption|].
  split.
  - eapply sublist_NoDup; [exact Hnd|]. apply fmap_sublist, sublist_filter.
  - apply Forall_forall. intros kv Hin. rewrite Forall_forall in Hlt.
    apply Hlt. now apply list_elem_of_filter in Hin as [_ Hin].
Qed.

Lemma flushEntries_frame now : forall l st,
  debounceTimers (snd (InputHandler.flushEntries getElementInfo href now l st))
  = debounceTimers st
  /\ nextTimerId (snd (InputHandler.flushEntries getElementInfo href now l st))
     = nextTimerId st.
Proof.
  induction l as [|[element timer] l IH]; intros st; simpl; [auto|].
  set (st1 := with_timers st (debounceTimers st)
                (clearTimeout timer (timers st)) (nextTimerId st)).
  destruct (isInput element || isTextArea element); [|apply (IH st1)].
  destruct (recordInputChange_frame getElementInfo href now element st1)
    as (_ & _ & H3 & _ & H5 & _).
  unfold InputHandler.recordInputChange in H3, H5.
  destruct (InputHandler.recordInputChangeThrowing getElementInfo href now
              element st1) as [[u|e] st2]; simpl in *.
  - destruct (IH st2) as [H1 H2]. rewrite H1, H2. auto.
  - auto.
Qed.

Lemma flushPendingInputs_ids now st :
  ids_distinct st -> ids_distinct (flushPendingInputs now st).
Proof.
  intros Hids.
  unfold InputHandler.flushPendingInputs,
    InputHandler.flushPendingInputsThrowing.
  destruct (flushEntries_frame now (debounceTimers st) st) as [H1 H2].
  destruct (InputHandler.flushEntries getElementInfo href now
              (debounceTimers st) st) as [[u|e] st1]; simpl in *.
  - split; [apply NoDup_nil_2|constructor].
  - unfold ids_distinct. now rewrite H1, H2.
Qed.

Lemma empty_map_ids st queue next :
  ids_distinct
    {| InputHandler.recordingStartTime := InputHandler.recordingStartTime st;
       inputCallback := inputCallback st;
       debounceTimers := [];
       lastRecordedValues := lastRecordedValues st;
       timers := queue;
       nextTimerId := next;
       values := values st;
       sent := sent st |}.
Proof. split; [apply NoDup_nil_2|constructor]. Qed.

Lemma handle_event_ids now ev cs :
  ids_distinct (ContentScript.inputHandler cs) ->
  ids_distinct (ContentScript.inputHandler (handle_event now ev cs)).
Proof.
  intros Hids.
  assert (Hflush : ids_distinct
                     (ContentScript.inputHandler
                        (ContentScript.flushIfRecording getElementInfo href
                           now cs))).
  { unfold ContentScript.flushIfRecording.
    destruct (ContentScript.isRecording cs); [|exact Hids].
    now apply flushPendingInputs_ids. }
  destruct ev as [startTime| | |hidden|ev]; simpl.
  - unfold ContentScript.startRecording.
    destruct (ContentScript.isRecording cs); [exact Hids|].
    split; [apply NoDup_nil_2|constructor].
  - unfold ContentScript.stopRecording, ContentScript.stopRecordingThrowing.
    destruct (ContentScript.isRecording cs); [|exact Hids]. simpl.
    pose proof (flushPendingInputs_ids now _ Hids) as Hf.
    unfold InputHandler.flushPendingInputs in Hf.
    destruct (InputHandler.flushPendingInputsThrowing getElementInfo href now
                (ContentScript.inputHandler cs)) as [[u|e] h]; simpl in *.
    + split; [apply NoDup_nil_2|constructor].
    + exact Hf.
  - exact Hflush.
  - destruct hidden; [exact Hflush|exact Hids].
  - now apply dispatch_ids.
Qed.

Lemma run_ids evs : forall cs,
  ids_distinct (ContentScript.inputHandler cs) ->
  ids_distinct (ContentScript.inputHandler (run evs cs)).
Proof.
  induction evs as [|[t ev] evs IH]; intros cs Hids; [exact Hids|].
  simpl. apply IH, handle_event_ids. simpl. now apply fireDue_ids.
Qed.

Lemma initial_ids :
  ids_distinct (ContentScript.inputHandler ContentScript.initial).
Proof. split; [apply NoDup_nil_2|constructor]. Qed.

Lemma same_id_same_control m element element' v :
  NoDup (snd <$> m) ->
  map_get m element = Some v ->
  map_get m element' = Some v ->
  handle element = handle element'.
Proof.
  induction m as [|[k w] m IH]; simpl; [discriminate|].
  intros Hnd H1 H2. apply NoDup_cons in Hnd as [Hnot Hnd].
  assert (Hin : forall e, map_get m e = Some w -> False).
  { intros e He. apply Hnot. apply map_get_In in He as [k' Hk'].
    apply list_elem_of_fmap. exists (k', w). split; [reflexivity|].
    now apply list_elem_of_In. }
  destruct (Nat.eqb_spec (handle k) (handle element)) as [E1|N1];
    destruct (Nat.eqb_spec (handle k) (handle element')) as [E2|N2].
  - congruence.
  - injection H1 as <-. exfalso. eauto.
  - injection H2 as <-. exfalso. eauto.
  - now apply IH.
Qed.

(** X28. Debouncing is per control.  Whatever the content script has
    handled before, an event on one control leaves the pending timer of
    every other control in the queue, with its due time, and still
    registered in the debounce map: typing in one field neither delays
    nor cancels the commit of another. *)
Theorem event_elsewhere_keeps_pending_timer
    (evs : list (Z * ContentScript.Event)) (now : Z) (ev : PageEvent)
    (tm : Timer) :
  let st := ContentScript.inputHandler (run evs ContentScript.initial) in
  In tm (timers st) ->
  handle (target tm) <> handle (event_target ev) ->
  In tm (timers (dispatch now ev st))
  /\ map_get (debounceTimers (dispatch now ev st)) (target tm)
     = Some (timer_id tm).
Proof.
  intros st Hin Hother.
  pose proof (run_in_sync getElementInfo href evs _ initial_in_sync) as Hsync.
  pose proof (run_ids evs _ initial_ids) as [Hnd _].
  fold st in Hnd. unfold in_sync in Hsync. fold st in Hsync.
  destruct (ContentScript.isRecording _).
  2: { destruct Hsync as (_ & _ & _ & _ & _ & Ht).
       rewrite Ht in Hin. destruct Hin. }
  destruct Hsync as (start & _ & Htr & _ & Hreg).
  assert (Hreg' : timers_registered (dispatch now ev st))
    by (now apply dispatch_registered).
  assert (Hkeep : In tm (timers (dispatch now ev st))).
  { pose proof Hreg as (Ha & _). rewrite Forall_forall in Ha.
    apply list_elem_of_In in Hin. pose proof (Ha tm Hin) as Htm.
    assert (Hclear :
              tm ∈ match map_get (debounceTimers st) (event_target ev) with
                   | Some existingTimer =>
                       clearTimeout existingTimer (timers st)
                   | None => timers st
                   end).
    { destruct (map_get (debounceTimers st) (event_target ev))
        as [existing|] eqn:E; [|exact Hin].
      apply list_elem_of_filter. split; [|exact Hin].
      intros Hid. apply Hother.
      eapply same_id_same_control; [exact Hnd|exact Htm|now rewrite Hid]. }
    apply list_elem_of_In.
    destruct Htr as [Hstart Hcb].
    destruct ev as [element value|element|element]; simpl in *;
      unfold InputHandler.handleInputEvent, InputHandler.handleBlurEvent;
      simpl; rewrite Hstart.
    - destruct (_ && _ && _); [exact Hin|].
      destruct (closestIgnore element); [exact Hin|].
      destruct (skippedInputType element); [exact Hin|].
      destruct (recordedImmediately element).
      + rewrite recordInputChange_timers. exact Hclear.
      + simpl. apply elem_of_app. left. exact Hclear.
    - destruct (_ && _ && _); [exact Hin|].
      destruct (closestIgnore element); [exact Hin|].
      destruct (skippedInputType element); [exact Hin|].
      destruct (recordedImmediately element).
      + rewrite recordInputChange_timers. exact Hclear.
      + simpl. apply elem_of_app. left. exact Hclear.
    - destruct (_ && _); [exact Hin|].
      rewrite recordInputChange_timers.
      destruct (map_get (debounceTimers st) element); [|exact Hin].
      exact Hclear. }
  split; [exact Hkeep|].
  destruct Hreg' as (Ha & _). rewrite Forall_forall in Ha.
  apply Ha. now apply list_elem_of_In.
Qed.

End PerControlDebouncing.

Section PerControlDebouncingWitnesses.
Import Field InputHandler Examples FieldScenarios.

Lemma event_elsewhere_keeps_pending_timer_witness :
  (In {| timer_id := 1; due := 1100; target := emailField |}
     (timers (ContentScript.inputHandler
                (ContentScript.run describing pageUrl typingSession
                   ContentScript.initial)))
   /\ handle emailField
      <> handle (event_target (Typed passwordField "hunter22")))
  /\ In {| timer_id := 1; due := 1100; target := emailField |}
       (timers (InputHandler.dispatch describing pageUrl 500
                  (Typed passwordField "hunter22")
                  (ContentScript.inputHandler
                     (ContentScript.run describing pageUrl typingSession
                        ContentScript.initial)))).
Proof.
  assert (H1 : In {| timer_id := 1; due := 1100; target := emailField |}
                 (timers (ContentScript.inputHandler
                            (ContentScript.run describing pageUrl typingSession
                               ContentScript.initial))))
    by (vm_compute; now left).
  assert (H2 : handle emailField
               <> handle (event_target (Typed passwordField "hunter22")))
    by discriminate.
  split; [split; assumption|].
  exact (proj1 (event_elsewhere_keeps_pending_timer describing pageUrl
                  typingSession 500 (Typed passwordField "hunter22")
                  {| timer_id := 1; due := 1100; target := emailField |}
                  H1 H2)).
Defined.

End PerControlDebouncingWitnesses.

(** ** Stopping a recording *)

Section StopProperties.
Import Field InputHandler Examples.

(** C9. Told to stop, the content script does flush: each pending input
    is committed and handed to the callback before the maps are cleared.
    But the worker has stopped the session by then: [stopRecording] sets
    [isRecording] to false before it sends [DISABLE_RECORDING], and from
    then on [addStep] answers every [INPUT_EVENT] with no step.  With the
    email and the password field both pending, the page flushes the two
    inputs on [DISABLE_RECORDING] and the worker records neither: the
    burst being typed when the recording stops is lost.  Besides, a commit
    that throws ends the flush: on a page whose fields cannot be
    described, the stop throws at the first field, the script and the
    handler keep recording, and the password field is neither flushed nor
    cleared. *)
Theorem stop_loses_the_pending_inputs :
  let worker := snd (Background.stopRecording exampleBrowser recording) in
  let page := ContentScript.stopRecording describing pageUrl 500 midTyping in
  let stuck :=
    ContentScript.stopRecordingThrowing undescribed pageUrl 500 midTyping in
  sent (ContentScript.inputHandler page)
  = [ {| ie_element := describe emailField;
         ie_value := "user@example.com";
         ie_isSensitive := false;
         ie_url := pageUrl;
         ie_timestamp := 500 |};
      {| ie_element := describe passwordField;
         ie_value := "********";
         ie_isSensitive := true;
         ie_url := pageUrl;
         ie_timestamp := 500 |} ]
  /\ ContentScript.isRecording page = false
  /\ debounceTimers (ContentScript.inputHandler page) = []
  /\ Forall (fun message =>
               Background.onMessage exampleBrowser (INPUT_EVENT message)
                 (Some 7) worker
               = (Background.StepResponse None, worker))
       (sent (ContentScript.inputHandler page))
  /\ Background.session_steps worker = [firstStep]
  /\ (forall b st b' message sender step,
        let stopped := snd (Background.stopRecording b st) in
        snd (Background.onMessage b' (INPUT_EVENT message) sender stopped)
        = stopped
        /\ fst (Background.onMessage b' (INPUT_EVENT message) sender stopped)
           <> Background.StepResponse (Some step))
  /\ fst stuck = Throw "SyntaxError"
  /\ ContentScript.isRecording (snd stuck) = true
  /\ isInputTrackingActive (ContentScript.inputHandler (snd stuck)) = true
  /\ sent (ContentScript.inputHandler (snd stuck)) = []
  /\ map fst (debounceTimers (ContentScript.inputHandler (snd stuck)))
     = [emailField; passwordField]
  /\ map target (timers (ContentScript.inputHandler (snd stuck)))
     = [passwordField].
Proof.
  cbv zeta.
  split; [reflexivity|]. split; [reflexivity|]. split; [reflexivity|].
  split; [repeat constructor|]. split; [reflexivity|].
  split; [|repeat split; reflexivity].
  intros b st b' message sender step.
  unfold Background.onMessage.
  destruct (truthy_num sender) as [tid|]; [|split; [reflexivity|discriminate]].
  assert (Hnone : Background.addStep b' input
                    {| Background.d_timestamp := Some (ie_timestamp message);
                       Background.d_element := Some (ie_element message);
                       Background.d_inputValue := Some (ie_value message);
                       Background.d_isSensitive :=
                         Some (ie_isSensitive message);
                       Background.d_url := Some (ie_url message) |}
                    tid (snd (Background.stopRecording b st))
                  = (None, snd (Background.stopRecording b st))).
  { unfold Background.addStep, Background.stopRecording,
      Background.saveSessionMetadata.
    destruct (Background.currentSession st) as [s|] eqn:Hs; simpl.
    - now destruct (Background.storage_ok b).
    - now rewrite Hs. }
  rewrite Hnone. split; [reflexivity|discriminate].
Qed.

End StopProperties.

(** ** Bursts of input *)

Section BurstProperties.
Import Field SensitiveFields InputHandler.

Variable getElementInfo : Element -> Exc ElementInfo.
Variable href : string.

#[local] Abbreviation recordInputChange :=
  (InputHandler.recordInputChange getElementInfo href).
#[local] Abbreviation debounceCallback :=
  (InputHandler.debounceCallback getElementInfo href).
#[local] Abbreviation handleInputEvent :=
  (InputHandler.handleInputEvent getElementInfo href).
#[local] Abbreviation handleBlurEvent :=
  (InputHandler.handleBlurEvent getElementInfo href).
#[local] Abbreviation fireDue := (InputHandler.fireDue getElementInfo href).
#[local] Abbreviation dispatch := (InputHandler.dispatch getElementInfo href).
#[local] Abbreviation runPage := (InputHandler.runPage getElementInfo href).
#[local] Abbreviation elapse := (elapse getElementInfo href).

Lemma currentValue_lookup element st st' :
  values st' !! handle element = values st !! handle element ->
  currentValue element st' = currentValue element st.
Proof. unfold currentValue, valueOf. now intros ->. Qed.

(** What a commit sends and records depends on the state only through the
    value of the element and the value last recorded for it. *)
Lemma commit_agrees_lookup st st' element :
  values st' !! handle element = values st !! handle element ->
  lastRecordedValues st' !! handle element
  = lastRecordedValues st !! handle element ->
  (forall start now,
     commitMessages getElementInfo href start now st' element
     = commitMessages getElementInfo href start now st element)
  /\ commitOutcome getElementInfo st' element
     = commitOutcome getElementInfo st element.
Proof.
  intros Hval Hlast. unfold commitMessages, commitOutcome.
  rewrite (currentValue_lookup element st st' Hval), Hlast. auto.
Qed.

Lemma agree_off_tracking element sA sB start :
  agree_off element sA sB -> tracking sA start -> tracking sB start.
Proof. intros (H1 & H2 & _) [Hs Hc]. split; congruence. Qed.

(** The callback of a timer of another control does the same to two
    handlers that agree off [element]. *)
Lemma debounceCallback_agree element now e' sA sB :
  handle e' <> handle element ->
  agree_off element sA sB ->
  agree_off element (debounceCallback now e' sA) (debounceCallback now e' sB)
  /\ map_get (debounceTimers (debounceCallback now e' sB)) element
     = map_get (debounceTimers sB) element.
Proof.
  intros Hne (H1 & H2 & H3 & H4 & H5 & H6).
  unfold InputHandler.debounceCallback.
  destruct (tracking_or_idle sA) as [[start Htr]|Hidle].
  - assert (HtrB : tracking sB start)
      by (destruct Htr; split; congruence).
    rewrite (recordInputChangeThrowing_commits getElementInfo href now e' sA
               start Htr),
      (recordInputChangeThrowing_commits getElementInfo href now e' sB
         start HtrB).
    destruct (commit_agrees_lookup sA sB e' (H5 e' Hne)) as [Hmsgs Hout];
      [now rewrite H3|].
    assert (Hrec : commitRecorded sB e' = commitRecorded sA e').
    { unfold commitRecorded.
      rewrite (currentValue_lookup e' sA sB (H5 e' Hne)), H3. reflexivity. }
    rewrite Hout, Hmsgs, Hrec, H1, H2, H4.
    destruct (commitOutcome getElementInfo sA e') as [u|e];
      unfold agree_off, with_timers;
      cbn [InputHandler.recordingStartTime inputCallback lastRecordedValues
           sent values debounceTimers].
    + split.
      * do 5 (split; [auto|]). intros e'' Hne''. rewrite !map_get_delete.
        destruct (Nat.eqb _ _); [reflexivity|]. now apply H6.
      * rewrite map_get_delete.
        destruct (Nat.eqb_spec (handle element) (handle e')) as [E|_];
          [congruence|reflexivity].
    + split; [|reflexivity]. repeat split; auto.
  - assert (HidleB : InputHandler.recordingStartTime sB = None
                     \/ inputCallback sB = false)
      by (destruct Hidle; [left|right]; congruence).
    rewrite !recordInputChangeThrowing_idle by assumption.
    unfold agree_off, with_timers;
      cbn [InputHandler.recordingStartTime inputCallback lastRecordedValues
           sent values debounceTimers].
    split.
    + do 5 (split; [auto|]). intros e'' Hne''. rewrite !map_get_delete.
      destruct (Nat.eqb _ _); [reflexivity|]. now apply H6.
    + rewrite map_get_delete.
      destruct (Nat.eqb_spec (handle element) (handle e')) as [E|_];
        [congruence|reflexivity].
Qed.

Lemma fold_debounceCallback_frame : forall l st,
  let st' :=
    fold_left (fun s tm => debounceCallback (due tm) (target tm) s) l st in
  timers st' = timers st /\ values st' = values st.
Proof.
  induction l as [|tm l IH]; intros st; simpl; [auto|].
  destruct (IH (debounceCallback (due tm) (target tm) st)) as [H1 H2].
  destruct (debounceCallback_frame getElementInfo href (due tm) (target tm)
              st) as (_ & _ & _ & Ht & _ & Hv & _).
  rewrite H1, H2. auto.
Qed.

Lemma fold_debounceCallback_agree element : forall l sA sB,
  Forall (fun tm => handle (target tm) <> handle element) l ->
  agree_off element sA sB ->
  let run s :=
    fold_left (fun s tm => debounceCallback (due tm) (target tm) s) l s in
  agree_off element (run sA) (run sB)
  /\ map_get (debounceTimers (run sB)) element
     = map_get (debounceTimers sB) element.
Proof.
  induction l as [|tm l IH]; intros sA sB Hl Hag; simpl; [auto|].
  apply Forall_cons in Hl as [Htm Hl].
  destruct (debounceCallback_agree element (due tm) (target tm) sA sB Htm Hag)
    as [Hag' Hmap].
  destruct (IH _ _ Hl Hag') as [H1 H2].
  split; [exact H1|]. now rewrite H2.
Qed.

Lemma filter_due_other element t (q : list Timer) :
  Forall (fun tm => handle (target tm) <> handle element) q ->
  Forall (fun tm => handle (target tm) <> handle element)
    (filter (fun tm => due tm <= t) q)
  /\ Forall (fun tm => handle (target tm) <> handle element)
       (filter (fun tm => ~ due tm <= t) q).
Proof.
  intros H. rewrite Forall_forall in H.
  split; apply Forall_forall; intros tm Hin;
    apply list_elem_of_filter in Hin as [_ Hin]; now apply H.
Qed.

(** While the timer of the burst is not due, time passes for the two
    handlers alike. *)
Lemma fireDue_midBurst element start sA sB t v k t' :
  midBurst element start sA sB t v k ->
  t' < t + INPUT_DEBOUNCE_MS ->
  midBurst element start (fireDue t' sA) (fireDue t' sB) t v k.
Proof.
  intros (Hag & Htr & Hv & Hk & Ht & Hoff & Hreg) Hlt.
  destruct (filter_due_other element t' (timers sA) Hoff) as [Hdue Hlater].
  pose proof (fireDue_registered getElementInfo href t' sB Hreg) as Hreg'.
  pose proof (fireDue_tracking getElementInfo href t' sB start Htr) as Htr'.
  unfold InputHandler.fireDue in *. rewrite Ht in *.
  rewrite !filter_app, !filter_cons, !filter_nil in *. simpl due in *.
  rewrite decide_False in * by lia. rewrite decide_True in * by lia.
  rewrite app_nil_r in *.
  set (l := filter (fun tm => due tm <= t') (timers sA)) in *.
  set (later := filter (fun tm => ~ due tm <= t') (timers sA)) in *.
  set (kt := {| timer_id := k; due := t + INPUT_DEBOUNCE_MS;
                target := element |}) in *.
  set (sA0 := with_timers sA (debounceTimers sA) later (nextTimerId sA)).
  set (sB0 := with_timers sB (debounceTimers sB) (later ++ [kt])
                (nextTimerId sB)) in *.
  assert (Hag0 : agree_off element sA0 sB0) by exact Hag.
  destruct (fold_debounceCallback_agree element l sA0 sB0 Hdue Hag0)
    as [Hag' Hmap].
  destruct (fold_debounceCallback_frame l sA0) as [HtA HvA].
  destruct (fold_debounceCallback_frame l sB0) as [HtB HvB].
  split; [exact Hag'|]. split; [exact Htr'|].
  split; [now rewrite HvB|]. split; [now rewrite Hmap|].
  split; [now rewrite HtB, HtA|]. split; [now rewrite HtA|exact Hreg'].
Qed.

Lemma clearTimeout_last (q : list Timer) k tm :
  timer_id tm = k ->
  NoDup (timer_id <$> (q ++ [tm])) ->
  clearTimeout k (q ++ [tm]) = q.
Proof.
  intros Hid Hnd. unfold clearTimeout.
  rewrite filter_app, filter_cons, filter_nil.
  rewrite decide_False by (intros H; now apply H). rewrite app_nil_r.
  rewrite fmap_app in Hnd. apply NoDup_app in Hnd as (_ & Hdis & _).
  induction q as [|x q IH]; [reflexivity|].
  rewrite filter_cons. rewrite decide_True.
  - f_equal. apply IH. intros y Hy. apply Hdis. now right.
  - intros E. apply (Hdis (timer_id x)); [now left|].
    rewrite E, <- Hid. now left.
Qed.

Lemma debounced_kind element :
  debounced element = true ->
  isInput element || isTextArea element = true /\ isSelect element = false.
Proof.
  unfold debounced, isInput, isTextArea, isSelect.
  destruct (interface element); simpl; auto; discriminate.
Qed.

(** The first event of a burst: the pending timer of the element, if
    any, is replaced. *)
Lemma typed_first element start st t v :
  debounced element = true ->
  tracking st start ->
  timers_registered st ->
  midBurst element start (cancelPending element st)
    (dispatch t (Typed element v) st) t v (nextTimerId st).
Proof.
  intros Hd Htr Hreg.
  pose proof (dispatch_registered getElementInfo href t (Typed element v) st
                Hreg) as Hreg'.
  pose proof (dispatch_tracking getElementInfo href t (Typed element v) st
                start Htr) as Htr'.
  simpl in *.
  rewrite (handleInputEvent_debounced getElementInfo href t element _ start Hd)
    in * by exact Htr.
  simpl in *.
  split; [|split; [exact Htr'|split; [apply lookup_insert_eq|]]].
  - repeat split; simpl; auto.
    + intros e' Hne. apply lookup_insert_ne. congruence.
    + intros e' Hne. rewrite map_get_set.
      destruct (Nat.eqb_spec (handle e') (handle element));
        [contradiction|reflexivity].
  - unfold with_timers at 1 2. cbn [debounceTimers timers].
    split; [now rewrite map_get_set, Nat.eqb_refl|].
    split; [reflexivity|]. split; [|exact Hreg'].
    apply Forall_forall. intros tm Hin.
    now apply (surviving_timer_other_element st element tm Hreg).
Qed.

(** A further event of the burst restarts the timer. *)
Lemma typed_next element start sA sB t v k t' v' :
  debounced element = true ->
  midBurst element start sA sB t v k ->
  midBurst element start sA (dispatch t' (Typed element v') sB) t' v'
    (nextTimerId sB).
Proof.
  intros Hd (Hag & Htr & Hv & Hk & Ht & Hoff & Hreg).
  pose proof (dispatch_registered getElementInfo href t' (Typed element v') sB
                Hreg) as Hreg'.
  pose proof (dispatch_tracking getElementInfo href t' (Typed element v') sB
                start Htr) as Htr'.
  simpl in *.
  rewrite (handleInputEvent_debounced getElementInfo href t' element _ start
             Hd) in * by exact Htr.
  simpl in *. rewrite Hk, Ht.
  rewrite (clearTimeout_last (timers sA) k
             {| timer_id := k; due := t + INPUT_DEBOUNCE_MS;
                target := element |} eq_refl)
    by (rewrite <- Ht; apply Hreg).
  destruct Hag as (H1 & H2 & H3 & H4 & H5 & H6).
  split; [|split; [exact Htr'|split; [apply lookup_insert_eq|]]].
  - repeat split; simpl; auto.
    + intros e' Hne. rewrite lookup_insert_ne by congruence. now apply H5.
    + intros e' Hne. rewrite map_get_set.
      destruct (Nat.eqb_spec (handle e') (handle element));
        [contradiction|now apply H6].
  - unfold with_timers at 1 2. cbn [debounceTimers timers].
    split; [now rewrite map_get_set, Nat.eqb_refl|].
    split; [reflexivity|]. split; [exact Hoff|].
    rewrite Hk, Ht in Hreg'.
    rewrite (clearTimeout_last (timers sA) k
             {| timer_id := k; due := t + INPUT_DEBOUNCE_MS;
                target := element |} eq_refl) in Hreg'
      by (rewrite <- Ht; apply Hreg).
    exact Hreg'.
Qed.

Lemma last_cons {A} (l : list A) : forall x y : A,
  List.last (y :: l) x = List.last l y.
Proof.
  induction l as [|z l IH]; intros x y; [reflexivity|].
  change (List.last (y :: z :: l) x) with (List.last (z :: l) x).
  now rewrite (IH x z), (IH y z).
Qed.

Lemma burst_midBurst element start : forall rest sA sB t v k,
  debounced element = true ->
  midBurst element start sA sB t v k ->
  rapid t rest ->
  exists k',
    midBurst element start (elapse (map fst rest) sA)
      (runPage (burstEvents element rest) sB)
      (fst (List.last rest (t, v))) (snd (List.last rest (t, v))) k'.
Proof.
  induction rest as [|[t' v'] rest IH]; intros sA sB t v k Hd Hmid Hrapid;
    [now exists k|].
  destruct Hrapid as [Ht Hrest].
  change (runPage (burstEvents element ((t', v') :: rest)) sB)
    with (runPage (burstEvents element rest)
            (dispatch t' (Typed element v') (fireDue t' sB))).
  change (elapse (map fst ((t', v') :: rest)) sA)
    with (elapse (map fst rest) (fireDue t' sA)).
  rewrite last_cons.
  apply (IH _ _ t' v' (nextTimerId (fireDue t' sB))); auto.
  apply (typed_next element start _ _ t v k); [exact Hd|].
  apply fireDue_midBurst; [exact Hmid|lia].
Qed.

(** When the timer of the burst fires: the timers of the other controls
    that are due run as they would have, then the element is committed. *)
Lemma settle_midBurst element start sA sB t v k T :
  midBurst element start sA sB t v k ->
  tracking sA start ->
  t + INPUT_DEBOUNCE_MS <= T ->
  sent (fireDue T sB)
  = sent (fireDue T sA)
    ++ commitMessages getElementInfo href start (t + INPUT_DEBOUNCE_MS)
         (setValue element v (fireDue T sA)) element
  /\ timers (fireDue T sB) = timers (fireDue T sA)
  /\ Forall (fun tm => handle (target tm) <> handle element)
       (timers (fireDue T sB)).
Proof.
  intros (Hag & Htr & Hv & Hk & Ht & Hoff & Hreg) HtrA HT.
  destruct (filter_due_other element T (timers sA) Hoff) as [Hdue Hlater].
  pose proof (fireDue_tracking getElementInfo href T sA start HtrA) as HtrA'.
  unfold InputHandler.fireDue in *. rewrite Ht.
  rewrite !filter_app, !filter_cons, !filter_nil. simpl due.
  rewrite decide_True by lia. rewrite decide_False by lia.
  rewrite app_nil_r, fold_left_app. cbn [fold_left due target].
  set (l := filter (fun tm => due tm <= T) (timers sA)) in *.
  set (later := filter (fun tm => ~ due tm <= T) (timers sA)) in *.
  set (sA0 := with_timers sA (debounceTimers sA) later (nextTimerId sA)) in *.
  set (sB0 := with_timers sB (debounceTimers sB) later (nextTimerId sB)).
  assert (Hag0 : agree_off element sA0 sB0) by exact Hag.
  destruct (fold_debounceCallback_agree element l sA0 sB0 Hdue Hag0)
    as [Hag' _].
  destruct (fold_debounceCallback_frame l sA0) as [HtA HvA].
  destruct (fold_debounceCallback_frame l sB0) as [HtB HvB].
  set (sA' := fold_left (fun s tm => debounceCallback (due tm) (target tm) s)
                l sA0) in *.
  set (sB' := fold_left (fun s tm => debounceCallback (due tm) (target tm) s)
                l sB0) in *.
  assert (HtrB' : tracking sB' start)
    by (now apply (agree_off_tracking element sA' sB')).
  destruct (debounceCallback_frame getElementInfo href
              (t + INPUT_DEBOUNCE_MS) element sB')
    as (_ & _ & _ & Htimers & _ & _ & _ & Hsent).
  rewrite Hsent, Htimers.
  rewrite (recordInputChange_commits getElementInfo href _ element sB' start
             HtrB'). simpl.
  destruct Hag' as (_ & _ & Hlast & Hs & _).
  destruct (commit_agrees_lookup (setValue element v sA') sB' element)
    as [Hmsgs _].
  { simpl. rewrite lookup_insert_eq, HvB. exact Hv. }
  { simpl. now rewrite Hlast. }
  rewrite Hmsgs, Hs, HtB, HtA. simpl. auto.
Qed.

(** A blur while the timer of the burst is pending: the timer is cleared
    and the element is committed at once. *)
Lemma blur_midBurst element start sA sB t v k tb :
  debounced element = true ->
  midBurst element start sA sB t v k ->
  let blurred := dispatch tb (Blurred element) sB in
  sent blurred
  = sent sA
    ++ commitMessages getElementInfo href start tb (setValue element v sA)
         element
  /\ timers blurred = timers sA
  /\ map_get (debounceTimers blurred) element = None.
Proof.
  intros Hd (Hag & Htr & Hv & Hk & Ht & Hoff & Hreg) blurred.
  destruct (debounced_kind element Hd) as [Hkind _].
  assert (Hnot : negb (isInput element) && negb (isTextArea element) = false)
    by (destruct (isInput element), (isTextArea element);
        simpl in *; congruence).
  set (st1 := with_timers sB (map_delete (debounceTimers sB) element)
                (clearTimeout k (timers sB)) (nextTimerId sB)).
  assert (E : blurred = recordInputChange tb element st1).
  { unfold blurred. simpl. unfold InputHandler.handleBlurEvent.
    destruct Htr as [-> _]. now rewrite Hnot, Hk. }
  assert (Htr1 : tracking st1 start) by exact Htr.
  rewrite E,
    (recordInputChange_commits getElementInfo href tb element st1 start Htr1).
  simpl.
  destruct Hag as (_ & _ & Hlast & Hs & _).
  destruct (commit_agrees_lookup (setValue element v sA) st1 element)
    as [Hmsgs _].
  { simpl. rewrite lookup_insert_eq. exact Hv. }
  { simpl. now rewrite Hlast. }
  rewrite Hmsgs, Hs. split; [reflexivity|]. split.
  - rewrite Ht. apply (clearTimeout_last (timers sA) k
             {| timer_id := k; due := t + INPUT_DEBOUNCE_MS;
                target := element |} eq_refl).
    rewrite <- Ht. apply Hreg.
  - now rewrite map_get_delete, Nat.eqb_refl.
Qed.


End BurstProperties.

Section BurstWitnesses.
Import Field InputHandler Examples FieldScenarios.



End BurstWitnesses.
